(** * Tudat JSON interface: propagator settings

    A shallow embedding of [Tudat/JsonInterface/Propagation/propagator.h]:
    the conversion between a [nlohmann::json] configuration node and the
    propagator settings objects, the inference of missing initial states,
    the collection of the dependent variables to save and the search of
    the termination epoch in a tree of termination settings. *)

From Stdlib Require Import SpecFloat.
From stdpp Require Import base option list strings gmap fin_maps.

#[local] Set Warnings "-register-all".

(** ** Scalars *)

(** A C++ [double] is an IEEE 754 value: a signed zero, a signed infinity,
    a NaN, or a finite number [(-1)^s * m * 2^e]. *)
Abbreviation double := spec_float.

#[global] Instance double_eq_dec : EqDecision double.
Proof. solve_decision. Defined.

(** [TUDAT_NAN], the quiet NaN used where no value is available. *)
Definition TUDAT_NAN : double := S754_nan.

Definition isNaN (x : double) : bool :=
  match x with
  | S754_nan => true
  | _ => false
  end.

(** [std::isfinite]: neither a NaN nor an infinity. *)
Definition isFinite (x : double) : bool :=
  match x with
  | S754_zero _ | S754_finite _ _ _ => true
  | S754_infinity _ | S754_nan => false
  end.

Definition zero : double := S754_zero false.
Definition infinity : double := S754_infinity false.

(** The double with the integer value [p > 0]. *)
Definition double_of_pos (p : positive) : double := S754_finite false p 0.

(** ** Termination settings *)

(** What a dependent variable to save is made of; [getVariableId] derives
    its identifier from these fields. *)
Record SingleDependentVariableSaveSettings := {
  variableType_ : string;
  associatedBody_ : string;
  secondaryBody_ : string;
}.

#[global] Instance SingleDependentVariableSaveSettings_eq_dec :
  EqDecision SingleDependentVariableSaveSettings.
Proof. solve_decision. Defined.

(** The classes derived from [PropagationTerminationSettings]. A hybrid
    condition owns its children in order, and [fulfillSingleCondition_]
    tells whether any one of them (true) or all of them (false) stop the
    propagation. *)
Inductive PropagationTerminationSettings :=
| PropagationTimeTerminationSettings (terminationTime_ : double)
| PropagationDependentVariableTerminationSettings
    (dependentVariableSettings_ : SingleDependentVariableSaveSettings)
    (limitValue_ : double) (useAsLowerLimit_ : bool)
| PropagationHybridTerminationSettings
    (terminationSettings_ : list PropagationTerminationSettings)
    (fulfillSingleCondition_ : bool).

(** [getTerminationEpoch]: the end epoch of a propagation, [TUDAT_NAN] if
    there is no time termination condition. The inner [fix] is the loop
    over the children of a hybrid condition. *)
Fixpoint getTerminationEpoch (terminationSettings : PropagationTerminationSettings)
  : double :=
  match terminationSettings with
  | PropagationTimeTerminationSettings terminationTime => terminationTime
  | PropagationHybridTerminationSettings children _ =>
      (fix loop (rest : list PropagationTerminationSettings) : double :=
         match rest with
         | [] => TUDAT_NAN
         | child :: rest' =>
             let endEpoch := getTerminationEpoch child in
             if negb (isNaN endEpoch) then endEpoch else loop rest'
         end) children
  | PropagationDependentVariableTerminationSettings _ _ _ => TUDAT_NAN
  end.

(** The loop of [getTerminationEpoch] as a function of its own. *)
Fixpoint firstEpoch (children : list PropagationTerminationSettings) : double :=
  match children with
  | [] => TUDAT_NAN
  | child :: rest =>
      let endEpoch := getTerminationEpoch child in
      if negb (isNaN endEpoch) then endEpoch else firstEpoch rest
  end.

(** The epochs of the time conditions of a tree, depth first, children in
    list order. *)
Fixpoint timeEpochs (t : PropagationTerminationSettings) : list double :=
  match t with
  | PropagationTimeTerminationSettings e => [e]
  | PropagationDependentVariableTerminationSettings _ _ _ => []
  | PropagationHybridTerminationSettings children _ =>
      (fix go (rest : list PropagationTerminationSettings) : list double :=
         match rest with
         | [] => []
         | child :: rest' => timeEpochs child ++ go rest'
         end) children
  end.

(** The first element of a list of epochs that passes a test, [TUDAT_NAN]
    when none does. *)
Definition firstWhere (test : double → bool) (epochs : list double) : double :=
  default TUDAT_NAN (head (filter (λ e, test e = true) epochs)).

Definition notNaN (x : double) : bool := negb (isNaN x).

(** ** Failures and results *)

(** The exceptions with which a conversion fails. [UndefinedKeyError]
    carries the key path that was looked up and not found. *)
Inductive error :=
| UndefinedKeyError (keyPath : list string)
| TypeMismatchError
| UnknownTagError
| UnsupportedVariantError
| OutOfRangeError
| EphemerisUnavailableError.

#[global] Instance error_eq_dec : EqDecision error.
Proof. solve_decision. Defined.

(** What a call comes to: it returns a value, it throws an exception, or
    it ends the process. The last is what a bare [throw;] does where no
    exception is being handled: [std::terminate] is called, nothing is
    thrown and no handler, not even [catch ( ... )], gets control. *)
Inductive result (A : Type) :=
| Ok (a : A)
| Err (e : error)
| Terminate.
Arguments Ok {A} a.
Arguments Err {A} e.
Arguments Terminate {A}.

#[global] Instance result_ret : MRet result := λ A a, Ok a.
#[global] Instance result_bind : MBind result :=
  λ A B f m,
    match m with Ok a => f a | Err e => Err e | Terminate => Terminate end.
#[global] Instance result_fmap : FMap result :=
  λ A B f m,
    match m with Ok a => Ok (f a) | Err e => Err e | Terminate => Terminate end.

(** A loop whose body may throw or end the process: the elements are
    visited in order and the first that does not return ends the loop. *)
Fixpoint forEach {A B} (body : A → result B) (l : list A) : result (list B) :=
  match l with
  | [] => Ok []
  | x :: rest => y ← body x; ys ← forEach body rest; Ok (y :: ys)
  end.

(** ** Configuration nodes *)

(** A [nlohmann::json] value. An object is a map from keys to values; the
    numbers are kept as doubles. *)
Inductive json :=
| JNull
| JBool (b : bool)
| JNum (d : double)
| JStr (s : string)
| JArr (elements : list json)
| JObj (members : gmap string json).

(** Modelled from the spec: the keys of the configuration nodes ([keys.h] is
    not among the sources), each with the name that the source gives it.
    Nothing depends on their text but that the keys of one object differ. *)
Module Keys.
Definition finalEpoch : string := "finalEpoch".
Definition bodies : string := "bodies".
Definition propagators : string := "propagators".
Definition termination : string := "termination".
Definition options : string := "options".

Module Options.
Definition printInterval : string := "printInterval".
End Options.

Module Body.
Definition initialState : string := "initialState".
Definition mass : string := "mass".
Definition rotationalState : string := "rotationalState".
End Body.

Module Propagator.
Definition integratedStateType : string := "integratedStateType".
Definition initialStates : string := "initialStates".
Definition bodiesToPropagate : string := "bodiesToPropagate".
Definition type : string := "type".
Definition centralBodies : string := "centralBodies".
Definition accelerations : string := "accelerations".
Definition massRateModels : string := "massRateModels".
Definition torques : string := "torques".
End Propagator.
End Keys.

Module K := Keys.Propagator.

(** The spec's name for the failure of a decode that finds neither a user
    termination condition nor a final epoch: the final epoch is looked up
    and is not there. *)
Definition MissingTerminationError : error := UndefinedKeyError [Keys.finalEpoch].

(** Modelled from the spec: the reader of configuration nodes
    ([valueAccess.h] is not among the sources). [getNode] is [get(path)]:
    it follows a key path through nested objects and finds a node or
    nothing. *)
Fixpoint getNode (jsonObject : json) (keyPath : list string) : option json :=
  match keyPath with
  | [] => Some jsonObject
  | key :: rest =>
      match jsonObject with
      | JObj members => node ← members !! key; getNode node rest
      | _ => None
      end
  end.

(** Modelled from the spec: [has(path)], which the source calls
    [isDefined]. *)
Definition isDefined (jsonObject : json) (keyPath : list string) : bool :=
  bool_decide (is_Some (getNode jsonObject keyPath)).

(** The conversions that nlohmann finds by argument-dependent lookup:
    [from_json] may fail, [to_json] of the types below does not. *)
Class FromJson (A : Type) := from_json : json → result A.
Class ToJson (A : Type) := to_json : A → json.
#[global] Hint Mode FromJson ! : typeclass_instances.
#[global] Hint Mode ToJson ! : typeclass_instances.

(** Modelled from the spec: [as<T>(node)] of a node that is required and
    may be absent. *)
Definition convert {A} `{!FromJson A} (keyPath : list string) (node : option json)
  : result A :=
  match node with
  | Some node => from_json node
  | None => Err (UndefinedKeyError keyPath)
  end.

(** Modelled from the spec: [as<T>(get(path))], a required value. *)
Definition getValue {A} `{!FromJson A} (jsonObject : json) (keyPath : list string)
  : result A :=
  convert keyPath (getNode jsonObject keyPath).

(** Modelled from the spec: a value with a default, which is used when the
    key path is not defined. *)
Definition getValueOr {A} `{!FromJson A} (jsonObject : json)
  (keyPath : list string) (optionalValue : A) : result A :=
  match getNode jsonObject keyPath with
  | Some node => from_json node
  | None => Ok optionalValue
  end.

#[global] Instance double_from_json : FromJson double :=
  λ node, match node with JNum d => Ok d | _ => Err TypeMismatchError end.
#[global] Instance double_to_json : ToJson double := JNum.

#[global] Instance string_from_json : FromJson string :=
  λ node, match node with JStr s => Ok s | _ => Err TypeMismatchError end.
#[global] Instance string_to_json : ToJson string := JStr.

(** A [std::vector]: an array, converted element by element. *)
Definition vector_from_json {A} (element : json → result A) (node : json)
  : result (list A) :=
  match node with
  | JArr elements => forEach element elements
  | _ => Err TypeMismatchError
  end.

#[global] Instance strings_from_json : FromJson (list string) :=
  vector_from_json from_json.
#[global] Instance strings_to_json : ToJson (list string) :=
  λ v, JArr (to_json <$> v).

(** Modelled from the spec: the conversion of a column vector
    [Eigen::Matrix< StateScalarType, Eigen::Dynamic, 1 >]
    ([valueConversions.h] is not among the sources). The vector is kept as
    the list of its coefficients: written as an array of numbers; read
    from an array of numbers of any length, or from a single number (as a
    body's mass is given) as the vector of that one coefficient. *)
Definition VectorX : Type := list double.

#[global] Instance VectorX_from_json : FromJson VectorX :=
  λ node, match node with
          | JNum d => Ok [d]
          | _ => vector_from_json (from_json (A:=double)) node
          end.
#[global] Instance VectorX_to_json : ToJson VectorX :=
  λ v, JArr (to_json (A:=double) <$> v).

(** ** Tags *)

Inductive IntegratedStateType :=
| hybrid
| translational_state
| rotational_state
| body_mass_state
| custom_state.

#[global] Instance IntegratedStateType_eq_dec : EqDecision IntegratedStateType.
Proof. solve_decision. Defined.

Inductive TranslationalPropagatorType :=
| cowell
| encke
| gauss_keplerian
| gauss_modified_equinoctial.

#[global] Instance TranslationalPropagatorType_eq_dec :
  EqDecision TranslationalPropagatorType.
Proof. solve_decision. Defined.

(** Map of [IntegratedStateType]s string representations. *)
Definition integratedStateTypes : list (IntegratedStateType * string) :=
  [ (hybrid, "hybrid");
    (translational_state, "translational");
    (rotational_state, "rotational");
    (body_mass_state, "mass");
    (custom_state, "custom") ].

(** [IntegratedStateType]s not supported by the JSON interface. *)
Definition unsupportedIntegratedStateTypes : list IntegratedStateType :=
  [ hybrid; custom_state ].

(** Map of [TranslationalPropagatorType]s string representations. *)
Definition translationalPropagatorTypes
  : list (TranslationalPropagatorType * string) :=
  [ (cowell, "cowell");
    (encke, "encke");
    (gauss_keplerian, "gaussKeplerian");
    (gauss_modified_equinoctial, "gaussModifiedEquinoctial") ].

Definition unsupportedTranslationalPropagatorTypes
  : list TranslationalPropagatorType := [].

(** Modelled from the spec: the enum codec ([stringFromEnum] and
    [enumFromString] are not among the sources). Decoding finds the tag
    whose text is the given one, and fails with [UnknownTagError] when no
    entry matches; encoding is defined for every tag in the mapping. *)
Definition enumFromString {E} (stringValue : string)
  (stringValues : list (E * string)) : result E :=
  match list_find (λ entry, entry.2 = stringValue) stringValues with
  | Some (_, entry) => Ok entry.1
  | None => Err UnknownTagError
  end.

Definition stringFromEnum {E} `{!EqDecision E} (enumValue : E)
  (stringValues : list (E * string)) : result string :=
  match list_find (λ entry, entry.1 = enumValue) stringValues with
  | Some (_, entry) => Ok entry.2
  | None => Err UnknownTagError
  end.

Definition enum_from_json {E} (stringValues : list (E * string)) (node : json)
  : result E :=
  stringValue ← from_json (A:=string) node; enumFromString stringValue stringValues.

Definition enum_to_json {E} `{!EqDecision E} (stringValues : list (E * string))
  (enumValue : E) : result json :=
  JStr <$> stringFromEnum enumValue stringValues.

#[global] Instance IntegratedStateType_from_json : FromJson IntegratedStateType :=
  enum_from_json integratedStateTypes.
#[global] Instance TranslationalPropagatorType_from_json :
  FromJson TranslationalPropagatorType :=
  enum_from_json translationalPropagatorTypes.

(** Modelled from the spec: [handleUnimplementedEnumValue] is not among the
    sources; a tag that no case of a conversion handles fails it with
    [UnsupportedVariantError], be it listed as unsupported or not. *)
Definition handleUnimplementedEnumValue {E A} (enumValue : E)
  (stringValues : list (E * string)) (unsupportedValues : list E) : result A :=
  Err UnsupportedVariantError.

(** [jsonObject[ key ] = value]: a null node becomes an object with that
    one member, an object gets the member added or replaced, and any other
    node refuses a key. *)
Definition assign (key : string) (value : json) (jsonObject : json) : result json :=
  match jsonObject with
  | JNull => Ok (JObj {[ key := value ]})
  | JObj members => Ok (JObj (<[ key := value ]> members))
  | _ => Err TypeMismatchError
  end.

(** ** Single-arc propagator settings *)

Section propagator_settings.

(** The settings of the physical models are converted by code of their
    own; here they are read and written under their keys. *)
Context {SelectedAccelerationMap SelectedMassRateModelMap SelectedTorqueMap : Type}.
Context `{!FromJson SelectedAccelerationMap, !ToJson SelectedAccelerationMap}.
Context `{!FromJson SelectedMassRateModelMap, !ToJson SelectedMassRateModelMap}.
Context `{!FromJson SelectedTorqueMap, !ToJson SelectedTorqueMap}.

(** The classes derived from [SingleArcPropagatorSettings], each with the
    arguments of its constructor. The last two stand for the settings
    whose state type is [hybrid] or [custom_state]. *)
Inductive SingleArcPropagatorSettings :=
| TranslationalStatePropagatorSettings
    (centralBodies_ : list string)
    (accelerationSettingsMap_ : SelectedAccelerationMap)
    (bodiesToIntegrate_ : list string)
    (initialBodyStates : VectorX)
    (terminationSettings : PropagationTerminationSettings)
    (propagator_ : TranslationalPropagatorType)
| MassPropagatorSettings
    (bodiesWithMassToPropagate_ : list string)
    (massRateSettingsMap_ : SelectedMassRateModelMap)
    (initialBodyMasses : VectorX)
    (terminationSettings : PropagationTerminationSettings)
| RotationalStatePropagatorSettings
    (torqueSettingsMap_ : SelectedTorqueMap)
    (bodiesToIntegrate_ : list string)
    (initialBodyStates : VectorX)
    (terminationSettings : PropagationTerminationSettings)
| HybridPropagatorSettings
    (initialBodyStates : VectorX)
    (terminationSettings : PropagationTerminationSettings)
| CustomStatePropagatorSettings
    (initialBodyStates : VectorX)
    (terminationSettings : PropagationTerminationSettings).

Definition getStateType (settings : SingleArcPropagatorSettings)
  : IntegratedStateType :=
  match settings with
  | TranslationalStatePropagatorSettings _ _ _ _ _ _ => translational_state
  | MassPropagatorSettings _ _ _ _ => body_mass_state
  | RotationalStatePropagatorSettings _ _ _ _ => rotational_state
  | HybridPropagatorSettings _ _ => hybrid
  | CustomStatePropagatorSettings _ _ => custom_state
  end.

Definition getInitialStates (settings : SingleArcPropagatorSettings) : VectorX :=
  match settings with
  | TranslationalStatePropagatorSettings _ _ _ initialStates _ _
  | MassPropagatorSettings _ _ initialStates _
  | RotationalStatePropagatorSettings _ _ initialStates _
  | HybridPropagatorSettings initialStates _
  | CustomStatePropagatorSettings initialStates _ => initialStates
  end.

Definition getTerminationSettings (settings : SingleArcPropagatorSettings)
  : PropagationTerminationSettings :=
  match settings with
  | TranslationalStatePropagatorSettings _ _ _ _ terminationSettings _
  | MassPropagatorSettings _ _ _ terminationSettings
  | RotationalStatePropagatorSettings _ _ _ terminationSettings
  | HybridPropagatorSettings _ terminationSettings
  | CustomStatePropagatorSettings _ terminationSettings => terminationSettings
  end.

(** The bodies of the settings of the three supported classes. *)
Definition getBodies (settings : SingleArcPropagatorSettings) : list string :=
  match settings with
  | TranslationalStatePropagatorSettings _ _ bodies _ _ _
  | MassPropagatorSettings bodies _ _ _
  | RotationalStatePropagatorSettings _ bodies _ _ => bodies
  | _ => []
  end.

(** Modelled from the spec: the propagator of translational settings built
    without one ([defaults.propagator_]; the constructor is not among the
    sources), a fixed baseline algorithm. *)
Definition defaultPropagator : TranslationalPropagatorType := cowell.

(** Create a [json] object from [SingleArcPropagatorSettings] (the pointer
    is not null; [jsonObject] starts as a null node). The [match] is the
    [switch] on the state type together with the cast to the class of that
    state type. *)
Definition SingleArc_to_json (singleArcPropagatorSettings : SingleArcPropagatorSettings)
  : result json :=
  let integratedStateType := getStateType singleArcPropagatorSettings in
  tag ← enum_to_json integratedStateTypes integratedStateType;
  jsonObject ← assign K.integratedStateType tag JNull;
  jsonObject ←
    (if bool_decide (0 < length (getInitialStates singleArcPropagatorSettings))
     then assign K.initialStates
            (to_json (getInitialStates singleArcPropagatorSettings)) jsonObject
     else Ok jsonObject);
  match singleArcPropagatorSettings with
  | TranslationalStatePropagatorSettings centralBodies accelerations bodies _ _
      propagator =>
      type ← enum_to_json translationalPropagatorTypes propagator;
      jsonObject ← assign K.type type jsonObject;
      jsonObject ← assign K.centralBodies (to_json centralBodies) jsonObject;
      jsonObject ← assign K.bodiesToPropagate (to_json bodies) jsonObject;
      assign K.accelerations (to_json accelerations) jsonObject
  | MassPropagatorSettings bodies massRateModels _ _ =>
      jsonObject ← assign K.bodiesToPropagate (to_json bodies) jsonObject;
      assign K.massRateModels (to_json massRateModels) jsonObject
  | RotationalStatePropagatorSettings torques bodies _ _ =>
      jsonObject ← assign K.bodiesToPropagate (to_json bodies) jsonObject;
      assign K.torques (to_json torques) jsonObject
  | HybridPropagatorSettings _ _ => Terminate (* std::cerr << ...; throw; *)
  | CustomStatePropagatorSettings _ _ =>
      handleUnimplementedEnumValue integratedStateType integratedStateTypes
        unsupportedIntegratedStateTypes
  end.

(** Create [SingleArcPropagatorSettings] from a [json] object. The
    arguments of a constructor are read from left to right, as they are
    written; the language leaves their order open, which decides nothing
    but which failure is reported when more than one of them cannot be
    read. *)
Definition SingleArc_from_json (jsonObject : json)
  : result SingleArcPropagatorSettings :=
  integratedStateType ←
    getValueOr jsonObject [K.integratedStateType] translational_state;
  bodiesToPropagate ← getValue (A:=list string) jsonObject [K.bodiesToPropagate];
  initialStates ← getValue (A:=VectorX) jsonObject [K.initialStates];
  (* No termination settings ( epoch > TUDAT_NAN will always be false ) *)
  let terminationSettings := PropagationTimeTerminationSettings TUDAT_NAN in
  match integratedStateType with
  | translational_state =>
      centralBodies ← getValue (A:=list string) jsonObject [K.centralBodies];
      accelerations ← getValue jsonObject [K.accelerations];
      propagator ← getValueOr jsonObject [K.type] defaultPropagator;
      Ok (TranslationalStatePropagatorSettings centralBodies accelerations
            bodiesToPropagate initialStates terminationSettings propagator)
  | body_mass_state =>
      massRateModels ← getValue jsonObject [K.massRateModels];
      Ok (MassPropagatorSettings bodiesToPropagate massRateModels initialStates
            terminationSettings)
  | rotational_state =>
      torques ← getValue jsonObject [K.torques];
      Ok (RotationalStatePropagatorSettings torques bodiesToPropagate
            initialStates terminationSettings)
  | hybrid => Terminate (* std::cerr << ...; throw; *)
  | custom_state =>
      handleUnimplementedEnumValue integratedStateType integratedStateTypes
        unsupportedIntegratedStateTypes
  end.

End propagator_settings.

Arguments SingleArcPropagatorSettings : clear implicits.

(** ** Initial states *)

(** Get the associated key (defined in a body JSON object) for an
    integrated state. *)
Definition getAssociatedKey (integratedStateType : IntegratedStateType)
  : result string :=
  match integratedStateType with
  | translational_state => Ok Keys.Body.initialState
  | body_mass_state => Ok Keys.Body.mass
  | rotational_state => Ok Keys.Body.rotationalState
  | _ => Terminate (* std::cerr << ...; throw; *)
  end.

(** [jsonObject.at( key )]. *)
Definition at_key (jsonObject : json) (key : string) : result json :=
  match jsonObject with
  | JObj members =>
      match members !! key with
      | Some node => Ok node
      | None => Err OutOfRangeError
      end
  | _ => Err TypeMismatchError
  end.

(** [vector.at( i )] and [map.at( key )]. *)
Definition at_index {A} (v : list A) (i : nat) : result A :=
  match v !! i with
  | Some x => Ok x
  | None => Err OutOfRangeError
  end.

Definition at_name {A} (m : gmap string A) (name : string) : result A :=
  match m !! name with
  | Some x => Ok x
  | None => Err OutOfRangeError
  end.

(** [jsonObject.size( )]: the number of elements of an array or of members
    of an object, none for a null node, one for any other node. *)
Definition json_size (node : json) : nat :=
  match node with
  | JNull => 0
  | JArr elements => length elements
  | JObj members => size members
  | _ => 1
  end.

(** [jsonObject.front( )]: the first element of an array, the first member
    of an object, the node itself when it is a boolean, a number or a
    string. *)
Definition front (node : json) : option json :=
  match node with
  | JNull => None
  | JArr elements => head elements
  | JObj members => snd <$> head (map_to_list members)
  | _ => Some node
  end.

(** The assignment through the reference that [front( )] returns. *)
Definition setFront (node : json) (value : json) : json :=
  match node with
  | JNull => node
  | JArr [] => node
  | JArr (_ :: rest) => JArr (value :: rest)
  | JObj members =>
      match head (map_to_list members) with
      | Some (key, _) => JObj (<[ key := value ]> members)
      | None => node
      end
  | _ => value
  end.

(** A range-based [for] over the members of an object, by reference. The
    members are visited in the order of [map_to_list]; the order decides
    nothing but which failure is reported when the body fails on more than
    one member. *)
Definition forEachMember (body : json → result json) (members : gmap string json)
  : result (gmap string json) :=
  list_to_map <$>
    forEach (λ member, value ← body member.2; Ok (member.1, value))
      (map_to_list members).

(** A range-based [for] over a node, by reference: over the elements of an
    array, the members of an object, nothing for a null node, and the node
    itself when it is a boolean, a number or a string. *)
Definition forEachElement (body : json → result json) (node : json) : result json :=
  match node with
  | JNull => Ok JNull
  | JArr elements => JArr <$> forEach body elements
  | JObj members => JObj <$> forEachMember body members
  | _ => body node
  end.

(** [vector.segment( start, size ) = value]: the sizes have to agree and
    the segment has to lie inside the vector. Eigen, which is not among
    the sources, takes this for granted and throws nothing; what it does
    otherwise is recorded as the [TypeMismatchError] of the spec. *)
Definition setSegment (vector : VectorX) (start size : nat) (value : VectorX)
  : result VectorX :=
  if bool_decide (length value = size ∧ start + size ≤ length vector)
  then Ok (take start vector ++ value ++ drop (start + size) vector)
  else Err TypeMismatchError.

Section initial_states.

(** The bodies and what is asked of them. None of the three functions is
    among the sources: [getSingleIntegrationSize] is the per-body block
    size of a state type; [getInitialStatesOfBodies] is the combined
    ephemeris query for all the bodies to propagate with respect to their
    central bodies; [getCartesianState] reads the state of one body from
    its configuration and makes it relative to a central body. *)
Context {Body : Type}.
Variable getSingleIntegrationSize : IntegratedStateType → result nat.
Variable getInitialStatesOfBodies :
  list string → list string → gmap string Body → double → result VectorX.
Variable getCartesianState :
  json → list string → Body → double → result VectorX.

Variable jsonObject : json.
Variable bodyMap : gmap string Body.
Variable initialTime_ : double.

(** The body of the [try] block: the initial states of the only propagator
    from the ephemeris of the bodies. *)
Definition statesFromEphemeris (jsonPropagator : json) : result json :=
  bodiesToPropagate ← getValue (A:=list string) jsonPropagator [K.bodiesToPropagate];
  centralBodies ← getValue (A:=list string) jsonPropagator [K.centralBodies];
  initialStates ←
    getInitialStatesOfBodies bodiesToPropagate centralBodies bodyMap initialTime_;
  assign K.initialStates (to_json initialStates) jsonPropagator.

(** The first part of [determineInitialStates]: the propagators after it
    and the flag [usedEphemeris]. *)
Definition fromEphemeris (jsonPropagators : json) : result (json * bool) :=
  if bool_decide (json_size jsonPropagators = 1) then
    match front jsonPropagators with
    | Some jsonPropagator =>
        if isDefined jsonPropagator [K.initialStates]
        then Ok (jsonPropagators, false)
        else
          integratedStateType ←
            getValueOr jsonPropagator [K.integratedStateType] translational_state;
          if bool_decide (integratedStateType = translational_state) then
            match statesFromEphemeris jsonPropagator with
            | Ok updated => Ok (setFront jsonPropagators updated, true)
            | Err _ => Ok (jsonPropagators, false) (* catch ( ... ) { } *)
            | Terminate => Terminate
            end
          else Ok (jsonPropagators, false)
    | None => Ok (jsonPropagators, false)
    end
  else Ok (jsonPropagators, false).

(** Get state for each body: the loop over [i], at the bodies from the
    [i]-th on. *)
Fixpoint statesOfBodies (jsonPropagator : json)
  (integratedStateType : IntegratedStateType) (stateSize : nat) (stateKey : string)
  (bodies : list string) (i : nat) (initialStates : VectorX) : result VectorX :=
  match bodies with
  | [] => Ok initialStates
  | body :: rest =>
      let stateKeyPath := [Keys.bodies; body; stateKey] in
      bodyState ←
        (if bool_decide (integratedStateType = translational_state) then
           centralBodies ←
             getValue (A:=list string) jsonPropagator [K.centralBodies];
           centralBodyName ← at_index centralBodies i;
           centralBody ← at_name bodyMap centralBodyName;
           getCartesianState jsonObject stateKeyPath centralBody initialTime_
         else getValue (A:=VectorX) jsonObject stateKeyPath);
      initialStates ← setSegment initialStates (i * stateSize) stateSize bodyState;
      statesOfBodies jsonPropagator integratedStateType stateSize stateKey
        rest (S i) initialStates
  end.

(** The body of the loop over the propagators: the initial states of one
    propagator from the states stored at the JSON bodies settings. *)
Definition statesFromBodies (jsonPropagator : json) : result json :=
  if isDefined jsonPropagator [K.initialStates] then Ok jsonPropagator
  else
    integratedStateType ←
      getValueOr jsonPropagator [K.integratedStateType] translational_state;
    stateSize ← getSingleIntegrationSize integratedStateType;
    stateKey ← getAssociatedKey integratedStateType;
    bodiesToPropagate ←
      getValue (A:=list string) jsonPropagator [K.bodiesToPropagate];
    let initialStates := replicate (stateSize * length bodiesToPropagate) zero in
    initialStates ←
      statesOfBodies jsonPropagator integratedStateType stateSize stateKey
        bodiesToPropagate 0 initialStates;
    assign K.initialStates (to_json initialStates) jsonPropagator.

(** Determine initial states for the propagators contained in [jsonObject]
    (if not provided). The result is [jsonObject] as it is left. *)
Definition determineInitialStates : result json :=
  jsonPropagators ← at_key jsonObject Keys.propagators;
  '(jsonPropagators, usedEphemeris) ← fromEphemeris jsonPropagators;
  jsonPropagators ←
    (if negb usedEphemeris
     then forEachElement statesFromBodies jsonPropagators
     else Ok jsonPropagators);
  assign Keys.propagators jsonPropagators jsonObject.

End initial_states.

(** ** Dependent variables to save *)

(** The settings of a variable to export: the settings of a dependent
    variable, or the settings of a variable of another kind. *)
Inductive VariableSettings :=
| DependentVariable (dependentVariable : SingleDependentVariableSaveSettings)
| OtherVariable (label : string).

Record ExportSettings := {
  variables_ : list VariableSettings;
}.

Record DependentVariableSaveSettings := {
  dependentVariables_ : list SingleDependentVariableSaveSettings;
  printDependentVariableTypes_ : bool;
}.

Section dependent_variables.

(** The identifier of a dependent variable ([getVariableId] is not among
    the sources). *)
Variable getVariableId : SingleDependentVariableSaveSettings → string.

(** The body of the inner loop: [addedVariablesIDs] and
    [dependentVariables] after one variable. *)
Definition addVariable
  (added : list string * list SingleDependentVariableSaveSettings)
  (variable : VariableSettings)
  : list string * list SingleDependentVariableSaveSettings :=
  let '(addedVariablesIDs, dependentVariables) := added in
  match variable with
  | DependentVariable dependentVariable =>
      let variableID := getVariableId dependentVariable in
      if bool_decide (variableID ∈ addedVariablesIDs) then added
      else (addedVariablesIDs ++ [variableID],
            dependentVariables ++ [dependentVariable])
  | OtherVariable _ => added
  end.

(** Determine save settings from variables to be exported. *)
Definition dependentVariablesToSave (exportSettingsVector : list ExportSettings)
  : list SingleDependentVariableSaveSettings :=
  (foldl (λ added exportSettings, foldl addVariable added (variables_ exportSettings))
     ([], []) exportSettingsVector).2.

End dependent_variables.

(** ** Multi-type propagator settings *)

(** A pointer to [PropagationHybridTerminationSettings], and the same
    pointer as one to [PropagationTerminationSettings]. *)
Record HybridTerminationSettings := {
  terminationSettings_ : list PropagationTerminationSettings;
  fulfillSingleCondition_ : bool;
}.

Definition asTerminationSettings (hybridSettings : HybridTerminationSettings)
  : PropagationTerminationSettings :=
  PropagationHybridTerminationSettings (terminationSettings_ hybridSettings)
    (fulfillSingleCondition_ hybridSettings).

(** The loop over the user conditions that looks for a time condition and
    breaks at the first one. *)
Fixpoint timeConditionMissingIn (conditions : list PropagationTerminationSettings)
  : bool :=
  match conditions with
  | [] => true
  | PropagationTimeTerminationSettings _ :: _ => false
  | _ :: rest => timeConditionMissingIn rest
  end.

(** The termination settings of [from_json] for multi-type settings, from
    the user conditions read under [Keys.termination] (if defined) and the
    node under [Keys.finalEpoch] (if defined). *)
Definition composeTermination (userConditions : option HybridTerminationSettings)
  (finalEpoch : option json) : result PropagationTerminationSettings :=
  let terminationConditions : list PropagationTerminationSettings := [] in
  (* Find user-defined conditions (and determine if time condition is missing) *)
  let '(terminationConditions, timeConditionMissing) :=
    match userConditions with
    | Some userConditions =>
        (terminationConditions ++ [asTerminationSettings userConditions],
         timeConditionMissingIn (terminationSettings_ userConditions))
    | None => (terminationConditions, true)
    end in
  (* If user did not provide conditions, or if finalEpoch is defined but the
     time condition is missing, create it *)
  terminationConditions ←
    (if negb (bool_decide (is_Some userConditions))
        || (bool_decide (is_Some finalEpoch) && timeConditionMissing)
     then
       epoch ← convert (A:=double) [Keys.finalEpoch] finalEpoch;
       Ok (terminationConditions ++ [PropagationTimeTerminationSettings epoch])
     else Ok terminationConditions);
  match terminationConditions with
  | [condition] => Ok condition
  | _ => Ok (PropagationHybridTerminationSettings terminationConditions true)
  end.

(** The same composition in the words of the spec, for a user condition
    and a final epoch that are given or not. *)
Definition hasTimeChild (userCondition : option HybridTerminationSettings) : bool :=
  match userCondition with
  | Some hybridSettings =>
      existsb (λ child, match child with
                        | PropagationTimeTerminationSettings _ => true
                        | _ => false
                        end) (terminationSettings_ hybridSettings)
  | None => false
  end.

Section multi_type_settings.

Context {SelectedAccelerationMap SelectedMassRateModelMap SelectedTorqueMap : Type}.
Context `{!FromJson SelectedAccelerationMap, !FromJson SelectedMassRateModelMap,
          !FromJson SelectedTorqueMap}.
(** The conversion of the user conditions ([termination.h] is not among
    the sources). *)
Context `{!FromJson HybridTerminationSettings}.

Abbreviation SingleArc :=
  (SingleArcPropagatorSettings SelectedAccelerationMap SelectedMassRateModelMap
     SelectedTorqueMap).

#[global] Instance SingleArcs_from_json : FromJson (list SingleArc) :=
  vector_from_json SingleArc_from_json.

(** The arguments of the constructor of [MultiTypePropagatorSettings]. *)
Record MultiTypePropagatorSettings := {
  propagatorSettingsVector : list SingleArc;
  multiTerminationSettings : PropagationTerminationSettings;
  dependentVariablesToSave_ : option DependentVariableSaveSettings;
  printInterval_ : double;
}.

(** Create [MultiTypePropagatorSettings] from a [json] object. The
    propagators and the print interval are arguments of one call and are
    read here in the order in which they are written; the language leaves
    their order open, which decides nothing but which failure is reported
    when neither of the two can be read. *)
Definition MultiType_from_json (jsonObject : json)
  : result MultiTypePropagatorSettings :=
  userConditions ←
    (if isDefined jsonObject [Keys.termination]
     then Some <$> getValue (A:=HybridTerminationSettings) jsonObject [Keys.termination]
     else Ok None);
  terminationSettings ←
    composeTermination userConditions (getNode jsonObject [Keys.finalEpoch]);
  propagators ← getValue (A:=list SingleArc) jsonObject [Keys.propagators];
  printInterval ←
    getValueOr jsonObject [Keys.options; Keys.Options.printInterval] TUDAT_NAN;
  Ok {| propagatorSettingsVector := propagators;
        multiTerminationSettings := terminationSettings;
        dependentVariablesToSave_ := None;
        printInterval_ := printInterval |}.

(** Update dependent variable save settings of propagator from export
    settings object. *)
Definition resetDependentVariableSaveSettings
  (getVariableId : SingleDependentVariableSaveSettings → string)
  (propagatorSettings : MultiTypePropagatorSettings)
  (exportSettingsVector : list ExportSettings) : MultiTypePropagatorSettings :=
  {| propagatorSettingsVector := propagatorSettingsVector propagatorSettings;
     multiTerminationSettings := multiTerminationSettings propagatorSettings;
     dependentVariablesToSave_ :=
       Some {| dependentVariables_ :=
                 dependentVariablesToSave getVariableId exportSettingsVector;
               printDependentVariableTypes_ := false |};
     printInterval_ := printInterval_ propagatorSettings |}.

End multi_type_settings.

(** [jsonObject[ key1 ][ key2 ] = value]: the member [key1] is made if it is
    not there, as a null node, and is then assigned to under [key2]. *)
Definition assignIn (key1 key2 : string) (value : json) (jsonObject : json)
  : result json :=
  match jsonObject with
  | JNull =>
      inner ← assign key2 value JNull; Ok (JObj {[ key1 := inner ]})
  | JObj members =>
      inner ← assign key2 value (default JNull (members !! key1));
      Ok (JObj (<[ key1 := inner ]> members))
  | _ => Err TypeMismatchError
  end.

(** Modelled from the spec: [getFlattenedMapValues] is not among the
    sources; it is the flattened list of the values of a map, which is kept
    here as the list of its entries in the order of the keys. *)
Definition getFlattenedMapValues {Key Value} (map : list (Key * list Value))
  : list Value :=
  map ≫= snd.

Section multi_type_encode.

Context {SelectedAccelerationMap SelectedMassRateModelMap SelectedTorqueMap : Type}.
Context `{!ToJson SelectedAccelerationMap, !ToJson SelectedMassRateModelMap,
          !ToJson SelectedTorqueMap}.
(** The conversion of termination settings ([termination.h] is not among
    the sources). *)
Context `{!ToJson PropagationTerminationSettings}.

(** Create a [json] object from [MultiTypePropagatorSettings] (the pointer
    is not null; [jsonObject] starts as a null node), given what the
    conversion reads of the settings: [propagatorSettingsMap_],
    [getTerminationSettings( )] and [getPrintInterval( )]. *)
Definition MultiType_to_json
  (propagatorSettingsMap_ :
     list (IntegratedStateType
           * list (SingleArcPropagatorSettings SelectedAccelerationMap
                     SelectedMassRateModelMap SelectedTorqueMap)))
  (terminationSettings : PropagationTerminationSettings)
  (printInterval : double) : result json :=
  propagators ←
    forEach SingleArc_to_json (getFlattenedMapValues propagatorSettingsMap_);
  jsonObject ← assign Keys.propagators (JArr propagators) JNull;
  jsonObject ← assign Keys.termination (to_json terminationSettings) jsonObject;
  if negb (isNaN printInterval)
  then assignIn Keys.options Keys.Options.printInterval (to_json printInterval)
         jsonObject
  else Ok jsonObject.

End multi_type_encode.

(** * Properties *)

(** ** The termination epoch *)

Abbreviation Time := PropagationTimeTerminationSettings.
Abbreviation Hybrid := PropagationHybridTerminationSettings.
Abbreviation Dependent := PropagationDependentVariableTerminationSettings.

Section termination_epoch.

(** Induction over a tree of termination settings, with the hypothesis
    for every child of a hybrid condition. *)
Lemma termination_settings_ind (P : PropagationTerminationSettings → Prop) :
  (∀ e, P (Time e)) →
  (∀ v l b, P (Dependent v l b)) →
  (∀ children any, Forall P children → P (Hybrid children any)) →
  ∀ t, P t.
Proof.
  intros Htime Hdep Hhyb.
  fix IH 1. intros [e|v l b|children any].
  - apply Htime.
  - apply Hdep.
  - apply Hhyb. induction children as [|c cs IHcs]; constructor.
    + apply IH.
    + exact IHcs.
Qed.

Lemma getTerminationEpoch_hybrid children any :
  getTerminationEpoch (Hybrid children any) = firstEpoch children.
Proof. simpl. induction children as [|c cs IHcs]; simpl; [done|]. by rewrite IHcs. Qed.

Lemma timeEpochs_hybrid children any :
  timeEpochs (Hybrid children any) = concat (map timeEpochs children).
Proof. simpl. induction children as [|c cs IHcs]; simpl; [done|]. by rewrite IHcs. Qed.

Lemma firstWhere_app test l1 l2 :
  firstWhere test (l1 ++ l2) =
  if decide (filter (λ e, test e = true) l1 = []) then firstWhere test l2
  else firstWhere test l1.
Proof.
  unfold firstWhere. rewrite filter_app.
  destruct (filter _ l1) as [|x xs]; case_decide; done.
Qed.

Lemma firstWhere_notNaN_nil l :
  filter (λ e, notNaN e = true) l = [] → isNaN (firstWhere notNaN l) = true.
Proof. unfold firstWhere. intros Hf. by rewrite Hf. Qed.

Lemma firstWhere_notNaN_cons l x xs :
  filter (λ e, notNaN e = true) l = x :: xs → isNaN (firstWhere notNaN l) = false.
Proof.
  unfold firstWhere. intros Hf. rewrite Hf. simpl.
  assert (x ∈ filter (λ e, notNaN e = true) l) as Hx by (rewrite Hf; left).
  apply list_elem_of_filter in Hx as [Hx _]. unfold notNaN in Hx.
  by destruct (isNaN x).
Qed.

(** The epoch found is the first one that is not a NaN among the time
    conditions of the tree, in depth-first order. *)
Lemma getTerminationEpoch_first t :
  getTerminationEpoch t = firstWhere notNaN (timeEpochs t).
Proof.
  induction t as [e|v l b|children any IH] using termination_settings_ind.
  - unfold firstWhere. simpl. rewrite filter_cons.
    case_decide as He; simpl; [done|].
    unfold notNaN in He. by destruct e.
  - done.
  - rewrite getTerminationEpoch_hybrid, timeEpochs_hybrid.
    induction IH as [|c cs Hc _ IHcs]; [done|].
    simpl. rewrite firstWhere_app, Hc, IHcs.
    case_decide as Hnil.
    + by rewrite (firstWhere_notNaN_nil _ Hnil).
    + destruct (filter _ (timeEpochs c)) as [|x xs] eqn:Hf; [done|].
      by rewrite (firstWhere_notNaN_cons _ _ _ Hf).
Qed.

End termination_epoch.

(** The first epoch that is finite, as [std::isfinite] has it, is not what
    [getTerminationEpoch] looks for: an infinite epoch is not a NaN. *)
Definition firstFinite (t : PropagationTerminationSettings) : double :=
  firstWhere isFinite (timeEpochs t).

(** C3, as stated, fails: for the hybrid condition with the children
    [fixed(+infinity), fixed(5)] the epoch returned is the infinite one,
    and the first finite epoch of the tree is 5. *)
Lemma getTerminationEpoch_returns_infinite_epoch :
  let t := Hybrid [Time infinity; Time (double_of_pos 5)] true in
  getTerminationEpoch t = infinity
  ∧ isFinite (getTerminationEpoch t) = false
  ∧ firstFinite t = double_of_pos 5
  ∧ getTerminationEpoch t ≠ firstFinite t.
Proof. repeat split; done. Qed.

(** C3, amended: [getTerminationEpoch] returns the epoch of a time
    condition as it is; for a hybrid condition it goes through the children
    in list order, to any depth, and returns the first epoch found that is
    not a NaN (also an infinite one); for the children [fixed(5), fixed(3)]
    that is 5, the first and not the least; and when the tree has no time
    condition, or none whose epoch is not a NaN, it returns [TUDAT_NAN].
    It is a total function: there is no input on which it fails. *)
Theorem getTerminationEpoch_first_epoch_not_NaN (t : PropagationTerminationSettings) :
  (∀ e, getTerminationEpoch (Time e) = e)
  ∧ (∀ children any,
       getTerminationEpoch (Hybrid children any) = firstEpoch children)
  ∧ getTerminationEpoch t = firstWhere notNaN (timeEpochs t)
  ∧ getTerminationEpoch
      (Hybrid [Time (double_of_pos 5); Time (double_of_pos 3)] true)
    = double_of_pos 5
  ∧ (timeEpochs t = [] → getTerminationEpoch t = TUDAT_NAN)
  ∧ (Forall (λ e, isNaN e = true) (timeEpochs t) →
     getTerminationEpoch t = TUDAT_NAN).
Proof.
  split; [done|]. split; [apply getTerminationEpoch_hybrid|].
  split; [apply getTerminationEpoch_first|]. split; [done|].
  rewrite getTerminationEpoch_first. split.
  - by intros ->.
  - intros Hall. unfold firstWhere.
    replace (filter (λ e, notNaN e = true) (timeEpochs t)) with (@nil double);
      [done|].
    symmetry. induction Hall as [|e es He _ IH]; [done|].
    rewrite filter_cons. case_decide as Hd; [|exact IH].
    unfold notNaN in Hd. by rewrite He in Hd.
Qed.

Lemma getTerminationEpoch_first_epoch_not_NaN_witness :
  let t := Hybrid [Dependent {| variableType_ := "altitude";
                                associatedBody_ := "Earth";
                                secondaryBody_ := "Moon" |} zero false;
                   Hybrid [Time TUDAT_NAN] false] true in
  Forall (λ e, isNaN e = true) (timeEpochs t) ∧ getTerminationEpoch t = TUDAT_NAN.
Proof.
  intros t.
  assert (Forall (λ e, isNaN e = true) (timeEpochs t)) as Hall.
  { repeat constructor. }
  split; [exact Hall|].
  exact (proj2 (proj2 (proj2 (proj2 (proj2
           (getTerminationEpoch_first_epoch_not_NaN t))))) Hall).
Defined.

(** ** Results, nodes and conversions *)

Lemma bind_Ok {A B} (m : result A) (f : A → result B) (b : B) :
  m ≫= f = Ok b ↔ ∃ a, m = Ok a ∧ f a = Ok b.
Proof.
  destruct m as [a|e|]; simpl; split.
  - intros Hf. by exists a.
  - by intros (a' & [= ->] & Hf).
  - done.
  - by intros (a' & [=] & _).
  - done.
  - by intros (a' & [=] & _).
Qed.

Lemma fmap_Ok {A B} (m : result A) (f : A → B) (b : B) :
  f <$> m = Ok b ↔ ∃ a, m = Ok a ∧ f a = b.
Proof.
  destruct m as [a|e|]; simpl; split.
  - intros [= <-]. by exists a.
  - by intros (a' & [= ->] & ->).
  - done.
  - by intros (a' & [=] & _).
  - done.
  - by intros (a' & [=] & _).
Qed.

(** Take a successful sequence of steps apart. *)
Ltac inv_result H :=
  repeat match type of H with
  | _ ≫= _ = Ok _ =>
      let a := fresh "a" in let Ha := fresh "Ha" in
      apply bind_Ok in H as (a & Ha & H)
  | Err _ = Ok _ => discriminate H
  | Terminate = Ok _ => discriminate H
  | Ok _ = Ok _ => injection H as H
  end.

Lemma getNode_member members key :
  getNode (JObj members) [key] = members !! key.
Proof. simpl. by destruct (members !! key). Qed.

Lemma isDefined_member members key :
  isDefined (JObj members) [key] = bool_decide (is_Some (members !! key)).
Proof. unfold isDefined. by rewrite getNode_member. Qed.

Lemma isDefined_false jsonObject keyPath :
  isDefined jsonObject keyPath = false ↔ getNode jsonObject keyPath = None.
Proof.
  unfold isDefined. rewrite bool_decide_eq_false, eq_None_not_Some. done.
Qed.

Lemma Ok_bind {A B} (a : A) (f : A → result B) : Ok a ≫= f = f a.
Proof. done. Qed.

(** The conversions of texts, of lists of texts and of tags return or
    throw: none of them ends the process. *)
Lemma forEach_not_Terminate {A B} (body : A → result B) (l : list A) :
  (∀ x, body x ≠ Terminate) → forEach body l ≠ Terminate.
Proof.
  intros Hbody. induction l as [|x rest IH]; [done|]. simpl.
  specialize (Hbody x). destruct (body x); [|done..]. simpl.
  by destruct (forEach body rest).
Qed.

Lemma strings_from_json_not_Terminate (node : json) :
  from_json (A:=list string) node ≠ Terminate.
Proof.
  destruct node as [| | | |elements|]; try done.
  apply forEach_not_Terminate. by intros [].
Qed.

Lemma getValue_strings_not_Terminate (jsonObject : json) (keyPath : list string) :
  getValue (A:=list string) jsonObject keyPath ≠ Terminate.
Proof.
  unfold getValue, convert. destruct (getNode jsonObject keyPath); [|done].
  apply strings_from_json_not_Terminate.
Qed.

Lemma getValueOr_tag_not_Terminate (jsonObject : json) (keyPath : list string)
    (optionalValue : IntegratedStateType) :
  getValueOr jsonObject keyPath optionalValue ≠ Terminate.
Proof.
  unfold getValueOr. destruct (getNode jsonObject keyPath) as [node|]; [|done].
  destruct node as [| | |text| |]; try done.
  unfold from_json, IntegratedStateType_from_json, enum_from_json. simpl.
  unfold enumFromString.
  by destruct (list_find _ integratedStateTypes) as [[i entry]|].
Qed.

Lemma forEach_fmap {A B} (f : B → A) (body : A → result B) (l : list B) :
  (∀ x, body (f x) = Ok x) → forEach body (f <$> l) = Ok l.
Proof.
  intros Hfg. induction l as [|x l IH]; [done|].
  rewrite fmap_cons. cbn [forEach]. by rewrite Hfg, Ok_bind, IH.
Qed.

Lemma forEach_length {A B} (body : A → result B) l l' :
  forEach body l = Ok l' → length l' = length l.
Proof.
  revert l'. induction l as [|x l IH]; intros l' H; simpl in H.
  - by injection H as <-.
  - inv_result H. subst l'. simpl. f_equal. by apply IH.
Qed.

(** What is read back is what was written. *)
Class JsonRoundTrip (A : Type) `{!FromJson A, !ToJson A} : Prop :=
  from_to_json : ∀ a : A, from_json (to_json a) = Ok a.
#[global] Hint Mode JsonRoundTrip ! - - : typeclass_instances.

#[global] Instance strings_round_trip : JsonRoundTrip (list string).
Proof.
  intros v. unfold from_json, to_json, strings_from_json, strings_to_json. simpl.
  by apply (forEach_fmap JStr).
Qed.

#[global] Instance VectorX_round_trip : JsonRoundTrip VectorX.
Proof.
  intros v. unfold from_json, to_json, VectorX_from_json, VectorX_to_json. simpl.
  by apply (forEach_fmap JNum).
Qed.

Lemma integratedStateType_round_trip tag :
  enum_to_json integratedStateTypes tag ≫= from_json = Ok tag.
Proof. by destruct tag. Qed.

Lemma translationalPropagatorType_round_trip type :
  enum_to_json translationalPropagatorTypes type ≫= from_json = Ok type.
Proof. by destruct type. Qed.

(** A node read as it is. *)
#[global] Instance json_from_json : FromJson json := Ok.
#[global] Instance json_to_json : ToJson json := id.
#[global] Instance json_round_trip : JsonRoundTrip json.
Proof. by intros node. Qed.

(** ** The composition of the termination settings *)

Lemma timeConditionMissingIn_hasTimeChild (U : HybridTerminationSettings) :
  timeConditionMissingIn (terminationSettings_ U) = negb (hasTimeChild (Some U)).
Proof.
  simpl. induction (terminationSettings_ U) as [|[e|v l b|cs any] rest IH];
    simpl; done.
Qed.

(** C1: the four cases of [composeTermination]. Without user conditions
    and without a final epoch it fails with [MissingTerminationError];
    without user conditions and with the final epoch [E] it is the time
    condition of epoch [E]; with the user conditions [U] and no final epoch,
    or with a time condition among the children of [U] (not deeper), it is
    [U] as it is; with the user conditions [U], none of whose children is a
    time condition, and the final epoch [E], it is the hybrid condition of
    the children [U] and the time condition of epoch [E], in that order,
    fulfilled by any one of them. *)
Theorem composeTermination_four_cases (U : HybridTerminationSettings) (E : double) :
  composeTermination None None = Err MissingTerminationError
  ∧ composeTermination None (Some (JNum E)) = Ok (Time E)
  ∧ composeTermination (Some U) None = Ok (asTerminationSettings U)
  ∧ (hasTimeChild (Some U) = true →
     ∀ finalEpoch, composeTermination (Some U) finalEpoch
                   = Ok (asTerminationSettings U))
  ∧ (hasTimeChild (Some U) = false →
     composeTermination (Some U) (Some (JNum E))
     = Ok (Hybrid [asTerminationSettings U; Time E] true)).
Proof.
  unfold composeTermination. repeat split; try done.
  - intros Hchild finalEpoch.
    rewrite timeConditionMissingIn_hasTimeChild, Hchild. simpl.
    by rewrite andb_false_r.
  - intros Hchild. by rewrite timeConditionMissingIn_hasTimeChild, Hchild.
Qed.

Lemma composeTermination_four_cases_witness :
  let U := {| terminationSettings_ :=
                [Dependent {| variableType_ := "altitude";
                              associatedBody_ := "Earth";
                              secondaryBody_ := "Moon" |} zero true;
                 Hybrid [Time zero] false];
              fulfillSingleCondition_ := false |} in
  let E := double_of_pos 5 in
  hasTimeChild (Some U) = false
  ∧ composeTermination (Some U) (Some (JNum E))
    = Ok (Hybrid [asTerminationSettings U; Time E] true).
Proof.
  intros U E. split; [reflexivity|].
  apply (proj2 (proj2 (proj2 (proj2 (composeTermination_four_cases U E))))).
  reflexivity.
Defined.

(** The termination settings of decoded multi-type settings are the ones
    composed of the user conditions, when the configuration defines them,
    and of the node of the final epoch. *)
Lemma MultiType_from_json_termination
    {SelectedAccelerationMap SelectedMassRateModelMap SelectedTorqueMap : Type}
    `{!FromJson SelectedAccelerationMap, !FromJson SelectedMassRateModelMap,
      !FromJson SelectedTorqueMap, !FromJson HybridTerminationSettings}
    (jsonObject : json)
    (settings : MultiTypePropagatorSettings (SelectedAccelerationMap:=SelectedAccelerationMap)
                  (SelectedMassRateModelMap:=SelectedMassRateModelMap)
                  (SelectedTorqueMap:=SelectedTorqueMap)) :
  MultiType_from_json jsonObject = Ok settings →
  ∃ userConditions,
    (if isDefined jsonObject [Keys.termination]
     then ∃ U, getValue jsonObject [Keys.termination] = Ok U
               ∧ userConditions = Some U
     else userConditions = None)
    ∧ composeTermination userConditions (getNode jsonObject [Keys.finalEpoch])
      = Ok (multiTerminationSettings settings).
Proof.
  unfold MultiType_from_json. intros H.
  apply bind_Ok in H as (userConditions & Huser & H).
  apply bind_Ok in H as (terminationSettings & Hcomposed & H).
  apply bind_Ok in H as (propagators & _ & H).
  apply bind_Ok in H as (printInterval & _ & H).
  injection H as <-. exists userConditions. split; [|done].
  destruct (isDefined jsonObject [Keys.termination]).
  - apply fmap_Ok in Huser as (U & HU & <-). by exists U.
  - by injection Huser as <-.
Qed.

(** ** The dependent variables to save *)

(** The dependent variables among the variables of export settings, in
    the order in which they are requested. *)
Definition dependentsOf (variables : list VariableSettings)
  : list SingleDependentVariableSaveSettings :=
  omap (λ variable, match variable with
                    | DependentVariable dependentVariable => Some dependentVariable
                    | OtherVariable _ => None
                    end) variables.

Definition requestedVariables (exportSettingsVector : list ExportSettings)
  : list SingleDependentVariableSaveSettings :=
  dependentsOf (exportSettingsVector ≫= variables_).

Section dependent_variables_properties.

Variable getVariableId : SingleDependentVariableSaveSettings → string.

Abbreviation ids := (fmap (M:=list) getVariableId).

(** One step of the collection, on the dependent variables alone. *)
Definition addDependent (dependentVariables : list SingleDependentVariableSaveSettings)
  (d : SingleDependentVariableSaveSettings) :=
  if bool_decide (getVariableId d ∈ ids dependentVariables) then dependentVariables
  else dependentVariables ++ [d].

(** The duplicate-free list in the words of the spec: the variables in the
    order in which their identifiers are first seen. The first variable
    is kept; of the ones after it, those with its identifier are dropped
    and the others are treated likewise. *)
Fixpoint firstSeen (requested : list SingleDependentVariableSaveSettings)
  : list SingleDependentVariableSaveSettings :=
  match requested with
  | [] => []
  | d :: rest =>
      d :: filter (λ later, getVariableId later ≠ getVariableId d) (firstSeen rest)
  end.

Lemma foldl_addVariable variables dependentVariables :
  foldl (addVariable getVariableId) (ids dependentVariables, dependentVariables)
    variables
  = (ids (foldl addDependent dependentVariables (dependentsOf variables)),
     foldl addDependent dependentVariables (dependentsOf variables)).
Proof.
  revert dependentVariables.
  induction variables as [|[d|label] rest IH]; intros dvs; simpl; [done| |apply IH].
  unfold addDependent at 2 4. case_bool_decide; [apply IH|].
  rewrite <- IH. by rewrite fmap_app.
Qed.

Lemma foldl_exportSettings exportSettingsVector dependentVariables :
  foldl (λ added exportSettings,
           foldl (addVariable getVariableId) added (variables_ exportSettings))
    (ids dependentVariables, dependentVariables) exportSettingsVector
  = (ids (foldl addDependent dependentVariables
            (requestedVariables exportSettingsVector)),
     foldl addDependent dependentVariables (requestedVariables exportSettingsVector)).
Proof.
  revert dependentVariables. unfold requestedVariables.
  induction exportSettingsVector as [|es rest IH]; intros dvs; simpl; [done|].
  rewrite foldl_addVariable, IH. unfold dependentsOf.
  by rewrite omap_app, foldl_app.
Qed.

Lemma dependentVariablesToSave_requested exportSettingsVector :
  dependentVariablesToSave getVariableId exportSettingsVector
  = foldl addDependent [] (requestedVariables exportSettingsVector).
Proof.
  unfold dependentVariablesToSave.
  pose proof (foldl_exportSettings exportSettingsVector []) as Hfold.
  simpl in Hfold. by rewrite Hfold.
Qed.

(** Dropping the variables of some identifiers before or after the
    duplicates are dropped comes to the same. *)
Lemma firstSeen_filter (wanted : string → Prop) `{!∀ s, Decision (wanted s)}
    requested :
  firstSeen (filter (λ d, wanted (getVariableId d)) requested)
  = filter (λ d, wanted (getVariableId d)) (firstSeen requested).
Proof.
  induction requested as [|d rest IH]; [done|].
  rewrite filter_cons. cbn [firstSeen]. case_decide as Hd.
  - cbn [firstSeen]. rewrite filter_cons_True by done. f_equal.
    rewrite IH, !list_filter_filter. apply list_filter_iff. intros later. tauto.
  - rewrite filter_cons_False by done. rewrite IH, list_filter_filter.
    apply list_filter_iff. intros later. split; [|tauto].
    intros Hlater. split; [done|]. intros Heq. apply Hd. by rewrite <- Heq.
Qed.

(** The loop of the source, which looks each variable up among the ones
    added so far and adds it at the end when it is not there, keeps the
    variables in the order in which their identifiers are first seen. *)
Lemma foldl_addDependent_firstSeen dependentVariables requested :
  foldl addDependent dependentVariables requested
  = dependentVariables
    ++ firstSeen (filter (λ d, getVariableId d ∉ ids dependentVariables) requested).
Proof.
  revert dependentVariables.
  induction requested as [|d rest IH]; intros dependentVariables.
  - simpl. by rewrite app_nil_r.
  - cbn [foldl]. rewrite IH, filter_cons. unfold addDependent.
    case_bool_decide as Hin.
    + by rewrite decide_False by (intros Hnot; by apply Hnot).
    + rewrite decide_True by done. cbn [firstSeen].
      rewrite <- app_assoc. cbn [app]. do 2 f_equal.
      pose proof (firstSeen_filter (λ s, s ≠ getVariableId d)
                    (filter (λ d, getVariableId d ∉ ids dependentVariables) rest))
        as Hdropped.
      trans (firstSeen
               (filter (λ later, getVariableId later ≠ getVariableId d)
                  (filter (λ d, getVariableId d ∉ ids dependentVariables) rest)));
        [|exact Hdropped].
      rewrite list_filter_filter. f_equal. apply list_filter_iff.
      intros later. rewrite fmap_app, not_elem_of_app. simpl.
      rewrite not_elem_of_cons. split.
      * intros (Hacc & Hd & _). by split.
      * intros [Hd Hacc]. repeat split; [done..|apply not_elem_of_nil].
Qed.

Lemma filter_all {A} (P : A → Prop) `{!∀ x, Decision (P x)} (l : list A) :
  (∀ x, P x) → filter P l = l.
Proof.
  intros HP. induction l as [|x l IH]; [done|].
  by rewrite filter_cons_True, IH.
Qed.

(** What the collection keeps of the requested variables [requested]. *)
Record collected (requested kept : list SingleDependentVariableSaveSettings)
  : Prop := {
  collected_NoDup : NoDup (ids kept);
  collected_sublist : sublist kept requested;
  collected_all : ∀ d, d ∈ requested → getVariableId d ∈ ids kept;
  collected_first : ∀ d, d ∈ kept →
    ∃ before after, requested = before ++ d :: after
                    ∧ getVariableId d ∉ ids before;
}.

Lemma collected_foldl requested : collected requested (foldl addDependent [] requested).
Proof.
  induction requested as [|d requested IH] using rev_ind.
  - split; simpl; [constructor|done|by intros d ?%elem_of_nil
                  |by intros d ?%elem_of_nil].
  - rewrite foldl_app. simpl. destruct IH as [Hnodup Hsub Hall Hfirst].
    unfold addDependent. case_bool_decide as Hin.
    + split; [done|by apply sublist_inserts_r| |].
      * intros d' [Hd'| ->%list_elem_of_singleton]%elem_of_app; [by apply Hall|done].
      * intros d' (before & after & -> & Hbefore)%Hfirst.
        exists before, (after ++ [d]). by rewrite <- app_assoc.
    + split.
      * rewrite fmap_app. apply NoDup_app. split; [done|]. split.
        -- intros x Hx ->%list_elem_of_singleton. done.
        -- apply NoDup_singleton.
      * by apply sublist_app.
      * intros d' Hd'. rewrite fmap_app. apply elem_of_app.
        apply elem_of_app in Hd' as [Hd'| ->%list_elem_of_singleton];
          [left; by apply Hall|right; simpl; left].
      * intros d' [Hd'| ->%list_elem_of_singleton]%elem_of_app.
        -- destruct (Hfirst d' Hd') as (before & after & -> & Hbefore).
           exists before, (after ++ [d]). by rewrite <- app_assoc.
        -- exists requested, []. split; [done|].
           intros (d' & Heq & Hd')%list_elem_of_fmap. apply Hin.
           rewrite Heq. by apply Hall.
Qed.

End dependent_variables_properties.

(** The identifier of the spec's examples: the type of the variable with
    the bodies it is about in brackets. *)
Definition exampleVariableId (d : SingleDependentVariableSaveSettings) : string :=
  variableType_ d +:+ "(" +:+
  (if bool_decide (associatedBody_ d = "") then secondaryBody_ d else
     if bool_decide (secondaryBody_ d = "") then associatedBody_ d else
       associatedBody_ d +:+ "," +:+ secondaryBody_ d) +:+ ")".

Definition altitudeEarthMoon : SingleDependentVariableSaveSettings :=
  {| variableType_ := "altitude"; associatedBody_ := "Earth";
     secondaryBody_ := "Moon" |}.
Definition massMoon : SingleDependentVariableSaveSettings :=
  {| variableType_ := "mass"; associatedBody_ := "Moon"; secondaryBody_ := "" |}.

(** C8: the dependent variables to save are, for any list of export
    settings and any way of forming identifiers, the dependent variables
    requested (the variables of other kinds are skipped), each identifier
    once, in the order in which the identifiers are first seen across the
    export settings and within each. They are the list [firstSeen] of the
    requested variables, which fixes both what is kept and in what order:
    the first requested variable, then the first of the later ones that
    has another identifier, and so on. Hence no two kept variables have
    the same identifier; the kept variables are a subsequence of the
    requested ones; the identifier of every requested variable is the one
    of a kept variable; and every kept variable stands where its
    identifier is first requested. Two export settings that request
    ["altitude(Earth,Moon)"] and one that requests ["mass(Moon)"] give
    these two variables; and so do requests of the altitude, the mass and
    the altitude again, in this order and not in the order of the last
    requests. The function is total. *)
Theorem dependentVariablesToSave_first_seen
  (getVariableId : SingleDependentVariableSaveSettings → string)
  (exportSettingsVector : list ExportSettings) :
  let requested := requestedVariables exportSettingsVector in
  let kept := dependentVariablesToSave getVariableId exportSettingsVector in
  kept = firstSeen getVariableId requested
  ∧ NoDup (getVariableId <$> kept)
  ∧ sublist kept requested
  ∧ (∀ d, d ∈ requested → getVariableId d ∈ getVariableId <$> kept)
  ∧ (∀ d, d ∈ kept →
       ∃ before after, requested = before ++ d :: after
                       ∧ getVariableId d ∉ getVariableId <$> before)
  ∧ (let exported :=
       dependentVariablesToSave exampleVariableId
         [ {| variables_ := [DependentVariable altitudeEarthMoon] |};
           {| variables_ := [OtherVariable "cpuTime";
                             DependentVariable altitudeEarthMoon] |};
           {| variables_ := [DependentVariable massMoon] |} ] in
     exported = [altitudeEarthMoon; massMoon]
     ∧ exampleVariableId <$> exported = ["altitude(Earth,Moon)"; "mass(Moon)"])
  ∧ dependentVariablesToSave exampleVariableId
      [ {| variables_ := [DependentVariable altitudeEarthMoon;
                          DependentVariable massMoon] |};
        {| variables_ := [DependentVariable altitudeEarthMoon] |} ]
    = [altitudeEarthMoon; massMoon].
Proof.
  intros requested kept. subst requested kept.
  rewrite dependentVariablesToSave_requested.
  destruct (collected_foldl getVariableId (requestedVariables exportSettingsVector))
    as [Hnodup Hsub Hall Hfirst].
  split; [|repeat split; done].
  rewrite foldl_addDependent_firstSeen. simpl. f_equal.
  apply filter_all. intros d. apply not_elem_of_nil.
Qed.

Lemma dependentVariablesToSave_first_seen_witness :
  let exportSettingsVector :=
    [ {| variables_ := [DependentVariable altitudeEarthMoon] |};
      {| variables_ := [DependentVariable massMoon;
                        DependentVariable altitudeEarthMoon] |} ] in
  requestedVariables exportSettingsVector
  = [altitudeEarthMoon; massMoon; altitudeEarthMoon]
  ∧ dependentVariablesToSave exampleVariableId exportSettingsVector
    = [altitudeEarthMoon; massMoon].
Proof.
  intros exportSettingsVector. split; [reflexivity|].
  rewrite (proj1 (dependentVariablesToSave_first_seen exampleVariableId
                    exportSettingsVector)).
  vm_compute. reflexivity.
Defined.

(** ** Single-arc propagator settings: decoding and encoding *)

Ltac unfold_keys :=
  unfold K.integratedStateType, K.initialStates, K.bodiesToPropagate, K.type,
    K.centralBodies, K.accelerations, K.massRateModels, K.torques,
    Keys.propagators, Keys.termination, Keys.finalEpoch, Keys.bodies,
    Keys.options in *.

(** A tag is not in a list of other tags. *)
Ltac absurd_member H :=
  repeat (apply elem_of_cons in H as [H|H]; [discriminate H|]);
  by apply elem_of_nil in H.

(** The lookup of a key in an object built by assignments. *)
Ltac lookup_keys :=
  repeat first
    [ rewrite getNode_member
    | rewrite lookup_insert_eq
    | rewrite lookup_insert_ne by (unfold_keys; discriminate)
    | rewrite lookup_singleton_eq
    | rewrite lookup_singleton_ne by (unfold_keys; discriminate)
    | rewrite lookup_empty ].

Section single_arc_properties.

Context {SelectedAccelerationMap SelectedMassRateModelMap SelectedTorqueMap : Type}.
Context `{!FromJson SelectedAccelerationMap, !ToJson SelectedAccelerationMap}.
Context `{!FromJson SelectedMassRateModelMap, !ToJson SelectedMassRateModelMap}.
Context `{!FromJson SelectedTorqueMap, !ToJson SelectedTorqueMap}.

Abbreviation Settings :=
  (SingleArcPropagatorSettings SelectedAccelerationMap SelectedMassRateModelMap
     SelectedTorqueMap).

(** What a successful decode has read, and what it has built of it. *)
Lemma SingleArc_from_json_Ok (jsonObject : json) (settings : Settings) :
  SingleArc_from_json jsonObject = Ok settings →
  ∃ bodies initialStates,
    getValue jsonObject [K.bodiesToPropagate] = Ok bodies
    ∧ getValue jsonObject [K.initialStates] = Ok initialStates
    ∧ ((∃ centralBodies accelerations propagator,
          settings = TranslationalStatePropagatorSettings centralBodies accelerations
                       bodies initialStates (Time TUDAT_NAN) propagator)
       ∨ (∃ massRateModels,
            settings = MassPropagatorSettings bodies massRateModels initialStates
                         (Time TUDAT_NAN))
       ∨ (∃ torques,
            settings = RotationalStatePropagatorSettings torques bodies
                         initialStates (Time TUDAT_NAN))).
Proof.
  unfold SingleArc_from_json. intros H.
  apply bind_Ok in H as (tag & _ & H).
  apply bind_Ok in H as (bodies & Hbodies & H).
  apply bind_Ok in H as (initialStates & Hstates & H).
  exists bodies, initialStates. split; [done|]. split; [done|].
  destruct tag; try discriminate H; inv_result H; subst settings; eauto 8.
Qed.

(** C10: whatever the configuration, the settings that a single-arc decode
    builds carry a time termination condition whose epoch is [TUDAT_NAN],
    and [getTerminationEpoch] of that condition is [TUDAT_NAN]; a finite
    epoch enters with the termination settings composed for the
    multi-type settings, as with a final epoch [E] and no user
    conditions. *)
Theorem decoded_settings_terminate_at_NaN (jsonObject : json) (settings : Settings) :
  SingleArc_from_json jsonObject = Ok settings →
  getTerminationSettings settings = Time TUDAT_NAN
  ∧ getTerminationEpoch (getTerminationSettings settings) = TUDAT_NAN
  ∧ isNaN (getTerminationEpoch (getTerminationSettings settings)) = true
  ∧ ∀ E, ∃ composed,
      composeTermination None (Some (JNum E)) = Ok composed
      ∧ getTerminationEpoch composed = E.
Proof.
  intros (bodies & initialStates & _ & _ & Hshape)%SingleArc_from_json_Ok.
  assert (getTerminationSettings settings = Time TUDAT_NAN) as ->.
  { destruct Hshape as [(c & a & p & ->)|[(m & ->)|(t & ->)]]; done. }
  repeat split. intros E. by exists (Time E).
Qed.

(** The nodes of the tag and of the initial states in what an encode has
    written. *)
Lemma SingleArc_to_json_common (settings : Settings) (jsonObject : json) :
  SingleArc_to_json settings = Ok jsonObject →
  (∃ text, (getStateType settings, text) ∈ integratedStateTypes
           ∧ getNode jsonObject [K.integratedStateType] = Some (JStr text))
  ∧ getNode jsonObject [K.initialStates]
    = (if bool_decide (getInitialStates settings = []) then None
       else Some (to_json (getInitialStates settings))).
Proof.
  intros H.
  assert (∀ v : VectorX,
    bool_decide (0 < length v) = negb (bool_decide (v = []))) as Hempty.
  { by intros [|x v]. }
  destruct settings as [c a b s t p|b m s t|q b s t|s t|s t];
    unfold SingleArc_to_json in H; simpl in H; try discriminate H;
    try destruct p; simpl in H; rewrite Hempty in H; simpl; revert H;
    destruct (bool_decide (s = [])); simpl; intros [= <-];
    (split; [eexists; split; [|by lookup_keys]; repeat first [by left|right]
           |by lookup_keys]).
Qed.

Lemma assign_null key value : assign key value JNull = Ok (JObj {[ key := value ]}).
Proof. done. Qed.

Lemma assign_object key value members :
  assign key value (JObj members) = Ok (JObj (<[ key := value ]> members)).
Proof. done. Qed.

Lemma integratedStateType_to_json tag :
  ∃ text, (tag, text) ∈ integratedStateTypes
          ∧ enum_to_json integratedStateTypes tag = Ok (JStr text)
          ∧ from_json (JStr text) = Ok tag.
Proof. destruct tag; eexists; (split; [|done]); repeat first [by left|right]. Qed.

Lemma translationalPropagatorType_to_json (type : TranslationalPropagatorType) :
  ∃ text, enum_to_json translationalPropagatorTypes type = Ok (JStr text)
          ∧ from_json (JStr text) = Ok type.
Proof. destruct type; by eexists. Qed.

(** Run the assignments of an encode, and the lookups of a decode. *)
Ltac run :=
  repeat first
    [ rewrite Ok_bind
    | rewrite assign_null
    | rewrite assign_object
    | progress lookup_keys
    | progress cbv beta iota ].

(** The node that an encode of supported settings writes, without the
    initial states when there are none. *)
Definition withInitialStates (initialStates : VectorX) (members : gmap string json)
  : gmap string json :=
  if bool_decide (0 < length initialStates)
  then <[ K.initialStates := to_json initialStates ]> members
  else members.

Lemma SingleArc_to_json_translational c (a : SelectedAccelerationMap) b s t p :
  ∃ text,
    from_json (JStr text) = Ok p
    ∧ SingleArc_to_json (TranslationalStatePropagatorSettings c a b s t p : Settings)
      = Ok (JObj (<[ K.accelerations := to_json a ]>
                 (<[ K.bodiesToPropagate := to_json b ]>
                 (<[ K.centralBodies := to_json c ]>
                 (<[ K.type := JStr text ]>
                 (withInitialStates s
                    {[ K.integratedStateType := JStr "translational" ]})))))).
Proof.
  destruct (translationalPropagatorType_to_json p) as (text & Hto & Hfrom).
  exists text. split; [done|].
  unfold SingleArc_to_json, withInitialStates. cbn [getStateType getInitialStates].
  rewrite Hto.
  change (enum_to_json integratedStateTypes translational_state)
    with (Ok (JStr "translational")).
  run. case_bool_decide; by run.
Qed.

Lemma SingleArc_to_json_mass b (m : SelectedMassRateModelMap) s t :
  SingleArc_to_json (MassPropagatorSettings b m s t : Settings)
  = Ok (JObj (<[ K.massRateModels := to_json m ]>
             (<[ K.bodiesToPropagate := to_json b ]>
             (withInitialStates s {[ K.integratedStateType := JStr "mass" ]})))).
Proof.
  unfold SingleArc_to_json, withInitialStates. cbn [getStateType getInitialStates].
  change (enum_to_json integratedStateTypes body_mass_state) with (Ok (JStr "mass")).
  run. case_bool_decide; by run.
Qed.

Lemma SingleArc_to_json_rotational (q : SelectedTorqueMap) b s t :
  SingleArc_to_json (RotationalStatePropagatorSettings q b s t : Settings)
  = Ok (JObj (<[ K.torques := to_json q ]>
             (<[ K.bodiesToPropagate := to_json b ]>
             (withInitialStates s
                {[ K.integratedStateType := JStr "rotational" ]})))).
Proof.
  unfold SingleArc_to_json, withInitialStates. cbn [getStateType getInitialStates].
  change (enum_to_json integratedStateTypes rotational_state)
    with (Ok (JStr "rotational")).
  run. case_bool_decide; by run.
Qed.

Lemma withInitialStates_lookup_ne s members key :
  key ≠ K.initialStates → withInitialStates s members !! key = members !! key.
Proof.
  intros Hkey. unfold withInitialStates. case_bool_decide; [|done].
  by rewrite lookup_insert_ne.
Qed.

Lemma withInitialStates_lookup s members :
  s ≠ [] → withInitialStates s members !! K.initialStates = Some (to_json s).
Proof.
  intros Hs. unfold withInitialStates. rewrite bool_decide_true.
  - by rewrite lookup_insert_eq.
  - destruct s; [done|simpl; lia].
Qed.

Lemma withInitialStates_lookup_nil members :
  withInitialStates [] members = members.
Proof. done. Qed.

(** The tags that a single-arc conversion supports. *)
Definition supportedIntegratedStateTypes : list IntegratedStateType :=
  [ translational_state; rotational_state; body_mass_state ].

(** C6, amended: the encode of settings of a supported state type
    succeeds; it leaves the initial states out when the vector of the
    settings is empty and writes them otherwise; and it always writes the
    state type, also when it is the default of the decode: translational
    settings are written with the tag ["translational"]. *)
Theorem encode_writes_tag_and_nonempty_initial_states (settings : Settings) :
  (getStateType settings ∈ supportedIntegratedStateTypes →
   ∃ jsonObject, SingleArc_to_json settings = Ok jsonObject)
  ∧ ∀ jsonObject, SingleArc_to_json settings = Ok jsonObject →
      (getInitialStates settings = [] →
       isDefined jsonObject [K.initialStates] = false)
      ∧ (getInitialStates settings ≠ [] →
         getNode jsonObject [K.initialStates]
         = Some (to_json (getInitialStates settings)))
      ∧ (∃ text, (getStateType settings, text) ∈ integratedStateTypes
                 ∧ getNode jsonObject [K.integratedStateType] = Some (JStr text))
      ∧ (getStateType settings = translational_state →
         getNode jsonObject [K.integratedStateType] = Some (JStr "translational")).
Proof.
  split.
  - intros Hsupported.
    destruct settings as [c a b s t p|b m s t|q b s t|s t|s t].
    + destruct (SingleArc_to_json_translational c a b s t p) as (? & _ & ->).
      by eexists.
    + rewrite SingleArc_to_json_mass. by eexists.
    + rewrite SingleArc_to_json_rotational. by eexists.
    + absurd_member Hsupported.
    + absurd_member Hsupported.
  - intros jsonObject [(text & Htext & Htag) Hstates]%SingleArc_to_json_common.
    split; [|split; [|split]].
    + intros Hempty. apply isDefined_false. rewrite Hstates.
      by rewrite bool_decide_true.
    + intros Hnonempty. rewrite Hstates. by rewrite bool_decide_false.
    + by exists text.
    + intros Htranslational. rewrite Htag. rewrite Htranslational in Htext.
      repeat (apply elem_of_cons in Htext as [Htext|Htext]; [congruence|]).
      by apply elem_of_nil in Htext.
Qed.

(** C5: what the decode does with a block whose state type is outside the
    supported ones, which is [hybrid] or [custom_state], once the bodies to
    propagate and the initial states of the block are read. No settings
    are decoded. For [custom_state] the decode fails with
    [UnsupportedVariantError]. For [hybrid] it does not: the case ends in
    a bare [throw;], no exception is thrown and the process is ended. *)
Theorem decode_of_unsupported_tag (jsonObject : json)
    (integratedStateType : IntegratedStateType) (bodies : list string)
    (initialStates : VectorX) :
  getValueOr jsonObject [K.integratedStateType] translational_state
  = Ok integratedStateType →
  integratedStateType ∉ supportedIntegratedStateTypes →
  getValue jsonObject [K.bodiesToPropagate] = Ok bodies →
  getValue jsonObject [K.initialStates] = Ok initialStates →
  integratedStateType ∈ unsupportedIntegratedStateTypes
  ∧ (∀ settings : Settings, SingleArc_from_json jsonObject ≠ Ok settings)
  ∧ (integratedStateType = custom_state →
     SingleArc_from_json (SelectedAccelerationMap:=SelectedAccelerationMap)
       (SelectedMassRateModelMap:=SelectedMassRateModelMap)
       (SelectedTorqueMap:=SelectedTorqueMap) jsonObject
     = Err UnsupportedVariantError)
  ∧ (integratedStateType = hybrid →
     SingleArc_from_json (SelectedAccelerationMap:=SelectedAccelerationMap)
       (SelectedMassRateModelMap:=SelectedMassRateModelMap)
       (SelectedTorqueMap:=SelectedTorqueMap) jsonObject
     = Terminate).
Proof.
  intros Htag Hunsupported Hbodies Hstates.
  assert (integratedStateType = hybrid ∨ integratedStateType = custom_state)
    as Hcases.
  { destruct integratedStateType; auto; exfalso; apply Hunsupported;
      repeat first [by left|right]. }
  split; [destruct Hcases as [-> | ->]; repeat first [by left|right]|].
  unfold SingleArc_from_json. rewrite Htag, Hbodies, Hstates. run.
  split; [|split].
  - intros settings. by destruct Hcases as [-> | ->].
  - by intros ->.
  - by intros ->.
Qed.


Section round_trip.

Context `{!JsonRoundTrip SelectedAccelerationMap,
          !JsonRoundTrip SelectedMassRateModelMap,
          !JsonRoundTrip SelectedTorqueMap}.

Lemma lookup_initialStates_empty (members : gmap string json) :
  members !! K.initialStates = None →
  getValue (A:=VectorX) (JObj members) [K.initialStates]
  = Err (UndefinedKeyError [K.initialStates]).
Proof. intros H. unfold getValue. by rewrite getNode_member, H. Qed.

(** C2, amended: settings built by a decode whose vector of initial states
    is not empty are encoded into a node that decodes to the same
    settings, field for field (the state type and the propagator, which
    the decode has a default for, are written by the encode like any other
    field); settings built by a decode whose vector of initial states is
    empty are encoded without the initial states, and the decode of that
    node fails, since it requires them. *)
Theorem decode_encode_round_trip (jsonObject : json) (settings : Settings) :
  SingleArc_from_json jsonObject = Ok settings →
  ∃ encoded,
    SingleArc_to_json settings = Ok encoded
    ∧ (getInitialStates settings ≠ [] → SingleArc_from_json encoded = Ok settings)
    ∧ (getInitialStates settings = [] →
       SingleArc_from_json (SelectedAccelerationMap:=SelectedAccelerationMap)
         (SelectedMassRateModelMap:=SelectedMassRateModelMap)
         (SelectedTorqueMap:=SelectedTorqueMap) encoded
       = Err (UndefinedKeyError [K.initialStates])).
Proof.
  intros (bodies & initialStates & _ & _ & Hshape)%SingleArc_from_json_Ok.
  destruct Hshape as [(c & a & p & ->)|[(m & ->)|(t & ->)]].
  - destruct (SingleArc_to_json_translational c a bodies initialStates
                (Time TUDAT_NAN) p) as (text & Htext & ->).
    eexists. split; [done|]. cbn [getInitialStates].
    unfold SingleArc_from_json, getValueOr, getValue, convert.
    split; intros Hstates.
    + run. rewrite (withInitialStates_lookup_ne _ _ K.integratedStateType) by done.
      run. change (from_json (JStr "translational")) with (Ok translational_state).
      run. rewrite from_to_json. run.
      rewrite withInitialStates_lookup by done. run.
      rewrite !from_to_json. run. by rewrite Htext.
    + subst initialStates. rewrite withInitialStates_lookup_nil. run.
      change (from_json (JStr "translational")) with (Ok translational_state).
      run. rewrite !from_to_json. by run.
  - rewrite SingleArc_to_json_mass.
    eexists. split; [done|]. cbn [getInitialStates].
    unfold SingleArc_from_json, getValueOr, getValue, convert.
    split; intros Hstates.
    + run. rewrite (withInitialStates_lookup_ne _ _ K.integratedStateType) by done.
      run. change (from_json (JStr "mass")) with (Ok body_mass_state).
      run. rewrite from_to_json. run.
      rewrite withInitialStates_lookup by done. run.
      by rewrite !from_to_json.
    + subst initialStates. rewrite withInitialStates_lookup_nil. run.
      change (from_json (JStr "mass")) with (Ok body_mass_state).
      run. rewrite !from_to_json. by run.
  - rewrite SingleArc_to_json_rotational.
    eexists. split; [done|]. cbn [getInitialStates].
    unfold SingleArc_from_json, getValueOr, getValue, convert.
    split; intros Hstates.
    + run. rewrite (withInitialStates_lookup_ne _ _ K.integratedStateType) by done.
      run. change (from_json (JStr "rotational")) with (Ok rotational_state).
      run. rewrite from_to_json. run.
      rewrite withInitialStates_lookup by done. run.
      by rewrite !from_to_json.
    + subst initialStates. rewrite withInitialStates_lookup_nil. run.
      change (from_json (JStr "rotational")) with (Ok rotational_state).
      run. rewrite !from_to_json. by run.
Qed.

End round_trip.

End single_arc_properties.

(** ** Initial states *)

(** How an entry of the propagators is left: as it was, or, when it had no
    initial states, as the same object with the initial states written. *)
Definition entry_filled (before after : json) : Prop :=
  after = before
  ∨ (getNode before [K.initialStates] = None
     ∧ ∃ members initialStates,
         before = JObj members
         ∧ after = JObj (<[ K.initialStates := initialStates ]> members)).

(** The same for the node of the propagators, entry by entry. *)
Definition entries_filled (before after : json) : Prop :=
  match before, after with
  | JArr elements, JArr elements' => Forall2 entry_filled elements elements'
  | JObj members, JObj members' =>
      ∀ key, option_Forall2 entry_filled (members !! key) (members' !! key)
  | _, _ => after = before
  end.

Lemma entry_filled_refl entry : entry_filled entry entry.
Proof. by left. Qed.

Lemma entries_filled_refl node : entries_filled node node.
Proof.
  destruct node as [| | | |elements|members]; simpl; try done.
  - induction elements; constructor; [apply entry_filled_refl|done].
  - intros key. destruct (members !! key); constructor. apply entry_filled_refl.
Qed.

(** An entry that has initial states stays as it is; in any case the
    fields other than the initial states stay as they are. *)
Lemma entry_filled_defined before after :
  entry_filled before after →
  isDefined before [K.initialStates] = true → after = before.
Proof.
  unfold entry_filled. intros [->|(Hnone & _)] Hdefined; [done|].
  apply isDefined_false in Hnone. congruence.
Qed.

Lemma entry_filled_other before after key :
  entry_filled before after →
  key ≠ K.initialStates → getNode after [key] = getNode before [key].
Proof.
  unfold entry_filled.
  intros [->|[_ (members & value & -> & ->)]] Hkey; [done|].
  rewrite !getNode_member. by rewrite lookup_insert_ne.
Qed.

Lemma assign_entry_filled value before after :
  getNode before [K.initialStates] = None →
  (∃ key node, getNode before [key] = Some node) →
  assign K.initialStates value before = Ok after →
  entry_filled before after.
Proof.
  intros Hnone (key & node & Hkey) Hassign.
  destruct before as [| | | |elements|members]; try discriminate.
  injection Hassign as <-. right. split; [done|]. by eexists _, _.
Qed.

Lemma getValue_Ok_getNode {A} `{!FromJson A} jsonObject keyPath (a : A) :
  getValue jsonObject keyPath = Ok a → ∃ node, getNode jsonObject keyPath = Some node.
Proof.
  unfold getValue, convert. destruct (getNode jsonObject keyPath); [eauto|done].
Qed.

Lemma forEach_Forall2 {A B} (body : A → result B) l l' :
  forEach body l = Ok l' → Forall2 (λ x y, body x = Ok y) l l'.
Proof.
  revert l'. induction l as [|x l IH]; intros l' H; simpl in H.
  - injection H as <-. constructor.
  - inv_result H. subst l'. constructor; [done|]. by apply IH.
Qed.

Lemma forEachMember_lookup body members members' key :
  forEachMember body members = Ok members' →
  option_Forall2 (λ x y, body x = Ok y) (members !! key) (members' !! key).
Proof.
  unfold forEachMember. intros (l' & Hl' & <-)%fmap_Ok.
  apply forEach_Forall2 in Hl'.
  assert (Forall2 (λ member member' : string * json,
            member'.1 = member.1 ∧ body member.2 = Ok member'.2)
            (map_to_list members) l') as Hall.
  { eapply Forall2_impl; [exact Hl'|]. intros [k v] [k' v'] H. simpl in *.
    inv_result H. by simplify_eq. }
  clear Hl'.
  assert (l'.*1 = (map_to_list members).*1) as Hkeys.
  { induction Hall as [|[k v] [k' v'] l1 l2 [Hk Hv] _ IH]; simpl in *; [done|].
    by f_equal. }
  destruct (members !! key) as [value|] eqn:Hkey.
  - apply elem_of_map_to_list in Hkey.
    apply list_elem_of_lookup in Hkey as [i Hi].
    destruct (Forall2_lookup_l _ _ _ _ _ Hall Hi) as ([k' v'] & Hi' & Hk' & Hv').
    simpl in *. subst k'.
    assert (list_to_map (M:=gmap string json) l' !! key = Some v') as ->.
    { apply elem_of_list_to_map_1.
      - rewrite Hkeys. apply NoDup_fst_map_to_list.
      - by eapply list_elem_of_lookup_2. }
    by constructor.
  - assert (list_to_map (M:=gmap string json) l' !! key = None) as ->;
      [|constructor].
    apply not_elem_of_list_to_map_1. rewrite Hkeys.
    intros ([k v] & -> & Hin%elem_of_map_to_list)%list_elem_of_fmap.
    simpl in *. congruence.
Qed.

Lemma at_key_Ok node key value :
  at_key node key = Ok value →
  ∃ members, node = JObj members ∧ members !! key = Some value.
Proof.
  destruct node as [| | | | |members]; try discriminate. simpl.
  destruct (members !! key) as [found|] eqn:Hkey; [|discriminate].
  intros [= <-]. by exists members.
Qed.

Lemma setSegment_length vector start size value vector' :
  setSegment vector start size value = Ok vector' →
  length vector' = length vector.
Proof.
  unfold setSegment. case_bool_decide as Hsizes; [|done].
  intros [= <-]. destruct Hsizes as [Hvalue Hinside].
  rewrite !length_app, length_take, length_drop. lia.
Qed.

Section initial_states_properties.

Context {Body : Type}.
Variable getSingleIntegrationSize : IntegratedStateType → result nat.
Variable getCartesianState : json → list string → Body → double → result VectorX.
Variable jsonObject : json.
Variable bodyMap : gmap string Body.
Variable initialTime_ : double.

Abbreviation perBody :=
  (statesFromBodies getSingleIntegrationSize getCartesianState jsonObject bodyMap
     initialTime_).

Lemma statesOfBodies_length jsonPropagator tag stateSize stateKey bodies i
    initialStates initialStates' :
  statesOfBodies getCartesianState jsonObject bodyMap initialTime_ jsonPropagator
    tag stateSize stateKey bodies i initialStates = Ok initialStates' →
  length initialStates' = length initialStates.
Proof.
  revert i initialStates.
  induction bodies as [|body rest IH]; intros i initialStates H; simpl in H.
  - by injection H as <-.
  - apply bind_Ok in H as (bodyState & _ & H).
    apply bind_Ok in H as (updated & Hsegment & H).
    apply IH in H. apply setSegment_length in Hsegment. congruence.
Qed.

(** What the per-body path does to one entry that has no initial states:
    it writes a vector of the block size of the state type times the
    number of bodies to propagate. *)
Lemma statesFromBodies_undefined jsonPropagator updated :
  getNode jsonPropagator [K.initialStates] = None →
  perBody jsonPropagator = Ok updated →
  ∃ tag stateSize (bodies : list string) (initialStates : VectorX),
    getValueOr jsonPropagator [K.integratedStateType] translational_state = Ok tag
    ∧ getSingleIntegrationSize tag = Ok stateSize
    ∧ getValue jsonPropagator [K.bodiesToPropagate] = Ok bodies
    ∧ length initialStates = stateSize * length bodies
    ∧ assign K.initialStates (to_json initialStates) jsonPropagator = Ok updated.
Proof.
  intros Hnone%isDefined_false H. unfold statesFromBodies in H.
  rewrite Hnone in H.
  apply bind_Ok in H as (tag & Htag & H).
  apply bind_Ok in H as (stateSize & Hsize & H).
  apply bind_Ok in H as (stateKey & _ & H).
  apply bind_Ok in H as (bodies & Hbodies & H).
  apply bind_Ok in H as (initialStates & Hstates & H).
  exists tag, stateSize, bodies, initialStates. repeat split; try done.
  apply statesOfBodies_length in Hstates. by rewrite Hstates, length_replicate.
Qed.

Lemma statesFromBodies_filled jsonPropagator updated :
  perBody jsonPropagator = Ok updated → entry_filled jsonPropagator updated.
Proof.
  intros H. destruct (getNode jsonPropagator [K.initialStates]) as [node|] eqn:Hnode.
  - unfold statesFromBodies in H.
    assert (isDefined jsonPropagator [K.initialStates] = true) as Hdefined.
    { unfold isDefined. rewrite Hnode. by apply bool_decide_eq_true. }
    rewrite Hdefined in H. injection H as <-. by left.
  - destruct (statesFromBodies_undefined _ _ Hnode H)
      as (tag & stateSize & bodies & initialStates & _ & _ & Hbodies & _ & Hassign).
    eapply assign_entry_filled; [done| |done].
    apply getValue_Ok_getNode in Hbodies as [node Hbodies]. eauto.
Qed.

Lemma forEachElement_filled jsonPropagators updated :
  forEachElement perBody jsonPropagators = Ok updated →
  entries_filled jsonPropagators updated.
Proof.
  destruct jsonPropagators as [|b|d|s|elements|members]; simpl; intros H.
  - by injection H as <-.
  - apply statesFromBodies_filled in H.
    destruct H as [->|(_ & ? & ? & [=] & _)]. done.
  - apply statesFromBodies_filled in H.
    destruct H as [->|(_ & ? & ? & [=] & _)]. done.
  - apply statesFromBodies_filled in H.
    destruct H as [->|(_ & ? & ? & [=] & _)]. done.
  - apply fmap_Ok in H as (elements' & H & <-).
    apply forEach_Forall2 in H. eapply Forall2_impl; [exact H|].
    intros. by apply statesFromBodies_filled.
  - apply fmap_Ok in H as (members' & H & <-). intros key.
    destruct (forEachMember_lookup _ _ _ key H); constructor.
    by apply statesFromBodies_filled.
Qed.

(** When the ephemeris of the bodies is asked for the initial states: there
    is one propagator, it has no initial states, and its state type is the
    translational one. *)
Definition ephemerisPathApplies (jsonPropagators : json) : Prop :=
  ∃ jsonPropagator,
    json_size jsonPropagators = 1
    ∧ front jsonPropagators = Some jsonPropagator
    ∧ getNode jsonPropagator [K.initialStates] = None
    ∧ getValueOr jsonPropagator [K.integratedStateType] translational_state
      = Ok translational_state.

Section ephemeris_path.

Variable getInitialStatesOfBodies :
  list string → list string → gmap string Body → double → result VectorX.

Abbreviation tryEphemeris :=
  (statesFromEphemeris getInitialStatesOfBodies bodyMap initialTime_).

Lemma fromEphemeris_applies jsonPropagators jsonPropagator :
  json_size jsonPropagators = 1 →
  front jsonPropagators = Some jsonPropagator →
  getNode jsonPropagator [K.initialStates] = None →
  getValueOr jsonPropagator [K.integratedStateType] translational_state
  = Ok translational_state →
  fromEphemeris getInitialStatesOfBodies bodyMap initialTime_ jsonPropagators
  = match tryEphemeris jsonPropagator with
    | Ok updated => Ok (setFront jsonPropagators updated, true)
    | Err _ => Ok (jsonPropagators, false)
    | Terminate => Terminate
    end.
Proof.
  intros Hsize Hfront Hnone%isDefined_false Htag. unfold fromEphemeris.
  rewrite bool_decide_true by done. rewrite Hfront, Hnone, Htag. done.
Qed.

Lemma fromEphemeris_cases jsonPropagators updatedPropagators usedEphemeris :
  fromEphemeris getInitialStatesOfBodies bodyMap initialTime_ jsonPropagators
  = Ok (updatedPropagators, usedEphemeris) →
  (usedEphemeris = false ∧ updatedPropagators = jsonPropagators)
  ∨ (usedEphemeris = true
     ∧ ∃ jsonPropagator updated,
         json_size jsonPropagators = 1
         ∧ front jsonPropagators = Some jsonPropagator
         ∧ getNode jsonPropagator [K.initialStates] = None
         ∧ getValueOr jsonPropagator [K.integratedStateType] translational_state
           = Ok translational_state
         ∧ tryEphemeris jsonPropagator = Ok updated
         ∧ updatedPropagators = setFront jsonPropagators updated).
Proof.
  unfold fromEphemeris. case_bool_decide as Hsize; [|intros [= <- <-]; by left].
  destruct (front jsonPropagators) as [jsonPropagator|] eqn:Hfront;
    [|intros [= <- <-]; by left].
  destruct (isDefined jsonPropagator [K.initialStates]) eqn:Hdefined;
    [intros [= <- <-]; by left|].
  apply isDefined_false in Hdefined.
  intros (tag & Htag & H)%bind_Ok.
  case_bool_decide as Htranslational; [|injection H as <- <-; by left].
  subst tag.
  destruct (tryEphemeris jsonPropagator) as [updated|e|] eqn:Htry;
    [|injection H as <- <-; by left|done].
  injection H as <- <-. right.
  split; [done|]. by exists jsonPropagator, updated.
Qed.

Lemma statesFromEphemeris_filled jsonPropagator updated :
  getNode jsonPropagator [K.initialStates] = None →
  tryEphemeris jsonPropagator = Ok updated →
  entry_filled jsonPropagator updated.
Proof.
  intros Hnone H. unfold statesFromEphemeris in H.
  apply bind_Ok in H as (bodies & Hbodies & H).
  apply bind_Ok in H as (centralBodies & _ & H).
  apply bind_Ok in H as (initialStates & _ & H).
  eapply assign_entry_filled; [done| |done].
  apply getValue_Ok_getNode in Hbodies as [node Hbodies]. eauto.
Qed.

Lemma setFront_filled jsonPropagators jsonPropagator updated :
  json_size jsonPropagators = 1 →
  front jsonPropagators = Some jsonPropagator →
  entry_filled jsonPropagator updated →
  entries_filled jsonPropagators (setFront jsonPropagators updated).
Proof.
  intros Hsize Hfront Hfilled.
  destruct jsonPropagators as [|b|d|s|elements|members]; simpl in *;
    try discriminate Hfront.
  - injection Hfront as <-. destruct Hfilled as [->|(_ & ? & ? & [=] & _)]. done.
  - injection Hfront as <-. destruct Hfilled as [->|(_ & ? & ? & [=] & _)]. done.
  - injection Hfront as <-. destruct Hfilled as [->|(_ & ? & ? & [=] & _)]. done.
  - destruct elements as [|first [|]]; try discriminate.
    injection Hfront as <-. constructor; [done|constructor].
  - destruct (map_to_list members) as [|[key value] rest] eqn:Hlist;
      try discriminate. simpl in Hfront. injection Hfront as ->.
    assert (members !! key = Some jsonPropagator) as Hkey.
    { apply elem_of_map_to_list. rewrite Hlist. left. }
    intros key'. destruct (decide (key' = key)) as [->|Hne].
    + rewrite Hkey, lookup_insert_eq. by constructor.
    + rewrite lookup_insert_ne by done.
      destruct (members !! key'); constructor. apply entry_filled_refl.
Qed.

(** What a successful [determineInitialStates] has done to the
    propagators. *)
Lemma determineInitialStates_Ok updatedObject :
  determineInitialStates getSingleIntegrationSize getInitialStatesOfBodies
    getCartesianState jsonObject bodyMap initialTime_ = Ok updatedObject →
  ∃ members jsonPropagators updatedPropagators,
    jsonObject = JObj members
    ∧ members !! Keys.propagators = Some jsonPropagators
    ∧ updatedObject = JObj (<[ Keys.propagators := updatedPropagators ]> members)
    ∧ entries_filled jsonPropagators updatedPropagators.
Proof.
  unfold determineInitialStates. intros H.
  apply bind_Ok in H as (jsonPropagators & Hat & H).
  apply bind_Ok in H as ([afterEphemeris usedEphemeris] & Hephemeris & H).
  apply bind_Ok in H as (updatedPropagators & Hbodies & H).
  apply at_key_Ok in Hat as (members & Hmembers & Hnode).
  rewrite Hmembers in H. injection H as <-.
  exists members, jsonPropagators, updatedPropagators.
  repeat split; try done.
  apply fromEphemeris_cases in Hephemeris
    as [[-> ->]|(-> & jsonPropagator & updated & Hsize & Hfront & Hnone & _
                   & Htry & ->)]; simpl in Hbodies.
  - by apply forEachElement_filled in Hbodies.
  - injection Hbodies as <-. eapply setFront_filled; [done..|].
    by apply statesFromEphemeris_filled.
Qed.

(** C9: a successful [determineInitialStates] leaves the configuration as
    it was but for the initial states of the propagators that had none.
    The node of the propagators is the only one of the root that is
    written; its entries stay where they are; an entry that has initial
    states stays as it is; an entry that has none is the same object with
    the initial states written, all its other fields as they were. (When
    [determineInitialStates] fails, the configuration has not been written
    at all: the propagators are worked on in a copy that is stored at the
    end.) *)
Theorem determineInitialStates_fills_missing_only (updatedObject : json) :
  determineInitialStates getSingleIntegrationSize getInitialStatesOfBodies
    getCartesianState jsonObject bodyMap initialTime_ = Ok updatedObject →
  ∃ jsonPropagators updatedPropagators,
    getNode jsonObject [Keys.propagators] = Some jsonPropagators
    ∧ getNode updatedObject [Keys.propagators] = Some updatedPropagators
    ∧ entries_filled jsonPropagators updatedPropagators
    ∧ (∀ key rest, key ≠ Keys.propagators →
         getNode updatedObject (key :: rest) = getNode jsonObject (key :: rest))
    ∧ ∀ elements, jsonPropagators = JArr elements →
        ∃ elements',
          updatedPropagators = JArr elements'
          ∧ length elements' = length elements
          ∧ ∀ i entry entry',
              elements !! i = Some entry → elements' !! i = Some entry' →
              (isDefined entry [K.initialStates] = true → entry' = entry)
              ∧ (∀ key, key ≠ K.initialStates →
                   getNode entry' [key] = getNode entry [key]).
Proof.
  intros (members & jsonPropagators & updatedPropagators & -> & Hnode & ->
          & Hfilled)%determineInitialStates_Ok.
  exists jsonPropagators, updatedPropagators.
  split; [by rewrite getNode_member|].
  split; [by rewrite getNode_member, lookup_insert_eq|].
  split; [done|]. split.
  - intros key rest Hkey. simpl. by rewrite lookup_insert_ne.
  - intros elements ->. simpl in Hfilled.
    destruct updatedPropagators as [| | | |elements'|]; try done.
    exists elements'. split; [done|].
    split; [symmetry; by eapply Forall2_length|].
    intros i entry entry' Hentry Hentry'.
    pose proof (Forall2_lookup_lr _ _ _ _ _ _ Hfilled Hentry Hentry') as Hi.
    split; [by apply entry_filled_defined|].
    intros key Hkey. by apply entry_filled_other.
Qed.

Lemma fromEphemeris_not_applies
    (otherStates :
       list string → list string → gmap string Body → double → result VectorX)
    jsonPropagators :
  ¬ ephemerisPathApplies jsonPropagators →
  fromEphemeris getInitialStatesOfBodies bodyMap initialTime_ jsonPropagators
  = fromEphemeris otherStates bodyMap initialTime_ jsonPropagators.
Proof.
  intros Hnot. unfold fromEphemeris. case_bool_decide as Hsize; [|done].
  destruct (front jsonPropagators) as [jsonPropagator|] eqn:Hfront; [|done].
  destruct (isDefined jsonPropagator [K.initialStates]) eqn:Hdefined; [done|].
  apply isDefined_false in Hdefined.
  destruct (getValueOr jsonPropagator [K.integratedStateType] translational_state)
    as [tag|e|] eqn:Htag; [|done..].
  rewrite !Ok_bind. case_bool_decide as Htranslational; [|done].
  subst tag. destruct Hnot. by exists jsonPropagator.
Qed.

Lemma fromEphemeris_Err jsonPropagators e :
  fromEphemeris getInitialStatesOfBodies bodyMap initialTime_ jsonPropagators
  = Err e →
  ∃ jsonPropagator,
    json_size jsonPropagators = 1
    ∧ front jsonPropagators = Some jsonPropagator
    ∧ getNode jsonPropagator [K.initialStates] = None
    ∧ getValueOr jsonPropagator [K.integratedStateType] translational_state
      = Err e.
Proof.
  unfold fromEphemeris. case_bool_decide as Hsize; [|done].
  destruct (front jsonPropagators) as [jsonPropagator|] eqn:Hfront; [|done].
  destruct (isDefined jsonPropagator [K.initialStates]) eqn:Hdefined; [done|].
  apply isDefined_false in Hdefined.
  destruct (getValueOr jsonPropagator [K.integratedStateType] translational_state)
    as [tag|e'|] eqn:Htag.
  - rewrite Ok_bind. case_bool_decide; [|done].
    by destruct (tryEphemeris jsonPropagator).
  - intros [= ->]. by exists jsonPropagator.
  - done.
Qed.

Lemma fromEphemeris_Terminate jsonPropagators :
  fromEphemeris getInitialStatesOfBodies bodyMap initialTime_ jsonPropagators
  = Terminate →
  ∃ jsonPropagator, tryEphemeris jsonPropagator = Terminate.
Proof.
  unfold fromEphemeris. case_bool_decide as Hsize; [|done].
  destruct (front jsonPropagators) as [jsonPropagator|] eqn:Hfront; [|done].
  destruct (isDefined jsonPropagator [K.initialStates]) eqn:Hdefined; [done|].
  destruct (getValueOr jsonPropagator [K.integratedStateType] translational_state)
    as [tag|e'|] eqn:Htag; [|done|by apply getValueOr_tag_not_Terminate in Htag].
  rewrite Ok_bind. case_bool_decide; [|done].
  destruct (tryEphemeris jsonPropagator) eqn:Htry; try done.
  by exists jsonPropagator.
Qed.

Lemma statesFromBodies_tag_Err jsonPropagator e :
  getNode jsonPropagator [K.initialStates] = None →
  getValueOr jsonPropagator [K.integratedStateType] translational_state = Err e →
  perBody jsonPropagator = Err e.
Proof.
  intros Hnone%isDefined_false Htag. unfold statesFromBodies.
  by rewrite Hnone, Htag.
Qed.

Lemma forEachElement_front_Err jsonPropagators jsonPropagator e :
  json_size jsonPropagators = 1 →
  front jsonPropagators = Some jsonPropagator →
  perBody jsonPropagator = Err e →
  forEachElement perBody jsonPropagators = Err e.
Proof.
  destruct jsonPropagators as [|b|d|s|elements|members]; simpl;
    intros Hsize Hfront Hbody; try discriminate;
    try (by injection Hfront as <-).
  - destruct elements as [|first [|]]; try discriminate.
    injection Hfront as <-. simpl. by rewrite Hbody.
  - unfold forEachMember. rewrite <- length_map_to_list in Hsize.
    destruct (map_to_list members) as [|[key value] [|]]; try discriminate.
    injection Hfront as <-. simpl. by rewrite Hbody.
Qed.

Lemma statesFromEphemeris_fails jsonPropagator :
  (∀ bodies centralBodies,
     ∃ e, getInitialStatesOfBodies bodies centralBodies bodyMap initialTime_
          = Err e) →
  ∃ e, tryEphemeris jsonPropagator = Err e.
Proof.
  intros Hfails. unfold statesFromEphemeris.
  destruct (getValue jsonPropagator [K.bodiesToPropagate]) as [bodies|e|]
    eqn:Hbodies;
    [|by exists e|by apply getValue_strings_not_Terminate in Hbodies].
  destruct (getValue jsonPropagator [K.centralBodies]) as [centralBodies|e|]
    eqn:Hcentral;
    [|by exists e|by apply getValue_strings_not_Terminate in Hcentral].
  destruct (Hfails bodies centralBodies) as [e He]. exists e.
  by rewrite !Ok_bind, He.
Qed.

(** C4: the ephemeris of the bodies is asked for the initial states only
    when there is exactly one propagator, which has no initial states and
    whose state type is the translational one: only then can
    [usedEphemeris] be set, and in any other case the result does not
    depend on what the ephemeris would answer. When it is asked and the
    attempt fails, with whatever error, the failure is dropped and the
    result is the one of the loop over the propagators, which reads the
    states stored at the bodies settings. With bodies whose ephemeris
    always fails, [determineInitialStates] is that loop, for every
    configuration. *)
Theorem ephemeris_path_conditions_and_fallback
    (otherStates :
       list string → list string → gmap string Body → double → result VectorX)
    (jsonPropagators : json) :
  at_key jsonObject Keys.propagators = Ok jsonPropagators →
  (∀ updatedPropagators,
     fromEphemeris getInitialStatesOfBodies bodyMap initialTime_ jsonPropagators
     = Ok (updatedPropagators, true) →
     ephemerisPathApplies jsonPropagators)
  ∧ (¬ ephemerisPathApplies jsonPropagators →
     determineInitialStates getSingleIntegrationSize getInitialStatesOfBodies
       getCartesianState jsonObject bodyMap initialTime_
     = determineInitialStates getSingleIntegrationSize otherStates
         getCartesianState jsonObject bodyMap initialTime_)
  ∧ (∀ jsonPropagator e,
       json_size jsonPropagators = 1 →
       front jsonPropagators = Some jsonPropagator →
       getNode jsonPropagator [K.initialStates] = None →
       getValueOr jsonPropagator [K.integratedStateType] translational_state
       = Ok translational_state →
       tryEphemeris jsonPropagator = Err e →
       fromEphemeris getInitialStatesOfBodies bodyMap initialTime_ jsonPropagators
       = Ok (jsonPropagators, false)
       ∧ determineInitialStates getSingleIntegrationSize getInitialStatesOfBodies
           getCartesianState jsonObject bodyMap initialTime_
         = (forEachElement perBody jsonPropagators
            ≫= λ updatedPropagators,
                 assign Keys.propagators updatedPropagators jsonObject))
  ∧ ((∀ bodies centralBodies,
        ∃ e, getInitialStatesOfBodies bodies centralBodies bodyMap initialTime_
             = Err e) →
     determineInitialStates getSingleIntegrationSize getInitialStatesOfBodies
       getCartesianState jsonObject bodyMap initialTime_
     = (forEachElement perBody jsonPropagators
        ≫= λ updatedPropagators,
             assign Keys.propagators updatedPropagators jsonObject)).
Proof.
  intros Hat. split; [|split; [|split]].
  - intros updatedPropagators
      [[[=] _]|(_ & jsonPropagator & updated & Hsize & Hfront & Hnone & Htag & _)]
        %fromEphemeris_cases.
    by exists jsonPropagator.
  - intros Hnot. unfold determineInitialStates. rewrite Hat, !Ok_bind.
    by rewrite (fromEphemeris_not_applies otherStates).
  - intros jsonPropagator e Hsize Hfront Hnone Htag Htry.
    assert (fromEphemeris getInitialStatesOfBodies bodyMap initialTime_
              jsonPropagators = Ok (jsonPropagators, false)) as Hfrom.
    { rewrite (fromEphemeris_applies _ jsonPropagator) by done. by rewrite Htry. }
    split; [done|]. unfold determineInitialStates.
    by rewrite Hat, Ok_bind, Hfrom, Ok_bind.
  - intros Hfails. unfold determineInitialStates. rewrite Hat, Ok_bind.
    destruct (fromEphemeris getInitialStatesOfBodies bodyMap initialTime_
                jsonPropagators) as [[afterEphemeris usedEphemeris]|e|] eqn:Hfrom;
      [| |apply fromEphemeris_Terminate in Hfrom as [jsonPropagator Htry];
          destruct (statesFromEphemeris_fails jsonPropagator Hfails) as [e He];
          congruence].
    + apply fromEphemeris_cases in Hfrom
        as [[-> ->]|(_ & jsonPropagator & updated & _ & _ & _ & _ & Htry & _)];
        [done|].
      destruct (statesFromEphemeris_fails jsonPropagator Hfails) as [e He].
      congruence.
    + apply fromEphemeris_Err in Hfrom
        as (jsonPropagator & Hsize & Hfront & Hnone & Htag).
      rewrite (forEachElement_front_Err _ jsonPropagator e); [done..|].
      by apply statesFromBodies_tag_Err.
Qed.

End ephemeris_path.

End initial_states_properties.

(** ** The length of the initial states *)

Section initial_states_length.

Context {SelectedAccelerationMap SelectedMassRateModelMap SelectedTorqueMap : Type}.
Context `{!FromJson SelectedAccelerationMap, !FromJson SelectedMassRateModelMap,
          !FromJson SelectedTorqueMap}.
Context {Body : Type}.
Variable getSingleIntegrationSize : IntegratedStateType → result nat.
Variable getCartesianState : json → list string → Body → double → result VectorX.
Variable jsonObject : json.
Variable bodyMap : gmap string Body.
Variable initialTime_ : double.


End initial_states_length.

(** * Examples *)

(** An object with the given members. *)
Definition object (members : list (string * json)) : json :=
  JObj (list_to_map members).

Definition number (p : positive) : json := JNum (double_of_pos p).

(** Settings whose physical models are kept as the nodes they are read
    from. *)
Abbreviation NodeSettings := (SingleArcPropagatorSettings json json json).



(** A translational block without bodies and with no initial states. *)
Definition blockOfNothing : json :=
  object [ ("bodiesToPropagate", JArr []);
           ("centralBodies", JArr []);
           ("accelerations", object []);
           ("initialStates", JArr []) ].

Definition settingsOfNothing : NodeSettings :=
  TranslationalStatePropagatorSettings [] (object []) [] [] (Time TUDAT_NAN) cowell.

(** C2, as stated, fails: the settings decoded from a block with an empty
    vector of initial states are encoded without the initial states, and
    decoding what is encoded fails. *)
Lemma round_trip_fails_without_initial_states :
  SingleArc_from_json blockOfNothing = Ok settingsOfNothing
  ∧ SingleArc_to_json settingsOfNothing
    = Ok (object [ ("integratedStateType", JStr "translational");
                   ("type", JStr "cowell");
                   ("centralBodies", JArr []);
                   ("bodiesToPropagate", JArr []);
                   ("accelerations", object []) ])
  ∧ SingleArc_to_json settingsOfNothing
    ≫= SingleArc_from_json (SelectedAccelerationMap:=json)
         (SelectedMassRateModelMap:=json) (SelectedTorqueMap:=json)
    = Err (UndefinedKeyError [K.initialStates]).
Proof. repeat split; by vm_compute. Qed.

(** C6, as stated, fails: translational settings, whose state type is the
    default of the decode, are encoded with the state type. *)
Lemma encode_writes_the_default_tag :
  getStateType settingsOfNothing = translational_state
  ∧ (jsonObject ← SingleArc_to_json settingsOfNothing;
     Ok (getNode jsonObject [K.integratedStateType]))
    = Ok (Some (JStr "translational")).
Proof. split; by vm_compute. Qed.

Lemma getTerminationEpoch_one_five_three :
  getTerminationEpoch
    (Hybrid [Hybrid [Time TUDAT_NAN] false;
             Hybrid [Time (double_of_pos 5); Time (double_of_pos 3)] true] true)
  = double_of_pos 5.
Proof. reflexivity. Qed.

(** A translational block for one body with its six initial states. *)
Definition blockOfSix : json :=
  object [ ("bodiesToPropagate", JArr [JStr "Moon"]);
           ("centralBodies", JArr [JStr "Earth"]);
           ("accelerations", object [("Moon", object [])]);
           ("initialStates", JArr (number <$> [1; 2; 3; 4; 5; 6]%positive)) ].

Definition settingsOfSix : NodeSettings :=
  TranslationalStatePropagatorSettings ["Earth"] (object [("Moon", object [])])
    ["Moon"] (double_of_pos <$> [1; 2; 3; 4; 5; 6]%positive) (Time TUDAT_NAN) cowell.

Lemma decode_encode_round_trip_witness :
  SingleArc_from_json blockOfSix = Ok settingsOfSix
  ∧ ∃ encoded,
      SingleArc_to_json settingsOfSix = Ok encoded
      ∧ SingleArc_from_json encoded = Ok settingsOfSix.
Proof.
  assert (SingleArc_from_json blockOfSix = Ok settingsOfSix) as Hdecode.
  { vm_compute. reflexivity. }
  split; [exact Hdecode|].
  destruct (decode_encode_round_trip blockOfSix settingsOfSix Hdecode)
    as (encoded & Hencode & Hfull & _).
  exists encoded. split; [exact Hencode|]. apply Hfull. discriminate.
Defined.

Lemma decoded_settings_terminate_at_NaN_witness :
  SingleArc_from_json blockOfSix = Ok settingsOfSix
  ∧ getTerminationEpoch (getTerminationSettings settingsOfSix) = TUDAT_NAN.
Proof.
  assert (SingleArc_from_json blockOfSix = Ok settingsOfSix) as Hdecode.
  { vm_compute. reflexivity. }
  split; [exact Hdecode|].
  exact (proj1 (proj2 (decoded_settings_terminate_at_NaN blockOfSix settingsOfSix
                         Hdecode))).
Defined.

Lemma encode_writes_tag_and_nonempty_initial_states_witness :
  ∃ encoded,
    SingleArc_to_json settingsOfNothing = Ok encoded
    ∧ isDefined encoded [K.initialStates] = false
    ∧ getNode encoded [K.integratedStateType] = Some (JStr "translational").
Proof.
  destruct (encode_writes_tag_and_nonempty_initial_states settingsOfNothing)
    as [Htotal Hfields].
  destruct Htotal as [encoded Hencode].
  { left. }
  exists encoded. split; [exact Hencode|].
  destruct (Hfields encoded Hencode) as (Hempty & _ & _ & Htag).
  split; [apply Hempty|apply Htag]; reflexivity.
Defined.

(** A block for one body, with its initial states, tagged [hybrid]. *)
Definition blockOfHybrid : json :=
  object [ ("integratedStateType", JStr "hybrid");
           ("bodiesToPropagate", JArr [JStr "Moon"]);
           ("initialStates", JArr (number <$> [1; 2; 3; 4; 5; 6]%positive)) ].

Lemma decode_of_unsupported_tag_witness :
  getValueOr blockOfHybrid [K.integratedStateType] translational_state = Ok hybrid
  ∧ (hybrid ∉ supportedIntegratedStateTypes)
  ∧ getValue blockOfHybrid [K.bodiesToPropagate] = Ok ["Moon"]
  ∧ getValue blockOfHybrid [K.initialStates] = Ok (double_of_pos <$> [1; 2; 3; 4; 5; 6]%positive)
  ∧ SingleArc_from_json (SelectedAccelerationMap:=json)
      (SelectedMassRateModelMap:=json) (SelectedTorqueMap:=json) blockOfHybrid
    = Terminate.
Proof.
  assert (getValueOr blockOfHybrid [K.integratedStateType] translational_state
          = Ok hybrid) as Htag.
  { vm_compute. reflexivity. }
  assert (hybrid ∉ supportedIntegratedStateTypes) as Hunsupported.
  { unfold supportedIntegratedStateTypes. rewrite !not_elem_of_cons.
    repeat split; try discriminate. apply not_elem_of_nil. }
  assert (getValue blockOfHybrid [K.bodiesToPropagate] = Ok ["Moon"]) as Hbodies.
  { vm_compute. reflexivity. }
  assert (getValue blockOfHybrid [K.initialStates] = Ok (double_of_pos <$> [1; 2; 3; 4; 5; 6]%positive))
    as Hstates.
  { vm_compute. reflexivity. }
  split; [exact Htag|]. split; [exact Hunsupported|].
  split; [exact Hbodies|]. split; [exact Hstates|].
  exact (proj2 (proj2 (proj2 (decode_of_unsupported_tag
                                (SelectedAccelerationMap:=json)
                                (SelectedMassRateModelMap:=json)
                                (SelectedTorqueMap:=json)
                                blockOfHybrid hybrid ["Moon"]
                                (double_of_pos <$> [1; 2; 3; 4; 5; 6]%positive)
                                Htag Hunsupported Hbodies Hstates)))
           eq_refl).
Defined.

(** The block sizes of the state types: six, seven and one. *)
Definition blockSize (integratedStateType : IntegratedStateType) : result nat :=
  match integratedStateType with
  | translational_state => Ok 6
  | rotational_state => Ok 7
  | body_mass_state => Ok 1
  | _ => Err UnsupportedVariantError
  end.

(** Bodies without an ephemeris, and states that are taken from the
    configuration as they are. *)
Definition noEphemeris (bodiesToPropagate centralBodies : list string)
  (bodyMap : gmap string unit) (initialTime : double) : result VectorX :=
  Err EphemerisUnavailableError.

Definition statedCartesianState (jsonObject : json) (stateKeyPath : list string)
  (centralBody : unit) (initialTime : double) : result VectorX :=
  getValue jsonObject stateKeyPath.

Definition earthAlone : gmap string unit := {[ "Earth" := () ]}.

Definition moonPropagator : json :=
  object [ ("bodiesToPropagate", JArr [JStr "Moon"]);
           ("centralBodies", JArr [JStr "Earth"]);
           ("accelerations", object []) ].

Definition moonStates : json := JArr (number <$> [1; 2; 3; 4; 5; 6]%positive).

Definition moonConfiguration (propagator : json) : json :=
  object [ ("finalEpoch", number 5);
           ("bodies", object [("Moon", object [("initialState", moonStates)])]);
           ("propagators", JArr [propagator]) ].

Definition moonPropagatorFilled : json :=
  object [ ("bodiesToPropagate", JArr [JStr "Moon"]);
           ("centralBodies", JArr [JStr "Earth"]);
           ("accelerations", object []);
           ("initialStates", moonStates) ].

(** With bodies that have no ephemeris, the initial states of the only
    propagator come from the configuration of its body. *)
Lemma determineInitialStates_without_ephemeris :
  determineInitialStates blockSize noEphemeris statedCartesianState
    (moonConfiguration moonPropagator) earthAlone zero
  = Ok (moonConfiguration moonPropagatorFilled).
Proof. vm_compute. reflexivity. Qed.

Lemma ephemeris_path_conditions_and_fallback_witness :
  statesFromEphemeris noEphemeris earthAlone zero moonPropagator
  = Err EphemerisUnavailableError
  ∧ determineInitialStates blockSize noEphemeris statedCartesianState
      (moonConfiguration moonPropagator) earthAlone zero
    = (forEachElement
         (statesFromBodies blockSize statedCartesianState
            (moonConfiguration moonPropagator) earthAlone zero)
         (JArr [moonPropagator])
       ≫= λ updatedPropagators,
            assign Keys.propagators updatedPropagators
              (moonConfiguration moonPropagator)).
Proof.
  assert (statesFromEphemeris noEphemeris earthAlone zero moonPropagator
          = Err EphemerisUnavailableError) as Htry.
  { vm_compute. reflexivity. }
  split; [exact Htry|].
  refine (proj2 (proj1 (proj2 (proj2 (ephemeris_path_conditions_and_fallback
    blockSize statedCartesianState (moonConfiguration moonPropagator) earthAlone
    zero noEphemeris noEphemeris (JArr [moonPropagator]) _)))
    moonPropagator EphemerisUnavailableError _ _ _ _ Htry)).
  - vm_compute. reflexivity.
  - reflexivity.
  - reflexivity.
  - vm_compute. reflexivity.
  - vm_compute. reflexivity.
Defined.

Lemma determineInitialStates_fills_missing_only_witness :
  determineInitialStates blockSize noEphemeris statedCartesianState
    (moonConfiguration moonPropagator) earthAlone zero
  = Ok (moonConfiguration moonPropagatorFilled)
  ∧ ∀ key rest, key ≠ Keys.propagators →
      getNode (moonConfiguration moonPropagatorFilled) (key :: rest)
      = getNode (moonConfiguration moonPropagator) (key :: rest).
Proof.
  assert (determineInitialStates blockSize noEphemeris statedCartesianState
            (moonConfiguration moonPropagator) earthAlone zero
          = Ok (moonConfiguration moonPropagatorFilled)) as Hdetermined.
  { vm_compute. reflexivity. }
  split; [exact Hdetermined|].
  destruct (determineInitialStates_fills_missing_only blockSize statedCartesianState
              (moonConfiguration moonPropagator) earthAlone zero noEphemeris
              (moonConfiguration moonPropagatorFilled) Hdetermined)
    as (propagators & updated & _ & _ & _ & Hother & _).
  exact Hother.
Defined.


(** * Further properties *)

(** ** Tags and their texts *)

Lemma enumFromString_integratedStateTypes text tag :
  enumFromString text integratedStateTypes = Ok tag →
  stringFromEnum tag integratedStateTypes = Ok text.
Proof.
  unfold enumFromString, integratedStateTypes. simpl.
  repeat (case_decide; simpl; [subst text; by intros [= <-]|]).
  by intros [=].
Qed.

Lemma enumFromString_translationalPropagatorTypes text type :
  enumFromString text translationalPropagatorTypes = Ok type →
  stringFromEnum type translationalPropagatorTypes = Ok text.
Proof.
  unfold enumFromString, translationalPropagatorTypes. simpl.
  repeat (case_decide; simpl; [subst text; by intros [= <-]|]).
  by intros [=].
Qed.

Lemma enumFromString_unknown {E} text (stringValues : list (E * string)) :
  text ∉ stringValues.*2 →
  enumFromString text stringValues = Err UnknownTagError.
Proof.
  intros Hnot. unfold enumFromString.
  destruct (list_find _ stringValues) as [[i entry]|] eqn:Hfind; [|done].
  apply list_find_Some in Hfind as (Hentry & Htext & _).
  destruct Hnot. apply list_elem_of_fmap. exists entry. split; [done|].
  by eapply list_elem_of_lookup_2.
Qed.

(** X1: the texts of the state types and of the translational propagator
    types name them one to one. A type written and read back is the same
    type; a text read and written back is the same text; and a text that
    is not in the table is read with [UnknownTagError]. *)
Theorem tag_texts_one_to_one :
  (∀ tag : IntegratedStateType,
     enum_to_json integratedStateTypes tag ≫= from_json = Ok tag)
  ∧ (∀ type : TranslationalPropagatorType,
       enum_to_json translationalPropagatorTypes type ≫= from_json = Ok type)
  ∧ (∀ text (tag : IntegratedStateType),
       from_json (JStr text) = Ok tag →
       enum_to_json integratedStateTypes tag = Ok (JStr text))
  ∧ (∀ text (type : TranslationalPropagatorType),
       from_json (JStr text) = Ok type →
       enum_to_json translationalPropagatorTypes type = Ok (JStr text))
  ∧ (∀ text, text ∉ integratedStateTypes.*2 →
       from_json (A:=IntegratedStateType) (JStr text) = Err UnknownTagError)
  ∧ (∀ text, text ∉ translationalPropagatorTypes.*2 →
       from_json (A:=TranslationalPropagatorType) (JStr text)
       = Err UnknownTagError).
Proof.
  split; [by intros []|]. split; [by intros []|].
  split; [|split; [|split]].
  - intros text tag Hread. unfold enum_to_json.
    by rewrite (enumFromString_integratedStateTypes text tag Hread).
  - intros text type Hread. unfold enum_to_json.
    by rewrite (enumFromString_translationalPropagatorTypes text type Hread).
  - intros text Hnot. by apply (enumFromString_unknown text integratedStateTypes).
  - intros text Hnot.
    by apply (enumFromString_unknown text translationalPropagatorTypes).
Qed.

Lemma tag_texts_one_to_one_witness :
  from_json (JStr "gaussKeplerian") = Ok gauss_keplerian
  ∧ enum_to_json translationalPropagatorTypes gauss_keplerian
    = Ok (JStr "gaussKeplerian").
Proof.
  assert (from_json (JStr "gaussKeplerian") = Ok gauss_keplerian) as Hread.
  { reflexivity. }
  split; [exact Hread|].
  exact (proj1 (proj2 (proj2 (proj2 tag_texts_one_to_one)))
           "gaussKeplerian" gauss_keplerian Hread).
Defined.

(** ** More on the termination epoch *)

Lemma isNaN_true (x : double) : isNaN x = true → x = TUDAT_NAN.
Proof. by destruct x. Qed.

Lemma firstWhere_notNaN_elem_of epochs :
  isNaN (firstWhere notNaN epochs) = false → firstWhere notNaN epochs ∈ epochs.
Proof.
  destruct (filter (λ e, notNaN e = true) epochs) as [|x xs] eqn:Hfilter.
  - rewrite (firstWhere_notNaN_nil _ Hfilter). discriminate.
  - intros _. unfold firstWhere. rewrite Hfilter. simpl.
    assert (x ∈ filter (λ e, notNaN e = true) epochs) as Hx
      by (rewrite Hfilter; left).
    by apply list_elem_of_filter in Hx as [_ Hx].
Qed.

Lemma firstWhere_notNaN_Forall epochs :
  isNaN (firstWhere notNaN epochs) = true ↔ Forall (λ e, isNaN e = true) epochs.
Proof.
  split.
  - intros Hnan. apply Forall_forall. intros e He.
    destruct (isNaN e) eqn:Hnot; [done|].
    assert (e ∈ filter (λ e, notNaN e = true) epochs) as Hin.
    { apply list_elem_of_filter. split; [|done]. unfold notNaN. by rewrite Hnot. }
    destruct (filter (λ e, notNaN e = true) epochs) as [|x xs] eqn:Hfilter.
    + by apply elem_of_nil in Hin.
    + rewrite (firstWhere_notNaN_cons _ _ _ Hfilter) in Hnan. discriminate.
  - intros Hall. apply firstWhere_notNaN_nil.
    induction Hall as [|e es He _ IH]; [done|].
    rewrite filter_cons. case_decide as Hd; [|exact IH].
    unfold notNaN in Hd. by rewrite He in Hd.
Qed.

(** X2: the epoch that [getTerminationEpoch] returns is never made up: if
    it is not a NaN, it is the epoch of a time condition of the tree; and
    it is a NaN exactly when the tree has no time condition whose epoch is
    not a NaN. *)
Theorem getTerminationEpoch_is_an_epoch_of_the_tree
    (t : PropagationTerminationSettings) :
  (isNaN (getTerminationEpoch t) = false → getTerminationEpoch t ∈ timeEpochs t)
  ∧ (isNaN (getTerminationEpoch t) = true
     ↔ Forall (λ e, isNaN e = true) (timeEpochs t)).
Proof.
  rewrite getTerminationEpoch_first. split.
  - apply firstWhere_notNaN_elem_of.
  - apply firstWhere_notNaN_Forall.
Qed.

Lemma getTerminationEpoch_is_an_epoch_of_the_tree_witness :
  let t := Hybrid [Dependent altitudeEarthMoon zero true;
                   Hybrid [Time TUDAT_NAN; Time (double_of_pos 7)] false] true in
  isNaN (getTerminationEpoch t) = false ∧ getTerminationEpoch t ∈ timeEpochs t.
Proof.
  intros t.
  assert (isNaN (getTerminationEpoch t) = false) as Hepoch by reflexivity.
  split; [exact Hepoch|].
  exact (proj1 (getTerminationEpoch_is_an_epoch_of_the_tree t) Hepoch).
Defined.

Lemma timeEpochs_hybrid_app children children' any :
  timeEpochs (Hybrid (children ++ children') any)
  = timeEpochs (Hybrid children any) ++ timeEpochs (Hybrid children' any).
Proof. by rewrite !timeEpochs_hybrid, map_app, concat_app. Qed.

(** X3: [getTerminationEpoch] looks at the time conditions of a tree in
    their order and at nothing else. Whether a hybrid condition is
    fulfilled by any or by all of its conditions makes no difference; a
    hybrid child can be replaced by its own children in its place; and a
    child without an epoch that is not a NaN can be left out. *)
Theorem getTerminationEpoch_sees_the_order_of_epochs_only
    (before after inner : list PropagationTerminationSettings)
    (child : PropagationTerminationSettings) (any any' anyInner : bool) :
  getTerminationEpoch (Hybrid before any) = getTerminationEpoch (Hybrid before any')
  ∧ getTerminationEpoch (Hybrid (before ++ Hybrid inner anyInner :: after) any)
    = getTerminationEpoch (Hybrid (before ++ inner ++ after) any)
  ∧ (isNaN (getTerminationEpoch child) = true →
     getTerminationEpoch (Hybrid (before ++ child :: after) any)
     = getTerminationEpoch (Hybrid (before ++ after) any)).
Proof.
  split; [by rewrite !getTerminationEpoch_hybrid|]. split.
  - rewrite !getTerminationEpoch_first. f_equal.
    rewrite (timeEpochs_hybrid (before ++ _)), (timeEpochs_hybrid (before ++ _)).
    rewrite !map_app, map_cons, !concat_app, concat_cons.
    by rewrite (timeEpochs_hybrid inner).
  - intros Hnan. rewrite !getTerminationEpoch_hybrid.
    induction before as [|b before IH]; simpl.
    + by rewrite Hnan.
    + by rewrite IH.
Qed.

Lemma getTerminationEpoch_sees_the_order_of_epochs_only_witness :
  let child := Hybrid [Time TUDAT_NAN] true in
  isNaN (getTerminationEpoch child) = true
  ∧ getTerminationEpoch
      (Hybrid ([Dependent massMoon zero false] ++ child :: [Time (double_of_pos 2)])
         false)
    = getTerminationEpoch
        (Hybrid ([Dependent massMoon zero false] ++ [Time (double_of_pos 2)]) false).
Proof.
  intros child.
  assert (isNaN (getTerminationEpoch child) = true) as Hnan by reflexivity.
  split; [exact Hnan|].
  exact (proj2 (proj2 (getTerminationEpoch_sees_the_order_of_epochs_only
    [Dependent massMoon zero false] [Time (double_of_pos 2)] [] child false false
    false)) Hnan).
Defined.

(** X4: the epoch of the termination settings composed for multi-type
    settings. With a final epoch alone it is the final epoch; with user
    conditions alone it is theirs. With both, it is the epoch of the user
    conditions when they have one that is not a NaN, at any depth;
    otherwise it is the final epoch, unless a time condition is among the
    children of the user conditions, in which case the final epoch is not
    used and there is no epoch. *)
Theorem getTerminationEpoch_of_composed_settings
    (U : HybridTerminationSettings) (E : double) :
  let epochOfU := getTerminationEpoch (asTerminationSettings U) in
  (∃ composed, composeTermination None (Some (JNum E)) = Ok composed
               ∧ getTerminationEpoch composed = E)
  ∧ (∃ composed, composeTermination (Some U) None = Ok composed
                 ∧ getTerminationEpoch composed = epochOfU)
  ∧ (∃ composed, composeTermination (Some U) (Some (JNum E)) = Ok composed
                 ∧ getTerminationEpoch composed
                   = if notNaN epochOfU then epochOfU
                     else if hasTimeChild (Some U) then TUDAT_NAN else E).
Proof.
  intros epochOfU. split; [by exists (Time E)|].
  split; [by exists (asTerminationSettings U)|].
  unfold composeTermination.
  rewrite timeConditionMissingIn_hasTimeChild.
  destruct (hasTimeChild (Some U)) eqn:Hchild; simpl.
  - exists (asTerminationSettings U). split; [done|]. fold epochOfU.
    unfold notNaN. destruct (isNaN epochOfU) eqn:Hnan; simpl; [|done].
    by apply isNaN_true.
  - eexists. split; [done|]. rewrite getTerminationEpoch_hybrid.
    cbn [firstEpoch getTerminationEpoch]. fold epochOfU.
    unfold notNaN. destruct (isNaN epochOfU); simpl; [|done].
    destruct (isNaN E) eqn:HE; simpl; [|done]. by rewrite (isNaN_true E HE).
Qed.

(** ** More on the dependent variables to save *)

Section more_dependent_variables.

Variable getVariableId : SingleDependentVariableSaveSettings → string.

Abbreviation keep := (dependentVariablesToSave getVariableId).

Lemma requestedVariables_app first more :
  requestedVariables (first ++ more)
  = requestedVariables first ++ requestedVariables more.
Proof.
  unfold requestedVariables, dependentsOf. by rewrite bind_app, omap_app.
Qed.

Lemma foldl_addDependent_extends kept requested :
  ∃ added,
    foldl (addDependent getVariableId) kept requested = kept ++ added
    ∧ sublist added requested.
Proof.
  revert kept. induction requested as [|d requested IH]; intros kept; simpl.
  - exists []. by rewrite app_nil_r.
  - unfold addDependent at 2. case_bool_decide.
    + destruct (IH kept) as (added & -> & Hsub).
      exists added. split; [done|]. by apply sublist_cons.
    + destruct (IH (kept ++ [d])) as (added & -> & Hsub).
      exists (d :: added). rewrite <- app_assoc. split; [done|].
      by apply sublist_skip.
Qed.

Lemma foldl_addDependent_NoDup kept requested :
  NoDup (getVariableId <$> kept ++ requested) →
  foldl (addDependent getVariableId) kept requested = kept ++ requested.
Proof.
  revert kept. induction requested as [|d requested IH]; intros kept Hnodup; simpl.
  - by rewrite app_nil_r.
  - unfold addDependent at 2. rewrite bool_decide_false.
    + rewrite IH; [by rewrite <- app_assoc|]. by rewrite <- app_assoc.
    + rewrite fmap_app, fmap_cons in Hnodup.
      apply NoDup_app in Hnodup as (_ & Hdisjoint & _).
      intros Hin. apply (Hdisjoint _ Hin). left.
Qed.

Lemma dependentsOf_fmap dependentVariables :
  dependentsOf (DependentVariable <$> dependentVariables) = dependentVariables.
Proof.
  unfold dependentsOf. induction dependentVariables as [|d ds IH]; [done|].
  simpl. f_equal. exact IH.
Qed.

(** X5: export settings that come later never change what is kept of the
    earlier ones: the variables kept of a list of export settings begin
    with the variables kept of any beginning of the list, and what follows
    is a subsequence of the variables that the rest requests. *)
Theorem dependentVariablesToSave_extends (first more : list ExportSettings) :
  ∃ added,
    keep (first ++ more) = keep first ++ added
    ∧ sublist added (requestedVariables more).
Proof.
  rewrite !dependentVariablesToSave_requested, requestedVariables_app, foldl_app.
  apply foldl_addDependent_extends.
Qed.

(** X6: nothing is dropped or moved unless an identifier is requested more
    than once: the variables kept are the requested dependent variables,
    all of them and in their order, exactly when no two of these have the
    same identifier; and there are never more kept than requested. *)
Theorem dependentVariablesToSave_keeps_all_iff_distinct
    (exportSettingsVector : list ExportSettings) :
  (keep exportSettingsVector = requestedVariables exportSettingsVector
   ↔ NoDup (getVariableId <$> requestedVariables exportSettingsVector))
  ∧ length (keep exportSettingsVector)
    ≤ length (requestedVariables exportSettingsVector).
Proof.
  rewrite dependentVariablesToSave_requested.
  destruct (collected_foldl getVariableId (requestedVariables exportSettingsVector))
    as [Hnodup Hsub _ _].
  split; [split|].
  - intros Hall. by rewrite Hall in Hnodup.
  - intros Hdistinct. by apply (foldl_addDependent_NoDup []).
  - by apply sublist_length.
Qed.

(** X7: collecting once is enough: the variables kept, requested again by
    export settings of their own, are kept as they are. *)
Theorem dependentVariablesToSave_idempotent
    (exportSettingsVector : list ExportSettings) :
  keep [ {| variables_ := DependentVariable <$> keep exportSettingsVector |} ]
  = keep exportSettingsVector.
Proof.
  rewrite (dependentVariablesToSave_requested _ [_]).
  unfold requestedVariables at 1. simpl. rewrite app_nil_r, dependentsOf_fmap.
  apply (foldl_addDependent_NoDup []). simpl.
  rewrite dependentVariablesToSave_requested.
  by destruct (collected_foldl getVariableId
                 (requestedVariables exportSettingsVector)).
Qed.

End more_dependent_variables.

(** ** More on single-arc propagator settings *)

(** The keys that the encode of settings writes. *)
Definition encodedKeys {A M T} (settings : SingleArcPropagatorSettings A M T)
  : list string :=
  K.integratedStateType
  :: (if bool_decide (getInitialStates settings = []) then [] else [K.initialStates])
  ++ match settings with
     | TranslationalStatePropagatorSettings _ _ _ _ _ _ =>
         [K.type; K.centralBodies; K.bodiesToPropagate; K.accelerations]
     | MassPropagatorSettings _ _ _ _ => [K.bodiesToPropagate; K.massRateModels]
     | RotationalStatePropagatorSettings _ _ _ _ => [K.bodiesToPropagate; K.torques]
     | _ => []
     end.

(** The keys that the decode of a block reads. *)
Definition decodedKeys : list string :=
  [ K.integratedStateType; K.bodiesToPropagate; K.initialStates; K.centralBodies;
    K.accelerations; K.type; K.massRateModels; K.torques ].

(** Settings with the termination settings that a decode gives. *)
Definition withoutTermination {A M T} (settings : SingleArcPropagatorSettings A M T)
  : SingleArcPropagatorSettings A M T :=
  match settings with
  | TranslationalStatePropagatorSettings c a b s _ p =>
      TranslationalStatePropagatorSettings c a b s (Time TUDAT_NAN) p
  | MassPropagatorSettings b m s _ => MassPropagatorSettings b m s (Time TUDAT_NAN)
  | RotationalStatePropagatorSettings q b s _ =>
      RotationalStatePropagatorSettings q b s (Time TUDAT_NAN)
  | HybridPropagatorSettings s _ => HybridPropagatorSettings s (Time TUDAT_NAN)
  | CustomStatePropagatorSettings s _ =>
      CustomStatePropagatorSettings s (Time TUDAT_NAN)
  end.

(** Run the assignments of an encode, and the lookups of a decode. *)
Ltac steps :=
  repeat first
    [ rewrite Ok_bind
    | rewrite assign_null
    | rewrite assign_object
    | progress lookup_keys
    | progress cbv beta iota ].

Section more_single_arc_properties.

Context {SelectedAccelerationMap SelectedMassRateModelMap SelectedTorqueMap : Type}.
Context `{!FromJson SelectedAccelerationMap, !ToJson SelectedAccelerationMap}.
Context `{!FromJson SelectedMassRateModelMap, !ToJson SelectedMassRateModelMap}.
Context `{!FromJson SelectedTorqueMap, !ToJson SelectedTorqueMap}.

Abbreviation Arc :=
  (SingleArcPropagatorSettings SelectedAccelerationMap SelectedMassRateModelMap
     SelectedTorqueMap).

(** The encode of settings of the other two state types: the case
    [hybrid] of the [switch] ends the process, and the default case, which
    settings of the state type [custom_state] reach, throws. *)
Lemma SingleArc_to_json_unsupported (settings : Arc) :
  getStateType settings ∉ supportedIntegratedStateTypes →
  SingleArc_to_json settings
  = if decide (getStateType settings = hybrid) then Terminate
    else Err UnsupportedVariantError.
Proof.
  intros Hunsupported.
  destruct settings as [c a b s t p|b m s t|q b s t|s t|s t];
    try solve [destruct Hunsupported; repeat first [by left|right]];
    unfold SingleArc_to_json; cbn [getStateType getInitialStates].
  - change (enum_to_json integratedStateTypes hybrid) with (Ok (JStr "hybrid")).
    steps. case_bool_decide; by steps.
  - change (enum_to_json integratedStateTypes custom_state)
      with (Ok (JStr "custom")).
    steps. case_bool_decide; by steps.
Qed.

Lemma SingleArc_to_json_unsupported_not_Ok (settings : Arc) jsonObject :
  getStateType settings ∉ supportedIntegratedStateTypes →
  SingleArc_to_json settings ≠ Ok jsonObject.
Proof.
  intros Hunsupported. rewrite (SingleArc_to_json_unsupported _ Hunsupported).
  by case_decide.
Qed.

Lemma hybrid_not_supported : hybrid ∉ supportedIntegratedStateTypes.
Proof.
  unfold supportedIntegratedStateTypes. rewrite !not_elem_of_cons.
  repeat split; try discriminate. apply not_elem_of_nil.
Qed.

Lemma SingleArc_to_json_supported (settings : Arc) :
  getStateType settings ∈ supportedIntegratedStateTypes →
  ∃ members,
    SingleArc_to_json settings = Ok (JObj members)
    ∧ dom members = list_to_set (encodedKeys settings).
Proof.
  intros Hsupported.
  destruct settings as [c a b s t p|b m s t|q b s t|s t|s t];
    try absurd_member Hsupported.
  - destruct (SingleArc_to_json_translational
                (SelectedMassRateModelMap:=SelectedMassRateModelMap)
                (SelectedTorqueMap:=SelectedTorqueMap) c a b s t p)
      as (text & _ & ->).
    eexists. split; [done|]. unfold withInitialStates, encodedKeys.
    cbn [getInitialStates]. by destruct s.
  - rewrite SingleArc_to_json_mass.
    eexists. split; [done|]. unfold withInitialStates, encodedKeys.
    cbn [getInitialStates]. by destruct s.
  - rewrite SingleArc_to_json_rotational.
    eexists. split; [done|]. unfold withInitialStates, encodedKeys.
    cbn [getInitialStates]. by destruct s.
Qed.

(** X8: the encode of single-arc settings returns an object exactly for
    the three supported state types. For settings of the state type
    [hybrid] nothing is returned and nothing is thrown: the case ends in a
    bare [throw;], which ends the process. When the encode returns, it
    gives an object whose keys are the state type, the initial states if
    there are any, and the fields of the class of the settings, and no
    other key. *)
Theorem encode_succeeds_iff_supported_and_writes_its_keys (settings : Arc) :
  ((∃ jsonObject, SingleArc_to_json settings = Ok jsonObject)
   ↔ getStateType settings ∈ supportedIntegratedStateTypes)
  ∧ (getStateType settings = hybrid → SingleArc_to_json settings = Terminate)
  ∧ ∀ jsonObject, SingleArc_to_json settings = Ok jsonObject →
      ∃ members, jsonObject = JObj members
                 ∧ ∀ key, is_Some (members !! key) ↔ key ∈ encodedKeys settings.
Proof.
  split; [split|split].
  - intros [jsonObject Hencoded].
    destruct (decide (getStateType settings ∈ supportedIntegratedStateTypes))
      as [|Hunsupported]; [done|].
    by apply SingleArc_to_json_unsupported_not_Ok in Hencoded.
  - intros (members & Hencoded & _)%SingleArc_to_json_supported. by eexists.
  - intros Hhybrid. rewrite SingleArc_to_json_unsupported.
    + by rewrite decide_True.
    + rewrite Hhybrid. apply hybrid_not_supported.
  - intros jsonObject Hencoded.
    destruct (decide (getStateType settings ∈ supportedIntegratedStateTypes))
      as [Hsupported|Hunsupported].
    + destruct (SingleArc_to_json_supported _ Hsupported)
        as (members & Hmembers & Hdom).
      exists members. split; [congruence|]. intros key.
      by rewrite <- elem_of_dom, Hdom, elem_of_list_to_set.
    + by apply SingleArc_to_json_unsupported_not_Ok in Hencoded.
Qed.

(** A block decodes as it would without a field that the decode does not
    read. *)
Lemma SingleArc_from_json_insert_unread key value members :
  key ∉ decodedKeys →
  SingleArc_from_json (JObj (<[ key := value ]> members))
  = SingleArc_from_json (SelectedAccelerationMap:=SelectedAccelerationMap)
      (SelectedMassRateModelMap:=SelectedMassRateModelMap)
      (SelectedTorqueMap:=SelectedTorqueMap) (JObj members).
Proof.
  intros Hkey.
  assert (∀ read, read ∈ decodedKeys → key ≠ read) as Hne.
  { intros read Hread ->. by apply Hkey. }
  unfold SingleArc_from_json, getValueOr, getValue, convert.
  rewrite !getNode_member.
  rewrite !lookup_insert_ne by (apply Hne; repeat first [by left|right]).
  done.
Qed.

Lemma SingleArc_from_json_delete_unread key members :
  key ∉ decodedKeys →
  SingleArc_from_json (JObj (delete key members))
  = SingleArc_from_json (SelectedAccelerationMap:=SelectedAccelerationMap)
      (SelectedMassRateModelMap:=SelectedMassRateModelMap)
      (SelectedTorqueMap:=SelectedTorqueMap) (JObj members).
Proof.
  intros Hkey.
  assert (∀ read, read ∈ decodedKeys → key ≠ read) as Hne.
  { intros read Hread ->. by apply Hkey. }
  unfold SingleArc_from_json, getValueOr, getValue, convert.
  rewrite !getNode_member.
  rewrite !lookup_delete_ne by (apply Hne; repeat first [by left|right]).
  done.
Qed.

(** X9: the decode of a block reads eight keys and nothing else of the
    block: a member under any other key can be added, replaced or removed
    without a change of the result, be it settings or a failure. *)
Theorem decode_reads_its_keys_only (key : string) (value : json)
    (members : gmap string json) :
  key ∉ decodedKeys →
  SingleArc_from_json (JObj (<[ key := value ]> members))
  = SingleArc_from_json (SelectedAccelerationMap:=SelectedAccelerationMap)
      (SelectedMassRateModelMap:=SelectedMassRateModelMap)
      (SelectedTorqueMap:=SelectedTorqueMap) (JObj members)
  ∧ SingleArc_from_json (JObj (delete key members))
    = SingleArc_from_json (SelectedAccelerationMap:=SelectedAccelerationMap)
        (SelectedMassRateModelMap:=SelectedMassRateModelMap)
        (SelectedTorqueMap:=SelectedTorqueMap) (JObj members).
Proof.
  intros Hkey. split.
  - by apply SingleArc_from_json_insert_unread.
  - by apply SingleArc_from_json_delete_unread.
Qed.


Section encode_decode.

Context `{!JsonRoundTrip SelectedAccelerationMap,
          !JsonRoundTrip SelectedMassRateModelMap,
          !JsonRoundTrip SelectedTorqueMap}.

Lemma SingleArc_from_to_json (settings : Arc) :
  getStateType settings ∈ supportedIntegratedStateTypes →
  getInitialStates settings ≠ [] →
  SingleArc_to_json settings ≫= SingleArc_from_json
  = Ok (withoutTermination settings).
Proof.
  intros Hsupported Hstates.
  destruct settings as [c a b s t p|b m s t|q b s t|s t|s t];
    try absurd_member Hsupported; cbn [getInitialStates] in Hstates.
  - destruct (SingleArc_to_json_translational
                (SelectedMassRateModelMap:=SelectedMassRateModelMap)
                (SelectedTorqueMap:=SelectedTorqueMap) c a b s t p)
      as (text & Htext & ->).
    rewrite Ok_bind. unfold SingleArc_from_json, getValueOr, getValue, convert.
    steps. rewrite (withInitialStates_lookup_ne _ _ K.integratedStateType) by done.
    steps. change (from_json (JStr "translational")) with (Ok translational_state).
    rewrite withInitialStates_lookup by done.
    rewrite !from_to_json, Htext. by steps.
  - rewrite SingleArc_to_json_mass.
    rewrite Ok_bind. unfold SingleArc_from_json, getValueOr, getValue, convert.
    steps. rewrite (withInitialStates_lookup_ne _ _ K.integratedStateType) by done.
    steps. change (from_json (JStr "mass")) with (Ok body_mass_state).
    rewrite withInitialStates_lookup by done.
    rewrite !from_to_json. by steps.
  - rewrite SingleArc_to_json_rotational.
    rewrite Ok_bind. unfold SingleArc_from_json, getValueOr, getValue, convert.
    steps. rewrite (withInitialStates_lookup_ne _ _ K.integratedStateType) by done.
    steps. change (from_json (JStr "rotational")) with (Ok rotational_state).
    rewrite withInitialStates_lookup by done.
    rewrite !from_to_json. by steps.
Qed.

(** X11: the encode does not write the termination settings, and nothing
    else is lost: settings of a supported state type that have initial
    states are encoded into a block that decodes to the same settings but
    for the termination settings, which are the time condition of epoch
    [TUDAT_NAN] whatever they were. *)
Theorem encode_decode_keeps_all_but_termination (settings : Arc) :
  getStateType settings ∈ supportedIntegratedStateTypes →
  getInitialStates settings ≠ [] →
  ∃ encoded,
    SingleArc_to_json settings = Ok encoded
    ∧ SingleArc_from_json encoded = Ok (withoutTermination settings)
    ∧ getTerminationSettings (withoutTermination settings) = Time TUDAT_NAN
    ∧ getStateType (withoutTermination settings) = getStateType settings
    ∧ getBodies (withoutTermination settings) = getBodies settings
    ∧ getInitialStates (withoutTermination settings) = getInitialStates settings.
Proof.
  intros Hsupported Hstates.
  pose proof (SingleArc_from_to_json settings Hsupported Hstates) as Hround.
  apply bind_Ok in Hround as (encoded & Hencoded & Hdecoded).
  exists encoded. split; [done|]. split; [done|].
  by destruct settings.
Qed.

End encode_decode.

End more_single_arc_properties.

Lemma encode_succeeds_iff_supported_and_writes_its_keys_witness :
  getStateType (HybridPropagatorSettings [] (Time zero) : NodeSettings) = hybrid
  ∧ SingleArc_to_json (HybridPropagatorSettings [] (Time zero) : NodeSettings)
    = Terminate.
Proof.
  assert (getStateType (HybridPropagatorSettings [] (Time zero) : NodeSettings)
          = hybrid) as Hhybrid by reflexivity.
  split; [exact Hhybrid|].
  exact (proj1 (proj2 (encode_succeeds_iff_supported_and_writes_its_keys
                         (HybridPropagatorSettings [] (Time zero) : NodeSettings)))
           Hhybrid).
Defined.

Lemma decode_reads_its_keys_only_witness :
  ("comment" ∉ decodedKeys)
  ∧ SingleArc_from_json (SelectedAccelerationMap:=json)
      (SelectedMassRateModelMap:=json) (SelectedTorqueMap:=json)
      (JObj (<[ "comment" := JStr "lunar orbit" ]> (list_to_map
         [ ("bodiesToPropagate", JArr [JStr "Moon"]) ])))
    = SingleArc_from_json
        (JObj (list_to_map [ ("bodiesToPropagate", JArr [JStr "Moon"]) ])).
Proof.
  assert ("comment" ∉ decodedKeys) as Hkey.
  { unfold decodedKeys. rewrite !not_elem_of_cons.
    repeat split; try discriminate. apply not_elem_of_nil. }
  split; [exact Hkey|].
  exact (proj1 (decode_reads_its_keys_only (SelectedAccelerationMap:=json)
                  (SelectedMassRateModelMap:=json) (SelectedTorqueMap:=json)
                  "comment" (JStr "lunar orbit")
                  (list_to_map [ ("bodiesToPropagate", JArr [JStr "Moon"]) ])
                  Hkey)).
Defined.


(** Rotational settings for one body that end at epoch 5. *)
Definition settingsOfSeven : NodeSettings :=
  RotationalStatePropagatorSettings (object []) ["Moon"]
    (double_of_pos <$> [1; 2; 3; 4; 5; 6; 7]%positive) (Time (double_of_pos 5)).

Lemma encode_decode_keeps_all_but_termination_witness :
  getStateType settingsOfSeven ∈ supportedIntegratedStateTypes
  ∧ getInitialStates settingsOfSeven ≠ []
  ∧ ∃ encoded,
      SingleArc_to_json settingsOfSeven = Ok encoded
      ∧ SingleArc_from_json encoded = Ok (withoutTermination settingsOfSeven).
Proof.
  assert (getStateType settingsOfSeven ∈ supportedIntegratedStateTypes)
    as Hsupported.
  { right. left. }
  assert (getInitialStates settingsOfSeven ≠ []) as Hstates by discriminate.
  split; [exact Hsupported|]. split; [exact Hstates|].
  destruct (encode_decode_keeps_all_but_termination settingsOfSeven Hsupported
              Hstates) as (encoded & Hencoded & Hdecoded & _).
  exists encoded. split; [exact Hencoded|exact Hdecoded].
Defined.

(** ** Multi-type propagator settings *)

Lemma forEach_Ok {A B} (body : A → result B) l l' :
  Forall2 (λ x y, body x = Ok y) l l' → forEach body l = Ok l'.
Proof.
  induction 1 as [|x y l l' Hxy _ IH]; [done|].
  cbn [forEach]. by rewrite Hxy, Ok_bind, IH.
Qed.

Lemma forEach_first_Err {A B} (body : A → result B) good bad rest e :
  Forall (λ x, ∃ y, body x = Ok y) good →
  body bad = Err e →
  forEach body (good ++ bad :: rest) = Err e.
Proof.
  intros Hgood Hbad. induction Hgood as [|x good [y Hx] _ IH]; simpl.
  - by rewrite Hbad.
  - by rewrite Hx, Ok_bind, IH.
Qed.

Lemma forEach_first_Terminate {A B} (body : A → result B) good bad rest :
  Forall (λ x, ∃ y, body x = Ok y) good →
  body bad = Terminate →
  forEach body (good ++ bad :: rest) = Terminate.
Proof.
  intros Hgood Hbad. induction Hgood as [|x good [y Hx] _ IH]; simpl.
  - by rewrite Hbad.
  - by rewrite Hx, Ok_bind, IH.
Qed.

Lemma forEach_first_not_Ok {A B} (body : A → result B) good bad rest l :
  Forall (λ x, ∃ y, body x = Ok y) good →
  (∀ y, body bad ≠ Ok y) →
  forEach body (good ++ bad :: rest) ≠ Ok l.
Proof.
  intros Hgood Hbad H. destruct (body bad) as [y|e|] eqn:Hbody.
  - by destruct (Hbad y).
  - by rewrite (forEach_first_Err _ _ _ _ e) in H.
  - by rewrite forEach_first_Terminate in H.
Qed.

Section multi_type_properties.

Context {SelectedAccelerationMap SelectedMassRateModelMap SelectedTorqueMap : Type}.
Context `{!FromJson SelectedAccelerationMap, !FromJson SelectedMassRateModelMap,
          !FromJson SelectedTorqueMap, !FromJson HybridTerminationSettings}.

Abbreviation Multi :=
  (MultiTypePropagatorSettings (SelectedAccelerationMap:=SelectedAccelerationMap)
     (SelectedMassRateModelMap:=SelectedMassRateModelMap)
     (SelectedTorqueMap:=SelectedTorqueMap)).

(** The user conditions as [MultiType_from_json] reads them. *)
Definition userConditionsOf (jsonObject : json)
  : result (option HybridTerminationSettings) :=
  if isDefined jsonObject [Keys.termination]
  then Some <$> getValue (A:=HybridTerminationSettings) jsonObject [Keys.termination]
  else Ok None.

(** X12: multi-type settings are decoded from an array of blocks, one
    single-arc settings for each block and in the order of the blocks;
    each of these carries the time condition of epoch [TUDAT_NAN], the
    settings have no dependent variables to save, and their print interval
    is the one of the options, or [TUDAT_NAN] when the options have
    none. *)
Theorem MultiType_from_json_decodes_blocks_in_order (jsonObject : json)
    (settings : Multi) :
  MultiType_from_json jsonObject = Ok settings →
  (∃ blocks,
     getNode jsonObject [Keys.propagators] = Some (JArr blocks)
     ∧ Forall2 (λ block arc, SingleArc_from_json block = Ok arc)
         blocks (propagatorSettingsVector settings))
  ∧ Forall (λ arc, getTerminationSettings arc = Time TUDAT_NAN)
      (propagatorSettingsVector settings)
  ∧ dependentVariablesToSave_ settings = None
  ∧ getValueOr jsonObject [Keys.options; Keys.Options.printInterval] TUDAT_NAN
    = Ok (printInterval_ settings)
  ∧ (getNode jsonObject [Keys.options; Keys.Options.printInterval] = None →
     printInterval_ settings = TUDAT_NAN).
Proof.
  unfold MultiType_from_json. intros H.
  apply bind_Ok in H as (userConditions & _ & H).
  apply bind_Ok in H as (terminationSettings & _ & H).
  apply bind_Ok in H as (propagators & Hpropagators & H).
  apply bind_Ok in H as (printInterval & Hinterval & H).
  injection H as <-. cbn [propagatorSettingsVector dependentVariablesToSave_
                           printInterval_].
  unfold getValue, convert in Hpropagators.
  destruct (getNode jsonObject [Keys.propagators]) as [node|] eqn:Hnode;
    [|discriminate].
  unfold from_json, SingleArcs_from_json, vector_from_json in Hpropagators.
  destruct node as [| | | |blocks|]; try discriminate.
  apply forEach_Forall2 in Hpropagators.
  split; [by exists blocks|]. split; [|split; [done|split; [done|]]].
  - apply Forall_forall. intros arc Harc.
    apply list_elem_of_lookup in Harc as [i Hi].
    destruct (Forall2_lookup_r _ _ _ _ _ Hpropagators Hi) as (block & _ & Hblock).
    apply SingleArc_from_json_Ok in Hblock
      as (bodies & states & _ & _ & [(c & a & p & ->)|[(m & ->)|(q & ->)]]); done.
  - intros Hnone. unfold getValueOr in Hinterval. rewrite Hnone in Hinterval.
    by injection Hinterval as <-.
Qed.

(** X13: there are no multi-type settings of a part of the blocks: when a
    block is not decoded and the blocks before it are, no multi-type
    settings are decoded. With the termination settings composed and a
    print interval that can be read, the decode ends as the decode of that
    block ends: with the exception of the block, or with the end of the
    process. (The propagators and the print interval are arguments of
    one call; when neither can be read, the language leaves open which of
    the two failures is the one reported, and nothing is said of it
    here.) *)
Theorem MultiType_from_json_fails_with_its_first_failing_block
    (jsonObject : json) (good : list json) (bad : json) (rest : list json) :
  getNode jsonObject [Keys.propagators] = Some (JArr (good ++ bad :: rest)) →
  Forall (λ block,
            ∃ arc : SingleArcPropagatorSettings SelectedAccelerationMap
                      SelectedMassRateModelMap SelectedTorqueMap,
              SingleArc_from_json block = Ok arc) good →
  (∀ arc : SingleArcPropagatorSettings SelectedAccelerationMap
             SelectedMassRateModelMap SelectedTorqueMap,
     SingleArc_from_json bad ≠ Ok arc) →
  (∀ settings : Multi, MultiType_from_json jsonObject ≠ Ok settings)
  ∧ ∀ userConditions composed printInterval,
      userConditionsOf jsonObject = Ok userConditions →
      composeTermination userConditions (getNode jsonObject [Keys.finalEpoch])
      = Ok composed →
      getValueOr jsonObject [Keys.options; Keys.Options.printInterval] TUDAT_NAN
      = Ok printInterval →
      (∀ e,
         SingleArc_from_json (SelectedAccelerationMap:=SelectedAccelerationMap)
           (SelectedMassRateModelMap:=SelectedMassRateModelMap)
           (SelectedTorqueMap:=SelectedTorqueMap) bad = Err e →
         MultiType_from_json (SelectedAccelerationMap:=SelectedAccelerationMap)
           (SelectedMassRateModelMap:=SelectedMassRateModelMap)
           (SelectedTorqueMap:=SelectedTorqueMap) jsonObject
         = Err e)
      ∧ (SingleArc_from_json (SelectedAccelerationMap:=SelectedAccelerationMap)
           (SelectedMassRateModelMap:=SelectedMassRateModelMap)
           (SelectedTorqueMap:=SelectedTorqueMap) bad = Terminate →
         MultiType_from_json (SelectedAccelerationMap:=SelectedAccelerationMap)
           (SelectedMassRateModelMap:=SelectedMassRateModelMap)
           (SelectedTorqueMap:=SelectedTorqueMap) jsonObject
         = Terminate).
Proof.
  intros Hnode Hgood Hbad. split.
  - intros settings H. unfold MultiType_from_json in H.
    apply bind_Ok in H as (userConditions & _ & H).
    apply bind_Ok in H as (terminationSettings & _ & H).
    apply bind_Ok in H as (propagators & Hok & _).
    unfold getValue, convert in Hok. rewrite Hnode in Hok.
    by apply (forEach_first_not_Ok SingleArc_from_json) in Hok.
  - intros userConditions composed printInterval Huser Hcomposed Hinterval.
    assert (getValue (A:=list (SingleArcPropagatorSettings
                                 SelectedAccelerationMap SelectedMassRateModelMap
                                 SelectedTorqueMap))
              jsonObject [Keys.propagators]
            = forEach SingleArc_from_json (good ++ bad :: rest)) as Hread.
    { unfold getValue, convert. by rewrite Hnode. }
    unfold MultiType_from_json. fold (userConditionsOf jsonObject).
    rewrite Huser, Ok_bind, Hcomposed, Ok_bind, Hread. split.
    + intros e He.
      by rewrite (forEach_first_Err SingleArc_from_json good bad rest e).
    + intros He.
      by rewrite (forEach_first_Terminate SingleArc_from_json good bad rest).
Qed.

(** X14: the termination settings come first. A configuration that
    defines neither termination settings nor a final epoch fails to decode
    with [MissingTerminationError], whatever its propagators and its
    options are. With composed termination settings and a print interval
    that can be read, a configuration without propagators fails with the
    lookup of the propagators, and one whose propagators are not an array
    fails with [TypeMismatchError]. (The propagators and the print
    interval are arguments of one call; when neither can be read, the
    language leaves open which of the two failures is the one reported,
    and nothing is said of it here.) *)
Theorem MultiType_from_json_requires_termination_then_propagators
    (jsonObject : json) :
  (getNode jsonObject [Keys.termination] = None →
   getNode jsonObject [Keys.finalEpoch] = None →
   MultiType_from_json (SelectedAccelerationMap:=SelectedAccelerationMap)
     (SelectedMassRateModelMap:=SelectedMassRateModelMap)
     (SelectedTorqueMap:=SelectedTorqueMap) jsonObject
   = Err MissingTerminationError)
  ∧ ∀ userConditions composed printInterval,
      userConditionsOf jsonObject = Ok userConditions →
      composeTermination userConditions (getNode jsonObject [Keys.finalEpoch])
      = Ok composed →
      getValueOr jsonObject [Keys.options; Keys.Options.printInterval] TUDAT_NAN
      = Ok printInterval →
      (getNode jsonObject [Keys.propagators] = None →
       MultiType_from_json (SelectedAccelerationMap:=SelectedAccelerationMap)
         (SelectedMassRateModelMap:=SelectedMassRateModelMap)
         (SelectedTorqueMap:=SelectedTorqueMap) jsonObject
       = Err (UndefinedKeyError [Keys.propagators]))
      ∧ (∀ node, getNode jsonObject [Keys.propagators] = Some node →
           (∀ blocks, node ≠ JArr blocks) →
           MultiType_from_json (SelectedAccelerationMap:=SelectedAccelerationMap)
             (SelectedMassRateModelMap:=SelectedMassRateModelMap)
             (SelectedTorqueMap:=SelectedTorqueMap) jsonObject
           = Err TypeMismatchError).
Proof.
  split.
  - intros Htermination%isDefined_false Hfinal. unfold MultiType_from_json.
    by rewrite Htermination, Hfinal.
  - intros userConditions composed printInterval Huser Hcomposed Hinterval.
    assert (∀ e,
      getValue (A:=list (SingleArcPropagatorSettings SelectedAccelerationMap
                           SelectedMassRateModelMap SelectedTorqueMap))
        jsonObject [Keys.propagators] = Err e →
      MultiType_from_json (SelectedAccelerationMap:=SelectedAccelerationMap)
        (SelectedMassRateModelMap:=SelectedMassRateModelMap)
        (SelectedTorqueMap:=SelectedTorqueMap) jsonObject = Err e) as Hfails.
    { intros e He. unfold MultiType_from_json. fold (userConditionsOf jsonObject).
      by rewrite Huser, Ok_bind, Hcomposed, Ok_bind, He. }
    split.
    + intros Hnone. apply Hfails. unfold getValue, convert. by rewrite Hnone.
    + intros node Hsome Hnode. apply Hfails. unfold getValue, convert.
      rewrite Hsome. unfold from_json, SingleArcs_from_json, vector_from_json.
      destruct node as [| | | |blocks|]; try done. by destruct (Hnode blocks).
Qed.

End multi_type_properties.

(** User conditions given as an array of epochs: any of the time
    conditions of these epochs. *)
#[local] Instance epochs_from_json : FromJson HybridTerminationSettings :=
  λ node,
    epochs ← from_json (A:=VectorX) node;
    Ok {| terminationSettings_ := Time <$> epochs;
          fulfillSingleCondition_ := true |}.

Definition moonSettings : MultiTypePropagatorSettings :=
  {| propagatorSettingsVector :=
       [ TranslationalStatePropagatorSettings ["Earth"] (object []) ["Moon"]
           (double_of_pos <$> [1; 2; 3; 4; 5; 6]%positive) (Time TUDAT_NAN) cowell
         : NodeSettings ];
     multiTerminationSettings := Time (double_of_pos 5);
     dependentVariablesToSave_ := None;
     printInterval_ := TUDAT_NAN |}.

Lemma MultiType_from_json_decodes_blocks_in_order_witness :
  MultiType_from_json (moonConfiguration moonPropagatorFilled) = Ok moonSettings
  ∧ Forall (λ arc, getTerminationSettings arc = Time TUDAT_NAN)
      (propagatorSettingsVector moonSettings)
  ∧ printInterval_ moonSettings = TUDAT_NAN.
Proof.
  assert (MultiType_from_json (moonConfiguration moonPropagatorFilled)
          = Ok moonSettings) as Hdecoded.
  { vm_compute. reflexivity. }
  split; [exact Hdecoded|].
  destruct (MultiType_from_json_decodes_blocks_in_order
              (moonConfiguration moonPropagatorFilled) moonSettings Hdecoded)
    as (_ & Harcs & _ & _ & Hinterval).
  split; [exact Harcs|]. apply Hinterval. reflexivity.
Defined.

(** A configuration whose second propagator is tagged [hybrid]. *)
Definition configurationWithHybrid : json :=
  object [ ("finalEpoch", number 5);
           ("propagators", JArr ([blockOfSix] ++ blockOfHybrid :: [])) ].

Lemma MultiType_from_json_fails_with_its_first_failing_block_witness :
  SingleArc_from_json (SelectedAccelerationMap:=json)
    (SelectedMassRateModelMap:=json) (SelectedTorqueMap:=json) blockOfHybrid
  = Terminate
  ∧ getValueOr configurationWithHybrid [Keys.options; Keys.Options.printInterval]
      TUDAT_NAN = Ok TUDAT_NAN
  ∧ MultiType_from_json (SelectedAccelerationMap:=json)
      (SelectedMassRateModelMap:=json) (SelectedTorqueMap:=json)
      configurationWithHybrid
    = Terminate.
Proof.
  assert (SingleArc_from_json (SelectedAccelerationMap:=json)
            (SelectedMassRateModelMap:=json) (SelectedTorqueMap:=json)
            blockOfHybrid = Terminate) as Hbad.
  { vm_compute. reflexivity. }
  assert (getValueOr configurationWithHybrid
            [Keys.options; Keys.Options.printInterval] TUDAT_NAN = Ok TUDAT_NAN)
    as Hinterval.
  { vm_compute. reflexivity. }
  assert (∀ arc : NodeSettings, SingleArc_from_json blockOfHybrid ≠ Ok arc)
    as Hnone.
  { intros arc. rewrite Hbad. discriminate. }
  split; [exact Hbad|]. split; [exact Hinterval|].
  refine (proj2 (proj2 (MultiType_from_json_fails_with_its_first_failing_block
    configurationWithHybrid [blockOfSix] blockOfHybrid [] _ _ Hnone)
    None (Time (double_of_pos 5)) TUDAT_NAN _ _ Hinterval) Hbad).
  - reflexivity.
  - constructor; [|constructor]. exists settingsOfSix. vm_compute. reflexivity.
  - reflexivity.
  - reflexivity.
Defined.

Lemma MultiType_from_json_requires_termination_then_propagators_witness :
  let configuration := object [ ("finalEpoch", number 5) ] in
  userConditionsOf configuration = Ok None
  ∧ composeTermination None (getNode configuration [Keys.finalEpoch])
    = Ok (Time (double_of_pos 5))
  ∧ getValueOr configuration [Keys.options; Keys.Options.printInterval] TUDAT_NAN
    = Ok TUDAT_NAN
  ∧ getNode configuration [Keys.propagators] = None
  ∧ MultiType_from_json (SelectedAccelerationMap:=json)
      (SelectedMassRateModelMap:=json) (SelectedTorqueMap:=json) configuration
    = Err (UndefinedKeyError [Keys.propagators]).
Proof.
  intros configuration.
  assert (userConditionsOf configuration = Ok None) as Huser by reflexivity.
  assert (composeTermination None (getNode configuration [Keys.finalEpoch])
          = Ok (Time (double_of_pos 5))) as Hcomposed by reflexivity.
  assert (getValueOr configuration [Keys.options; Keys.Options.printInterval]
            TUDAT_NAN = Ok TUDAT_NAN) as Hinterval by reflexivity.
  assert (getNode configuration [Keys.propagators] = None) as Hnone
    by reflexivity.
  split; [exact Huser|]. split; [exact Hcomposed|].
  split; [exact Hinterval|]. split; [exact Hnone|].
  exact (proj1 (proj2 (MultiType_from_json_requires_termination_then_propagators
                         (SelectedAccelerationMap:=json)
                         (SelectedMassRateModelMap:=json)
                         (SelectedTorqueMap:=json) configuration)
                  None (Time (double_of_pos 5)) TUDAT_NAN Huser Hcomposed
                  Hinterval) Hnone).
Defined.

Section multi_type_encode_properties.

Context {SelectedAccelerationMap SelectedMassRateModelMap SelectedTorqueMap : Type}.
Context `{!FromJson SelectedAccelerationMap, !ToJson SelectedAccelerationMap}.
Context `{!FromJson SelectedMassRateModelMap, !ToJson SelectedMassRateModelMap}.
Context `{!FromJson SelectedTorqueMap, !ToJson SelectedTorqueMap}.
Context `{!ToJson PropagationTerminationSettings}.

Abbreviation Arcs :=
  (list (SingleArcPropagatorSettings SelectedAccelerationMap
           SelectedMassRateModelMap SelectedTorqueMap)).

(** What an encode of multi-type settings gives. *)
Lemma MultiType_to_json_Ok (propagatorSettingsMap_ : list (IntegratedStateType * Arcs))
    (terminationSettings : PropagationTerminationSettings) (printInterval : double)
    (jsonObject : json) :
  MultiType_to_json propagatorSettingsMap_ terminationSettings printInterval
  = Ok jsonObject →
  ∃ blocks,
    forEach SingleArc_to_json (getFlattenedMapValues propagatorSettingsMap_)
    = Ok blocks
    ∧ jsonObject
      = JObj ((if isNaN printInterval then id
               else insert Keys.options
                      (JObj {[ Keys.Options.printInterval := JNum printInterval ]}))
                (<[ Keys.termination := to_json terminationSettings ]>
                   {[ Keys.propagators := JArr blocks ]})).
Proof.
  unfold MultiType_to_json. intros H.
  apply bind_Ok in H as (blocks & Hblocks & H).
  rewrite assign_null, Ok_bind, assign_object, Ok_bind in H.
  exists blocks. split; [done|].
  destruct (isNaN printInterval); simpl in H.
  - by injection H as <-.
  - unfold assignIn in H. rewrite lookup_insert_ne in H by done.
    rewrite lookup_singleton_ne in H by done. simpl in H. by injection H as <-.
Qed.

(** X15: the print interval survives an encode and a decode, a NaN by not
    being written: the options of the encoded settings exist exactly when
    the print interval is not a NaN, and the print interval read from the
    encoded settings, with the default [TUDAT_NAN] of the decode, is the
    one of the settings. The termination settings are always written. *)
Theorem MultiType_to_json_print_interval
    (propagatorSettingsMap_ : list (IntegratedStateType * Arcs))
    (terminationSettings : PropagationTerminationSettings) (printInterval : double)
    (jsonObject : json) :
  MultiType_to_json propagatorSettingsMap_ terminationSettings printInterval
  = Ok jsonObject →
  isDefined jsonObject [Keys.options] = negb (isNaN printInterval)
  ∧ getValueOr jsonObject [Keys.options; Keys.Options.printInterval] TUDAT_NAN
    = Ok printInterval
  ∧ getNode jsonObject [Keys.termination] = Some (to_json terminationSettings).
Proof.
  intros (blocks & _ & ->)%MultiType_to_json_Ok.
  destruct (isNaN printInterval) eqn:Hnan; simpl.
  - rewrite (isNaN_true _ Hnan). done.
  - done.
Qed.

Lemma forEach_supported (arcs : Arcs) :
  Forall (λ arc, getStateType arc ∈ supportedIntegratedStateTypes) arcs →
  ∃ blocks, forEach SingleArc_to_json arcs = Ok blocks.
Proof.
  intros Hall. induction Hall as [|arc rest Harc _ [blocks IH]]; [by exists []|].
  destruct (SingleArc_to_json_supported arc Harc) as (members & Hmembers & _).
  eexists. cbn [forEach]. by rewrite Hmembers, Ok_bind, IH.
Qed.

Lemma forEach_unsupported (arcs : Arcs) blocks :
  ¬ Forall (λ arc, getStateType arc ∈ supportedIntegratedStateTypes) arcs →
  forEach SingleArc_to_json arcs ≠ Ok blocks.
Proof.
  intros Hnot. revert blocks. induction arcs as [|arc rest IH]; intros blocks;
    [by destruct Hnot|].
  cbn [forEach].
  destruct (decide (getStateType arc ∈ supportedIntegratedStateTypes))
    as [Harc|Harc].
  - destruct (SingleArc_to_json_supported arc Harc) as (members & -> & _).
    rewrite Ok_bind. intros (encoded & Hrest & _)%bind_Ok. revert Hrest.
    apply IH. intros Hrest. apply Hnot. by constructor.
  - intros (block & Hblock & _)%bind_Ok.
    by apply SingleArc_to_json_unsupported_not_Ok in Hblock.
Qed.

Lemma forEach_hybrid (good : Arcs)
    (bad : SingleArcPropagatorSettings SelectedAccelerationMap
             SelectedMassRateModelMap SelectedTorqueMap) (rest : Arcs) :
  Forall (λ arc, getStateType arc ∈ supportedIntegratedStateTypes) good →
  getStateType bad = hybrid →
  forEach SingleArc_to_json (good ++ bad :: rest) = Terminate.
Proof.
  intros Hgood Hbad. apply forEach_first_Terminate.
  - eapply Forall_impl; [exact Hgood|]. intros arc Harc. simpl.
    destruct (SingleArc_to_json_supported arc Harc) as (members & -> & _).
    by eexists.
  - rewrite SingleArc_to_json_unsupported.
    + by rewrite decide_True.
    + rewrite Hbad. apply hybrid_not_supported.
Qed.

(** X16: multi-type settings are encoded exactly when each of their
    single-arc settings has a supported state type. When the first of the
    single-arc settings that has none is of the state type [hybrid], the
    encode returns nothing and throws nothing: it ends the process. The
    encoded propagators are the encoded single-arc settings, in the order
    of the map of the settings. *)
Theorem MultiType_to_json_iff_all_supported
    (propagatorSettingsMap_ : list (IntegratedStateType * Arcs))
    (terminationSettings : PropagationTerminationSettings)
    (printInterval : double) :
  let arcs := getFlattenedMapValues propagatorSettingsMap_ in
  ((∃ jsonObject,
      MultiType_to_json propagatorSettingsMap_ terminationSettings printInterval
      = Ok jsonObject)
   ↔ Forall (λ arc, getStateType arc ∈ supportedIntegratedStateTypes) arcs)
  ∧ (∀ good bad rest,
       arcs = good ++ bad :: rest →
       Forall (λ arc, getStateType arc ∈ supportedIntegratedStateTypes) good →
       getStateType bad = hybrid →
       MultiType_to_json propagatorSettingsMap_ terminationSettings printInterval
       = Terminate)
  ∧ ∀ jsonObject,
      MultiType_to_json propagatorSettingsMap_ terminationSettings printInterval
      = Ok jsonObject →
      ∃ blocks,
        getNode jsonObject [Keys.propagators] = Some (JArr blocks)
        ∧ Forall2 (λ arc block, SingleArc_to_json arc = Ok block) arcs blocks.
Proof.
  intros arcs.
  pose proof (forEach_supported arcs) as Hall.
  split; [split|split].
  - intros [jsonObject (blocks & Hblocks & _)%MultiType_to_json_Ok].
    destruct (decide (Forall (λ arc, getStateType arc ∈ supportedIntegratedStateTypes)
                        arcs)) as [|Hnot]; [done|].
    fold arcs in Hblocks. by apply forEach_unsupported in Hblocks.
  - intros [blocks Hblocks]%Hall. unfold MultiType_to_json. fold arcs.
    rewrite Hblocks, Ok_bind, assign_null, Ok_bind, assign_object, Ok_bind.
    destruct (negb (isNaN printInterval)); [|by eexists].
    unfold assignIn. rewrite lookup_insert_ne by done.
    rewrite lookup_singleton_ne by done. by eexists.
  - intros good bad rest Harcs Hgood Hbad. unfold MultiType_to_json. fold arcs.
    by rewrite Harcs, (forEach_hybrid good bad rest Hgood Hbad).
  - intros jsonObject (blocks & Hblocks & ->)%MultiType_to_json_Ok.
    exists blocks. split; [|by apply forEach_Forall2].
    destruct (isNaN printInterval); simpl.
    + by rewrite lookup_insert_ne, lookup_singleton_eq.
    + rewrite lookup_insert_ne by done.
      by rewrite lookup_insert_ne, lookup_singleton_eq.
Qed.

Section multi_type_round_trip.

Context `{!JsonRoundTrip SelectedAccelerationMap,
          !JsonRoundTrip SelectedMassRateModelMap,
          !JsonRoundTrip SelectedTorqueMap}.

(** X17: the propagators of encoded multi-type settings decode to the
    single-arc settings in the order of the map of the settings, each with
    its own fields and with the time condition of epoch [TUDAT_NAN] for
    termination settings, provided that each has initial states. *)
Theorem MultiType_to_json_propagators_decode
    (propagatorSettingsMap_ : list (IntegratedStateType * Arcs))
    (terminationSettings : PropagationTerminationSettings)
    (printInterval : double) (jsonObject : json) :
  MultiType_to_json propagatorSettingsMap_ terminationSettings printInterval
  = Ok jsonObject →
  Forall (λ arc, getInitialStates arc ≠ [])
    (getFlattenedMapValues propagatorSettingsMap_) →
  getValue (A:=Arcs) jsonObject [Keys.propagators]
  = Ok (withoutTermination <$> getFlattenedMapValues propagatorSettingsMap_).
Proof.
  intros Hencoded Hstates.
  pose proof Hencoded as (blocks & Hblocks & ->)%MultiType_to_json_Ok.
  assert (Forall (λ arc, getStateType arc ∈ supportedIntegratedStateTypes)
            (getFlattenedMapValues propagatorSettingsMap_)) as Hsupported.
  { destruct (decide (Forall (λ arc, getStateType arc ∈ supportedIntegratedStateTypes)
                        (getFlattenedMapValues propagatorSettingsMap_)))
      as [|Hnot]; [done|].
    by apply forEach_unsupported in Hblocks. }
  assert (getNode
            (JObj ((if isNaN printInterval then id
                    else insert Keys.options
                           (JObj {[ Keys.Options.printInterval
                                    := JNum printInterval ]}))
                     (<[ Keys.termination := to_json terminationSettings ]>
                        {[ Keys.propagators := JArr blocks ]})))
            [Keys.propagators] = Some (JArr blocks)) as Hnode.
  { destruct (isNaN printInterval); simpl.
    - by rewrite lookup_insert_ne, lookup_singleton_eq.
    - rewrite lookup_insert_ne by done.
      by rewrite lookup_insert_ne, lookup_singleton_eq. }
  unfold getValue, convert. rewrite Hnode.
  unfold from_json, SingleArcs_from_json, vector_from_json.
  apply forEach_Ok. apply forEach_Forall2 in Hblocks.
  clear Hencoded Hnode. revert Hstates Hsupported Hblocks.
  generalize (getFlattenedMapValues propagatorSettingsMap_) as arcs.
  intros arcs Hstates Hsupported Hblocks. revert Hstates Hsupported.
  induction Hblocks as [|arc block arcs blocks Hblock _ IH];
    intros Hstates Hsupported; [constructor|].
  apply Forall_cons in Hstates as [Harc Hstates].
  apply Forall_cons in Hsupported as [Hsup Hsupported].
  rewrite fmap_cons. constructor; [|by apply IH].
  pose proof (SingleArc_from_to_json arc Hsup Harc) as Hround.
  by rewrite Hblock, Ok_bind in Hround.
Qed.

End multi_type_round_trip.

End multi_type_encode_properties.

(** The termination settings written as the epoch that ends them. *)
#[local] Instance epoch_to_json : ToJson PropagationTerminationSettings :=
  λ terminationSettings, JNum (getTerminationEpoch terminationSettings).

Definition moonMap : list (IntegratedStateType * list NodeSettings) :=
  [ (translational_state, [settingsOfSix]); (rotational_state, [settingsOfSeven]) ].

Definition moonEncoded : json :=
  object [ ("propagators",
            JArr [ object [ ("integratedStateType", JStr "translational");
                            ("initialStates", moonStates);
                            ("type", JStr "cowell");
                            ("centralBodies", JArr [JStr "Earth"]);
                            ("bodiesToPropagate", JArr [JStr "Moon"]);
                            ("accelerations", object [("Moon", object [])]) ];
                   object [ ("integratedStateType", JStr "rotational");
                            ("initialStates",
                             JArr (number <$> [1; 2; 3; 4; 5; 6; 7]%positive));
                            ("bodiesToPropagate", JArr [JStr "Moon"]);
                            ("torques", object []) ] ]);
           ("termination", number 5);
           ("options", object [("printInterval", number 10)]) ].

Lemma MultiType_to_json_moon :
  MultiType_to_json moonMap (Time (double_of_pos 5)) (double_of_pos 10)
  = Ok moonEncoded.
Proof. vm_compute. reflexivity. Qed.

Lemma MultiType_to_json_print_interval_witness :
  MultiType_to_json moonMap (Time (double_of_pos 5)) (double_of_pos 10)
  = Ok moonEncoded
  ∧ getValueOr moonEncoded [Keys.options; Keys.Options.printInterval] TUDAT_NAN
    = Ok (double_of_pos 10).
Proof.
  assert (MultiType_to_json moonMap (Time (double_of_pos 5)) (double_of_pos 10)
          = Ok moonEncoded) as Hencoded.
  { vm_compute. reflexivity. }
  split; [exact Hencoded|].
  exact (proj1 (proj2 (MultiType_to_json_print_interval moonMap
                         (Time (double_of_pos 5)) (double_of_pos 10) moonEncoded
                         Hencoded))).
Defined.

Lemma MultiType_to_json_iff_all_supported_witness :
  let nested : list (IntegratedStateType * list NodeSettings) :=
    [ (hybrid, [HybridPropagatorSettings [] (Time zero)]);
      (translational_state, [settingsOfSix]) ] in
  getFlattenedMapValues nested
  = [] ++ HybridPropagatorSettings [] (Time zero) :: [settingsOfSix]
  ∧ MultiType_to_json nested (Time zero) TUDAT_NAN = Terminate.
Proof.
  intros nested.
  assert (getFlattenedMapValues nested
          = [] ++ HybridPropagatorSettings [] (Time zero) :: [settingsOfSix])
    as Harcs by reflexivity.
  split; [exact Harcs|].
  exact (proj1 (proj2 (MultiType_to_json_iff_all_supported nested (Time zero)
                         TUDAT_NAN))
           [] (HybridPropagatorSettings [] (Time zero)) [settingsOfSix] Harcs
           (Forall_nil_2 _) eq_refl).
Defined.

Lemma MultiType_to_json_propagators_decode_witness :
  MultiType_to_json moonMap (Time (double_of_pos 5)) (double_of_pos 10)
  = Ok moonEncoded
  ∧ getValue (A:=list NodeSettings) moonEncoded [Keys.propagators]
    = Ok [settingsOfSix; withoutTermination settingsOfSeven].
Proof.
  assert (MultiType_to_json moonMap (Time (double_of_pos 5)) (double_of_pos 10)
          = Ok moonEncoded) as Hencoded.
  { vm_compute. reflexivity. }
  split; [exact Hencoded|].
  refine (MultiType_to_json_propagators_decode moonMap (Time (double_of_pos 5))
            (double_of_pos 10) moonEncoded Hencoded _).
  repeat constructor; discriminate.
Defined.

(** ** More on the initial states *)

(** Every entry of the propagators has initial states. *)
Definition allHaveInitialStates (jsonPropagators : json) : Prop :=
  match jsonPropagators with
  | JNull => True
  | JArr elements =>
      Forall (λ entry, isDefined entry [K.initialStates] = true) elements
  | JObj members =>
      map_Forall (λ _ entry, isDefined entry [K.initialStates] = true) members
  | _ => False
  end.

Lemma assign_defined key value node updated :
  assign key value node = Ok updated → isDefined updated [key] = true.
Proof.
  destruct node as [| | | | |members]; try discriminate; intros [= <-];
    rewrite isDefined_member.
  - by rewrite lookup_singleton_eq.
  - by rewrite lookup_insert_eq.
Qed.

Lemma front_has_initial_states jsonPropagators jsonPropagator :
  allHaveInitialStates jsonPropagators →
  front jsonPropagators = Some jsonPropagator →
  isDefined jsonPropagator [K.initialStates] = true.
Proof.
  destruct jsonPropagators as [|b|d|s|elements|members]; simpl; try done.
  - intros Hall Hhead. apply head_Some_elem_of in Hhead.
    by eapply Forall_forall in Hall.
  - intros Hall Hhead.
    destruct (head (map_to_list members)) as [[key value]|] eqn:Hfirst;
      [|discriminate].
    injection Hhead as <-. apply head_Some_elem_of in Hfirst.
    apply elem_of_map_to_list in Hfirst. by apply (Hall key).
Qed.

Lemma at_key_assign node key value :
  at_key node key = Ok value → assign key value node = Ok node.
Proof.
  intros (members & -> & Hkey)%at_key_Ok. simpl. by rewrite insert_id.
Qed.

Section more_initial_states_properties.

Context {Body : Type}.
Variable getSingleIntegrationSize : IntegratedStateType → result nat.
Variable getInitialStatesOfBodies :
  list string → list string → gmap string Body → double → result VectorX.
Variable getCartesianState : json → list string → Body → double → result VectorX.
Variable bodyMap : gmap string Body.
Variable initialTime_ : double.

Abbreviation fromBodies jsonObject :=
  (statesFromBodies getSingleIntegrationSize getCartesianState jsonObject bodyMap
     initialTime_).
Abbreviation determine jsonObject :=
  (determineInitialStates getSingleIntegrationSize getInitialStatesOfBodies
     getCartesianState jsonObject bodyMap initialTime_).

Lemma statesFromBodies_defined jsonObject jsonPropagator :
  isDefined jsonPropagator [K.initialStates] = true →
  fromBodies jsonObject jsonPropagator = Ok jsonPropagator.
Proof. intros Hdefined. unfold statesFromBodies. by rewrite Hdefined. Qed.

Lemma statesFromBodies_result_defined jsonObject jsonPropagator updated :
  fromBodies jsonObject jsonPropagator = Ok updated →
  isDefined updated [K.initialStates] = true.
Proof.
  intros H.
  destruct (isDefined jsonPropagator [K.initialStates]) eqn:Hdefined.
  - by rewrite (statesFromBodies_defined _ _ Hdefined) in H; injection H as <-.
  - apply isDefined_false in Hdefined.
    destruct (statesFromBodies_undefined _ _ _ _ _ _ _ Hdefined H)
      as (tag & stateSize & bodies & initialStates & _ & _ & _ & _ & Hassign).
    by eapply assign_defined.
Qed.

Lemma forEachElement_defined jsonObject jsonPropagators :
  allHaveInitialStates jsonPropagators →
  forEachElement (fromBodies jsonObject) jsonPropagators = Ok jsonPropagators.
Proof.
  destruct jsonPropagators as [|b|d|s|elements|members]; simpl; try done.
  - intros Hall. rewrite (forEach_Ok _ elements elements); [done|].
    induction Hall as [|entry rest Hentry _ IH]; constructor; [|done].
    by apply statesFromBodies_defined.
  - intros Hall. unfold forEachMember.
    rewrite (forEach_Ok _ (map_to_list members) (map_to_list members)).
    + simpl. by rewrite list_to_map_to_list.
    + apply Forall_Forall2_diag, Forall_forall.
      intros [key entry] Hmember%elem_of_map_to_list. simpl.
      by rewrite (statesFromBodies_defined _ _ (Hall key entry Hmember)).
Qed.

Lemma determineInitialStates_complete jsonObject jsonPropagators :
  at_key jsonObject Keys.propagators = Ok jsonPropagators →
  allHaveInitialStates jsonPropagators →
  determine jsonObject = Ok jsonObject.
Proof.
  intros Hat Hall. unfold determineInitialStates. rewrite Hat, Ok_bind.
  assert (fromEphemeris getInitialStatesOfBodies bodyMap initialTime_
            jsonPropagators = Ok (jsonPropagators, false)) as ->.
  { unfold fromEphemeris. case_bool_decide; [|done].
    destruct (front jsonPropagators) as [jsonPropagator|] eqn:Hfront; [|done].
    by rewrite (front_has_initial_states _ _ Hall Hfront). }
  rewrite Ok_bind. simpl. rewrite (forEachElement_defined _ _ Hall), Ok_bind.
  by apply at_key_assign.
Qed.

(** X18: a configuration whose propagators all have initial states is
    left as it is, and [determineInitialStates] succeeds on it whatever
    the bodies and their ephemeris are: nothing of them is needed. This
    holds for a configuration without any propagator as well. *)
Theorem determineInitialStates_leaves_complete_configuration
    (jsonObject jsonPropagators : json) :
  at_key jsonObject Keys.propagators = Ok jsonPropagators →
  allHaveInitialStates jsonPropagators →
  determine jsonObject = Ok jsonObject.
Proof. apply determineInitialStates_complete. Qed.

Lemma setFront_has_initial_states jsonPropagators jsonPropagator updated :
  json_size jsonPropagators = 1 →
  front jsonPropagators = Some jsonPropagator →
  (∃ members, jsonPropagator = JObj members) →
  isDefined updated [K.initialStates] = true →
  allHaveInitialStates (setFront jsonPropagators updated).
Proof.
  intros Hsize Hfront [inner ->] Hdefined.
  destruct jsonPropagators as [|b|d|s|elements|members]; simpl in *;
    try discriminate.
  - destruct elements as [|first [|]]; try discriminate. by constructor.
  - rewrite <- length_map_to_list in Hsize.
    destruct (map_to_list members) as [|[key value] [|]] eqn:Hlist;
      try discriminate. simpl.
    intros key' entry. destruct (decide (key' = key)) as [->|Hne].
    + rewrite lookup_insert_eq. by intros [= <-].
    + rewrite lookup_insert_ne by done.
      intros Hentry%elem_of_map_to_list. rewrite Hlist in Hentry.
      apply list_elem_of_singleton in Hentry. congruence.
Qed.

Lemma forEachElement_result_defined jsonObject jsonPropagators updated :
  forEachElement (fromBodies jsonObject) jsonPropagators = Ok updated →
  allHaveInitialStates updated.
Proof.
  assert (∀ primitive result,
            getNode primitive [K.bodiesToPropagate] = None →
            getNode primitive [K.initialStates] = None →
            fromBodies jsonObject primitive ≠ Ok result) as Hprimitive.
  { intros primitive result Hbodies Hnone H.
    destruct (statesFromBodies_undefined _ _ _ _ _ _ _ Hnone H)
      as (tag & stateSize & bodies & initialStates & _ & _ & Hread & _).
    unfold getValue, convert in Hread. by rewrite Hbodies in Hread. }
  destruct jsonPropagators as [|b|d|s|elements|members]; simpl; intros H.
  - by injection H as <-.
  - by apply Hprimitive in H.
  - by apply Hprimitive in H.
  - by apply Hprimitive in H.
  - apply fmap_Ok in H as (elements' & H & <-). simpl.
    apply forEach_Forall2 in H. apply Forall_forall. intros entry' Hentry'.
    apply list_elem_of_lookup in Hentry' as [i Hi].
    destruct (Forall2_lookup_r _ _ _ _ _ H Hi) as (entry & _ & Hentry).
    by eapply statesFromBodies_result_defined.
  - apply fmap_Ok in H as (members' & H & <-). simpl.
    intros key entry' Hentry'.
    pose proof (forEachMember_lookup _ _ _ key H) as Hkey.
    rewrite Hentry' in Hkey. inversion Hkey as [entry ? Hentry|]; subst.
    by eapply statesFromBodies_result_defined.
Qed.

Lemma determineInitialStates_result_complete jsonObject updatedObject :
  determine jsonObject = Ok updatedObject →
  ∃ updatedPropagators,
    at_key updatedObject Keys.propagators = Ok updatedPropagators
    ∧ allHaveInitialStates updatedPropagators.
Proof.
  unfold determineInitialStates. intros H.
  apply bind_Ok in H as (jsonPropagators & Hat & H).
  apply bind_Ok in H as ([afterEphemeris usedEphemeris] & Hephemeris & H).
  apply bind_Ok in H as (updatedPropagators & Hbodies & H).
  apply at_key_Ok in Hat as (members & -> & Hnode).
  injection H as <-. exists updatedPropagators. split.
  { simpl. by rewrite lookup_insert_eq. }
  apply fromEphemeris_cases in Hephemeris
    as [[-> ->]|(-> & jsonPropagator & updated & Hsize & Hfront & Hnone & _
                   & Htry & ->)]; simpl in Hbodies.
  - by eapply forEachElement_result_defined.
  - injection Hbodies as <-. unfold statesFromEphemeris in Htry.
    apply bind_Ok in Htry as (bodies & Hread & Htry).
    apply bind_Ok in Htry as (centralBodies & _ & Htry).
    apply bind_Ok in Htry as (initialStates & _ & Hassign).
    eapply setFront_has_initial_states; [done..| |by eapply assign_defined].
    destruct jsonPropagator as [| | | | |inner]; try discriminate Hread.
    by eexists.
Qed.

End more_initial_states_properties.

(** X19: [determineInitialStates] gives a complete configuration and is
    done once: after a success every propagator of the configuration has
    initial states, and a further call on the result, with whatever bodies,
    returns it as it is. *)
Theorem determineInitialStates_completes_and_is_idempotent {Body Body' : Type}
    (getSingleIntegrationSize getSingleIntegrationSize'
       : IntegratedStateType → result nat)
    (getInitialStatesOfBodies
       : list string → list string → gmap string Body → double → result VectorX)
    (getInitialStatesOfBodies'
       : list string → list string → gmap string Body' → double → result VectorX)
    (getCartesianState : json → list string → Body → double → result VectorX)
    (getCartesianState' : json → list string → Body' → double → result VectorX)
    (bodyMap : gmap string Body) (bodyMap' : gmap string Body')
    (initialTime_ initialTime_' : double) (jsonObject updatedObject : json) :
  determineInitialStates getSingleIntegrationSize getInitialStatesOfBodies
    getCartesianState jsonObject bodyMap initialTime_ = Ok updatedObject →
  (∃ updatedPropagators,
     getNode updatedObject [Keys.propagators] = Some updatedPropagators
     ∧ allHaveInitialStates updatedPropagators)
  ∧ determineInitialStates getSingleIntegrationSize' getInitialStatesOfBodies'
      getCartesianState' updatedObject bodyMap' initialTime_' = Ok updatedObject.
Proof.
  intros (updatedPropagators & Hat & Hall)%determineInitialStates_result_complete.
  split.
  - exists updatedPropagators. split; [|done].
    apply at_key_Ok in Hat as (members & -> & Hkey). by rewrite getNode_member.
  - by eapply determineInitialStates_complete.
Qed.

Lemma determineInitialStates_leaves_complete_configuration_witness :
  at_key (moonConfiguration moonPropagatorFilled) Keys.propagators
  = Ok (JArr [moonPropagatorFilled])
  ∧ allHaveInitialStates (JArr [moonPropagatorFilled])
  ∧ determineInitialStates blockSize noEphemeris statedCartesianState
      (moonConfiguration moonPropagatorFilled) earthAlone zero
    = Ok (moonConfiguration moonPropagatorFilled).
Proof.
  assert (at_key (moonConfiguration moonPropagatorFilled) Keys.propagators
          = Ok (JArr [moonPropagatorFilled])) as Hat.
  { vm_compute. reflexivity. }
  assert (allHaveInitialStates (JArr [moonPropagatorFilled])) as Hall.
  { constructor; [vm_compute; reflexivity|constructor]. }
  split; [exact Hat|]. split; [exact Hall|].
  exact (determineInitialStates_leaves_complete_configuration blockSize
           noEphemeris statedCartesianState earthAlone zero
           (moonConfiguration moonPropagatorFilled) (JArr [moonPropagatorFilled])
           Hat Hall).
Defined.

Lemma determineInitialStates_completes_and_is_idempotent_witness :
  determineInitialStates blockSize noEphemeris statedCartesianState
    (moonConfiguration moonPropagator) earthAlone zero
  = Ok (moonConfiguration moonPropagatorFilled)
  ∧ determineInitialStates blockSize noEphemeris statedCartesianState
      (moonConfiguration moonPropagatorFilled) earthAlone zero
    = Ok (moonConfiguration moonPropagatorFilled).
Proof.
  assert (determineInitialStates blockSize noEphemeris statedCartesianState
            (moonConfiguration moonPropagator) earthAlone zero
          = Ok (moonConfiguration moonPropagatorFilled)) as Hdetermined.
  { vm_compute. reflexivity. }
  split; [exact Hdetermined|].
  exact (proj2 (determineInitialStates_completes_and_is_idempotent
                  blockSize blockSize noEphemeris noEphemeris
                  statedCartesianState statedCartesianState earthAlone earthAlone
                  zero zero (moonConfiguration moonPropagator)
                  (moonConfiguration moonPropagatorFilled) Hdetermined)).
Defined.

(** Bodies whose ephemeris gives the states of [moonStates]. *)
Definition moonEphemeris (bodiesToPropagate centralBodies : list string)
  (bodyMap : gmap string unit) (initialTime : double) : result VectorX :=
  Ok (double_of_pos <$> [1; 2; 3; 4; 5; 6]%positive).

Section ephemeris_answer.

Context {Body : Type}.
Variable getInitialStatesOfBodies :
  list string → list string → gmap string Body → double → result VectorX.
Variable bodyMap : gmap string Body.
Variable initialTime_ : double.

(** X20: when the only propagator has no initial states, is of the
    translational type and names its bodies and central bodies, and the
    ephemeris of the bodies answers, then the answer becomes the initial
    states of that propagator and this is all that happens: no block size
    is asked for and no state is read from the bodies settings. *)
Theorem determineInitialStates_takes_the_ephemeris_answer
    (getSingleIntegrationSize : IntegratedStateType → result nat)
    (getCartesianState : json → list string → Body → double → result VectorX)
    (jsonObject jsonPropagators jsonPropagator : json)
    (bodiesToPropagate centralBodies : list string) (initialStates : VectorX) :
  at_key jsonObject Keys.propagators = Ok jsonPropagators →
  json_size jsonPropagators = 1 →
  front jsonPropagators = Some jsonPropagator →
  getNode jsonPropagator [K.initialStates] = None →
  getValueOr jsonPropagator [K.integratedStateType] translational_state
  = Ok translational_state →
  getValue jsonPropagator [K.bodiesToPropagate] = Ok bodiesToPropagate →
  getValue jsonPropagator [K.centralBodies] = Ok centralBodies →
  getInitialStatesOfBodies bodiesToPropagate centralBodies bodyMap initialTime_
  = Ok initialStates →
  ∃ updated,
    assign K.initialStates (to_json initialStates) jsonPropagator = Ok updated
    ∧ determineInitialStates getSingleIntegrationSize getInitialStatesOfBodies
        getCartesianState jsonObject bodyMap initialTime_
      = assign Keys.propagators (setFront jsonPropagators updated) jsonObject.
Proof.
  intros Hat Hsize Hfront Hnone Htag Hbodies Hcentral Hanswer.
  assert (∃ updated,
            assign K.initialStates (to_json initialStates) jsonPropagator
            = Ok updated) as [updated Hassign].
  { destruct jsonPropagator as [| | | | |members]; try discriminate Hbodies.
    by eexists. }
  exists updated. split; [done|].
  unfold determineInitialStates. rewrite Hat, Ok_bind.
  rewrite (fromEphemeris_applies _ _ _ _ _ Hsize Hfront Hnone Htag).
  unfold statesFromEphemeris.
  by rewrite Hbodies, Ok_bind, Hcentral, Ok_bind, Hanswer, Ok_bind, Hassign.
Qed.

End ephemeris_answer.

Lemma determineInitialStates_takes_the_ephemeris_answer_witness :
  determineInitialStates blockSize moonEphemeris statedCartesianState
    (moonConfiguration moonPropagator) earthAlone zero
  = Ok (moonConfiguration moonPropagatorFilled).
Proof.
  assert (at_key (moonConfiguration moonPropagator) Keys.propagators
          = Ok (JArr [moonPropagator])) as Hat.
  { vm_compute. reflexivity. }
  assert (getNode moonPropagator [K.initialStates] = None) as Hnone.
  { vm_compute. reflexivity. }
  assert (getValueOr moonPropagator [K.integratedStateType] translational_state
          = Ok translational_state) as Htag.
  { vm_compute. reflexivity. }
  assert (getValue moonPropagator [K.bodiesToPropagate] = Ok ["Moon"]) as Hbodies.
  { vm_compute. reflexivity. }
  assert (getValue moonPropagator [K.centralBodies] = Ok ["Earth"]) as Hcentral.
  { vm_compute. reflexivity. }
  destruct (determineInitialStates_takes_the_ephemeris_answer moonEphemeris
              earthAlone zero blockSize statedCartesianState
              (moonConfiguration moonPropagator) (JArr [moonPropagator])
              moonPropagator ["Moon"] ["Earth"]
              (double_of_pos <$> [1; 2; 3; 4; 5; 6]%positive)
              Hat eq_refl eq_refl Hnone Htag Hbodies Hcentral eq_refl)
    as (updated & Hassign & ->).
  injection Hassign as <-. vm_compute. reflexivity.
Defined.

Section per_body_states.

Context {Body : Type}.
Variable getSingleIntegrationSize : IntegratedStateType → result nat.
Variable getCartesianState : json → list string → Body → double → result VectorX.
Variable jsonObject : json.
Variable bodyMap : gmap string Body.
Variable initialTime_ : double.

(** The state of the [i]-th body to propagate, as one round of the loop
    over [i] gets it. *)
Definition stateOfBody (jsonPropagator : json)
  (integratedStateType : IntegratedStateType) (stateKey : string)
  (i : nat) (body : string) : result VectorX :=
  let stateKeyPath := [Keys.bodies; body; stateKey] in
  if bool_decide (integratedStateType = translational_state) then
    centralBodies ← getValue (A:=list string) jsonPropagator [K.centralBodies];
    centralBodyName ← at_index centralBodies i;
    centralBody ← at_name bodyMap centralBodyName;
    getCartesianState jsonObject stateKeyPath centralBody initialTime_
  else getValue (A:=VectorX) jsonObject stateKeyPath.

Lemma statesOfBodies_cons jsonPropagator tag stateSize stateKey body rest i
    initialStates :
  statesOfBodies getCartesianState jsonObject bodyMap initialTime_ jsonPropagator
    tag stateSize stateKey (body :: rest) i initialStates
  = (bodyState ← stateOfBody jsonPropagator tag stateKey i body;
     initialStates ← setSegment initialStates (i * stateSize) stateSize bodyState;
     statesOfBodies getCartesianState jsonObject bodyMap initialTime_
       jsonPropagator tag stateSize stateKey rest (S i) initialStates).
Proof. reflexivity. Qed.

(** The states of the bodies from the [i]-th on, block by block. *)
Definition blocksFrom (jsonPropagator : json) (tag : IntegratedStateType)
  (stateSize : nat) (stateKey : string) (i : nat) (bodies : list string)
  (blocks : list VectorX) : Prop :=
  length blocks = length bodies
  ∧ ∀ k body, bodies !! k = Some body →
      ∃ block, blocks !! k = Some block
               ∧ stateOfBody jsonPropagator tag stateKey (i + k) body = Ok block
               ∧ length block = stateSize.

Lemma blocksFrom_cons jsonPropagator tag stateSize stateKey i body rest block
    blocks :
  blocksFrom jsonPropagator tag stateSize stateKey i (body :: rest)
    (block :: blocks)
  ↔ stateOfBody jsonPropagator tag stateKey i body = Ok block
    ∧ length block = stateSize
    ∧ blocksFrom jsonPropagator tag stateSize stateKey (S i) rest blocks.
Proof.
  unfold blocksFrom. split.
  - intros [Hlength Hblocks]. simpl in Hlength.
    destruct (Hblocks 0 body eq_refl) as (first & [= <-] & Hfirst & Hsize).
    rewrite Nat.add_0_r in Hfirst. repeat split; try done; [lia|].
    intros k other Hother.
    destruct (Hblocks (S k) other Hother) as (next & Hnext & Hstate & Hnsize).
    exists next. by replace (S i + k) with (i + S k) by lia.
  - intros (Hfirst & Hsize & Hlength & Hblocks). split; [simpl; lia|].
    intros [|k] other Hother; simpl in Hother.
    + injection Hother as <-. exists block. by rewrite Nat.add_0_r.
    + destruct (Hblocks k other Hother) as (next & Hnext & Hstate & Hnsize).
      exists next. by replace (i + S k) with (S i + k) by lia.
Qed.

Lemma statesOfBodies_blocks jsonPropagator tag stateSize stateKey bodies i
    initialStates states :
  length initialStates = (i + length bodies) * stateSize →
  statesOfBodies getCartesianState jsonObject bodyMap initialTime_ jsonPropagator
    tag stateSize stateKey bodies i initialStates = Ok states
  ↔ ∃ blocks, blocksFrom jsonPropagator tag stateSize stateKey i bodies blocks
              ∧ states = take (i * stateSize) initialStates ++ concat blocks.
Proof.
  revert i initialStates.
  induction bodies as [|body rest IH]; intros i initialStates Hlength.
  - simpl in Hlength. rewrite Nat.add_0_r in Hlength. simpl. split.
    + intros [= <-]. exists []. split; [by split|].
      by rewrite take_ge, app_nil_r by lia.
    + intros (blocks & [Hnil _] & ->). destruct blocks; [|done].
      by rewrite take_ge, app_nil_r by lia.
  - rewrite statesOfBodies_cons. simpl in Hlength. split.
    + intros (block & Hblock & H)%bind_Ok.
      apply bind_Ok in H as (updated & Hsegment & H).
      pose proof (setSegment_length _ _ _ _ _ Hsegment) as Hupdated.
      unfold setSegment in Hsegment.
      case_bool_decide as Hsizes; [|done]. destruct Hsizes as [Hsize Hinside].
      injection Hsegment as <-.
      apply IH in H as (blocks & Hblocks & ->); [|lia].
      exists (block :: blocks). split; [by apply blocksFrom_cons|].
      rewrite take_app_ge by (rewrite length_take; lia).
      rewrite length_take, Nat.min_l by lia.
      rewrite take_app_ge by lia.
      replace (S i * stateSize - i * stateSize - length block) with 0 by lia.
      rewrite take_0, app_nil_r. simpl. by rewrite <- !app_assoc.
    + intros (blocks & Hblocks & ->).
      destruct blocks as [|block blocks]; [by destruct Hblocks|].
      apply blocksFrom_cons in Hblocks as (Hblock & Hsize & Hblocks).
      rewrite Hblock, Ok_bind. unfold setSegment.
      rewrite bool_decide_true by (split; [done|lia]). rewrite Ok_bind.
      apply IH.
      { rewrite !length_app, length_take, length_drop. lia. }
      exists blocks. split; [done|].
      rewrite take_app_ge by (rewrite length_take; lia).
      rewrite length_take, Nat.min_l by lia.
      rewrite take_app_ge by lia.
      replace (S i * stateSize - i * stateSize - length block) with 0 by lia.
      rewrite take_0, app_nil_r. simpl. by rewrite <- !app_assoc.
Qed.


Lemma statesFromBodies_blocks jsonPropagator updated :
  getNode jsonPropagator [K.initialStates] = None →
  statesFromBodies getSingleIntegrationSize getCartesianState jsonObject bodyMap
    initialTime_ jsonPropagator = Ok updated →
  ∃ tag stateSize stateKey bodies blocks,
    getValueOr jsonPropagator [K.integratedStateType] translational_state = Ok tag
    ∧ getSingleIntegrationSize tag = Ok stateSize
    ∧ getAssociatedKey tag = Ok stateKey
    ∧ getValue jsonPropagator [K.bodiesToPropagate] = Ok bodies
    ∧ blocksFrom jsonPropagator tag stateSize stateKey 0 bodies blocks
    ∧ assign K.initialStates (to_json (concat blocks)) jsonPropagator = Ok updated.
Proof.
  intros Hnone%isDefined_false H. unfold statesFromBodies in H.
  rewrite Hnone in H.
  apply bind_Ok in H as (tag & Htag & H).
  apply bind_Ok in H as (stateSize & Hsize & H).
  apply bind_Ok in H as (stateKey & Hkey & H).
  apply bind_Ok in H as (bodies & Hbodies & H).
  apply bind_Ok in H as (initialStates & Hstates & H).
  apply statesOfBodies_blocks in Hstates as (blocks & Hblocks & ->);
    [|rewrite length_replicate; simpl; lia].
  by exists tag, stateSize, stateKey, bodies, blocks.
Qed.

(** X22: when the loop over the propagators infers the states of an
    entry of the translational type, every body to propagate has a
    central body at its own position in [centralBodies], and that central
    body is one of [bodyMap]: with fewer central bodies than bodies, or
    with a central body that [bodyMap] does not hold, the entry is never
    filled. *)
Theorem statesFromBodies_needs_a_central_body_for_every_body
    (jsonPropagator updated : json) (bodiesToPropagate : list string) :
  getNode jsonPropagator [K.initialStates] = None →
  getValueOr jsonPropagator [K.integratedStateType] translational_state
  = Ok translational_state →
  getValue jsonPropagator [K.bodiesToPropagate] = Ok bodiesToPropagate →
  statesFromBodies getSingleIntegrationSize getCartesianState jsonObject bodyMap
    initialTime_ jsonPropagator = Ok updated →
  ∀ i, i < length bodiesToPropagate →
    ∃ (centralBodies : list string) centralBodyName,
      getValue jsonPropagator [K.centralBodies] = Ok centralBodies
      ∧ centralBodies !! i = Some centralBodyName
      ∧ is_Some (bodyMap !! centralBodyName).
Proof.
  intros Hnone Htag Hbodies H i Hi.
  destruct (statesFromBodies_blocks _ _ Hnone H)
    as (tag & stateSize & stateKey & bodies & blocks & Htag' & _ & _ & Hbodies'
        & [_ Hblocks] & _).
  rewrite Htag in Htag'. injection Htag' as <-.
  rewrite Hbodies in Hbodies'. injection Hbodies' as <-.
  apply lookup_lt_is_Some in Hi as [body Hbody].
  destruct (Hblocks i body Hbody) as (block & _ & Hstate & _).
  unfold stateOfBody in Hstate. rewrite bool_decide_true in Hstate by done.
  apply bind_Ok in Hstate as (centralBodies & Hcentral & Hstate).
  apply bind_Ok in Hstate as (centralBodyName & Hname & Hstate).
  apply bind_Ok in Hstate as (centralBody & Hbodyof & _).
  exists centralBodies, centralBodyName. split; [done|].
  unfold at_index in Hname. unfold at_name in Hbodyof. simpl in Hname.
  destruct (centralBodies !! i) as [name|] eqn:Hlookup; [|done].
  injection Hname as ->. split; [done|].
  by destruct (bodyMap !! centralBodyName).
Qed.

End per_body_states.


Lemma statesFromBodies_needs_a_central_body_for_every_body_witness :
  statesFromBodies blockSize statedCartesianState
    (moonConfiguration moonPropagator) earthAlone zero moonPropagator
  = Ok moonPropagatorFilled
  ∧ ∃ (centralBodies : list string) centralBodyName,
      getValue moonPropagator [K.centralBodies] = Ok centralBodies
      ∧ centralBodies !! 0 = Some centralBodyName
      ∧ is_Some (earthAlone !! centralBodyName).
Proof.
  assert (statesFromBodies blockSize statedCartesianState
            (moonConfiguration moonPropagator) earthAlone zero moonPropagator
          = Ok moonPropagatorFilled) as Hfilled.
  { vm_compute. reflexivity. }
  assert (getNode moonPropagator [K.initialStates] = None) as Hnone.
  { vm_compute. reflexivity. }
  assert (getValueOr moonPropagator [K.integratedStateType] translational_state
          = Ok translational_state) as Htag.
  { vm_compute. reflexivity. }
  assert (getValue moonPropagator [K.bodiesToPropagate] = Ok ["Moon"]) as Hbodies.
  { vm_compute. reflexivity. }
  split; [exact Hfilled|].
  exact (statesFromBodies_needs_a_central_body_for_every_body blockSize
           statedCartesianState (moonConfiguration moonPropagator) earthAlone zero
           moonPropagator moonPropagatorFilled ["Moon"] Hnone Htag Hbodies Hfilled
           0 (le_n 1)).
Defined.

Lemma getAssociatedKey_supported integratedStateType :
  (∃ stateKey, getAssociatedKey integratedStateType = Ok stateKey)
  ↔ integratedStateType ∈ supportedIntegratedStateTypes.
Proof.
  unfold supportedIntegratedStateTypes. split.
  - intros [stateKey Hkey].
    destruct integratedStateType; try discriminate Hkey;
      repeat first [by left|right].
  - intros Hsupported.
    destruct integratedStateType; try (by eexists); exfalso;
      repeat (apply elem_of_cons in Hsupported as [Hsupported|Hsupported];
              [discriminate Hsupported|]);
      by apply elem_of_nil in Hsupported.
Qed.

Lemma getAssociatedKey_one_to_one tag tag' stateKey :
  getAssociatedKey tag = Ok stateKey →
  getAssociatedKey tag' = Ok stateKey →
  tag = tag'.
Proof.
  destruct tag, tag'; simpl; intros Hkey Hkey'; try done;
    cbv in Hkey, Hkey'; congruence.
Qed.

(** X23: the loop over the propagators fills an entry only when its state
    type has an associated key. The state types with a key are the
    translational, the rotational and the mass one, which are the ones
    that the encode of single-arc settings accepts, and no two of them have
    the same key: the states of a body for one state type are never read
    in place of those for another. *)
Theorem statesFromBodies_needs_an_associated_key {Body : Type}
    (getSingleIntegrationSize : IntegratedStateType → result nat)
    (getCartesianState : json → list string → Body → double → result VectorX)
    (jsonObject : json) (bodyMap : gmap string Body) (initialTime_ : double)
    (jsonPropagator updated : json) :
  getNode jsonPropagator [K.initialStates] = None →
  statesFromBodies getSingleIntegrationSize getCartesianState jsonObject bodyMap
    initialTime_ jsonPropagator = Ok updated →
  ∃ integratedStateType stateKey,
    getValueOr jsonPropagator [K.integratedStateType] translational_state
    = Ok integratedStateType
    ∧ getAssociatedKey integratedStateType = Ok stateKey
    ∧ integratedStateType ∈ supportedIntegratedStateTypes
    ∧ ∀ other, getAssociatedKey other = Ok stateKey → other = integratedStateType.
Proof.
  intros Hnone H.
  destruct (statesFromBodies_blocks _ _ _ _ _ _ _ Hnone H)
    as (tag & stateSize & stateKey & bodies & blocks & Htag & _ & Hkey & _).
  exists tag, stateKey. repeat split; try done.
  - apply getAssociatedKey_supported. by exists stateKey.
  - intros other Hother. by eapply getAssociatedKey_one_to_one.
Qed.

Lemma statesFromBodies_needs_an_associated_key_witness :
  statesFromBodies blockSize statedCartesianState
    (moonConfiguration moonPropagator) earthAlone zero moonPropagator
  = Ok moonPropagatorFilled
  ∧ ∃ integratedStateType stateKey,
      getValueOr moonPropagator [K.integratedStateType] translational_state
      = Ok integratedStateType
      ∧ getAssociatedKey integratedStateType = Ok stateKey
      ∧ integratedStateType ∈ supportedIntegratedStateTypes
      ∧ ∀ other, getAssociatedKey other = Ok stateKey → other = integratedStateType.
Proof.
  assert (statesFromBodies blockSize statedCartesianState
            (moonConfiguration moonPropagator) earthAlone zero moonPropagator
          = Ok moonPropagatorFilled) as Hfilled.
  { vm_compute. reflexivity. }
  assert (getNode moonPropagator [K.initialStates] = None) as Hnone.
  { vm_compute. reflexivity. }
  split; [exact Hfilled|].
  exact (statesFromBodies_needs_an_associated_key blockSize statedCartesianState
           (moonConfiguration moonPropagator) earthAlone zero moonPropagator
           moonPropagatorFilled Hnone Hfilled).
Defined.
